(** * rita-backend: the update-ingestion and aggregation pipeline

    A shallow embedding of the federated-learning coordinator of
    rita-backend (TypeScript, Fastify + Redis):

    - [StreamingFLAggregator] (src/services/StreamingFLAggregator.ts),
      the streaming weighted mean, with the objects it mutates held in an
      explicit heap;
    - the Redis key space the server works on, with expiry;
    - [ModelVersioningService] and [DatabaseService];
    - the routes of the server ([POST /api/v1/fl/weights], [aggregateNow]),
      in the two generations the repository carries;
    - [SecurityUtils.validateHMAC], over HMAC-SHA256 as Node's [crypto]
      computes it.

    JavaScript numbers are IEEE-754 binary64 values: they are Rocq's
    primitive floats.  The aggregator is written once, over the arithmetic
    it uses, and is read at binary64 for what the program computes and at
    the canonical rationals for its algebra without rounding. *)

From Stdlib Require Import ZArith NArith QArith Qabs Qcanon Floats String Ascii Lia.
From Stdlib Require Import DecimalString DecimalZ DecimalPos Uint63.
From stdpp Require Import numbers gmap strings list.

Set Warnings "-inexact-float".
Set Default Proof Using "Type".

Local Open Scope string_scope.

(** ** Outcomes of a call: a value, or an exception with its message. *)

Inductive outcome (A : Type) : Type :=
| Returned (a : A)
| Thrown (msg : string).
Arguments Returned {A} a.
Arguments Thrown {A} msg.

#[export] Instance outcome_bind : MBind outcome := fun A B k m =>
  match m with
  | Returned a => k a
  | Thrown msg => Thrown msg
  end.

(** ** JavaScript numbers

    The operations the aggregator applies to a [number]: [0], [1.0], [+],
    [*], [/] and the test [x > 0]. *)

Class JSNumber (F : Type) : Type := {
  num_zero : F;
  num_one : F;
  num_add : F -> F -> F;
  num_mul : F -> F -> F;
  num_div : F -> F -> F;
  num_pos : F -> bool
}.

(** binary64, the numbers of the running program. *)
#[export] Instance float_number : JSNumber float := {
  num_zero := 0%float;
  num_one := 1%float;
  num_add := PrimFloat.add;
  num_mul := PrimFloat.mul;
  num_div := PrimFloat.div;
  num_pos := fun x => PrimFloat.ltb 0%float x
}.

(** Exact rationals: the same arithmetic without rounding. *)
#[export] Instance exact_number : JSNumber Qc := {
  num_zero := 0%Qc;
  num_one := 1%Qc;
  num_add := Qcplus;
  num_mul := Qcmult;
  num_div := Qcdiv;
  num_pos := fun x => bool_decide (0 < x)%Qc
}.

(** ** StreamingFLAggregator *)

Module StreamingFLAggregator.

(** An object reference. *)
Definition loc := nat.

(** [Record<string, number[]>]: the layers of one update, by name.  These
    are the object's own properties.  (The result of a call is held the
    same way, by what [result[layerName]] reads in the loops.) *)
Abbreviation JSObject F := (gmap string (list F)).

(** What every such object inherits: the functions of [Object.prototype],
    each with its [length], the number of its parameters.  ([__proto__]
    reads as the prototype itself, an object without a [length].) *)
Definition prototype_length (name : string) : option nat :=
  if bool_decide (name ∈ ["constructor"; "hasOwnProperty"; "isPrototypeOf";
                          "propertyIsEnumerable"; "__lookupGetter__"; "__lookupSetter__"])
  then Some 1%nat
  else if bool_decide (name ∈ ["toString"; "toLocaleString"; "valueOf"]) then Some 0%nat
  else if bool_decide (name ∈ ["__defineGetter__"; "__defineSetter__"]) then Some 2%nat
  else None.

(** The objects the updates refer to.  A reference that the heap does not
    list denotes the empty object. *)
Abbreviation heap F := (gmap loc (JSObject F)).

(** [{siteId, weights, weight}]: [weights] is a reference, so two updates
    may share one object. *)
Record Update (F : Type) : Type := {
  siteId : string;
  weights : loc;
  weight : F
}.
Arguments siteId {F} _.
Arguments weights {F} _.
Arguments weight {F} _.

Inductive Strategy : Type := uniform | data_quality | data_size.

Section Aggregator.
Context {F : Type} `{JSNumber F}.

(** [calculateClientWeight(sampleCount, dataQuality, strategy)] *)
Definition calculateClientWeight (sampleCount dataQuality : F) (strategy : Strategy) : F :=
  match strategy with
  | uniform => num_one
  | data_quality => dataQuality
  | data_size => sampleCount
  end.

(** [Object.keys(o)].  The enumeration order is the map's; every iteration
    of the aggregator touches its own layer only. *)
Definition Object_keys (o : JSObject F) : list string := (map_to_list o).*1.

(** The own layer [layerName] of [u.weights] in heap [h]. *)
Definition layer_of (h : heap F) (u : Update F) (layerName : string) : option (list F) :=
  (h !!! weights u) !! layerName.

(** [undefined] as a number: [NaN], which is [0/0] in binary64.  The
    rationals have no such value: over them, the statements that give the
    value of a layer are about layers that every contributor holds as its
    own. *)
Definition num_nan : F := num_div num_zero num_zero.

(** The state of the loop over the updates, for one layer: the heap, the
    running [result[layerName]] and [total]. *)
Record LayerAcc : Type := {
  acc_heap : heap F;
  acc_sum : list F;
  acc_total : F
}.

(** One turn of [for (const u of updates)]:
<<
  if (!u.weights[layerName] || u.weights[layerName].length !== size) continue;
  total += u.weight;
  for (let i=0;i<size;i++) result[layerName][i] += u.weights[layerName][i] * u.weight;
  delete u.weights[layerName];
>>
    [u.weights[layerName]] is the own layer of that name, or else what the
    object inherits under it.  A function of [Object.prototype] whose
    [length] is [size] passes the guard like a vector: every
    [u.weights[layerName][i]] is then [undefined], and [delete] finds no own
    property to remove. *)
Definition visit (layerName : string) (size : nat) (s : LayerAcc) (u : Update F) : LayerAcc :=
  let turn (elements : list F) :=
    {| acc_heap := <[weights u := delete layerName (acc_heap s !!! weights u)]> (acc_heap s);
       acc_sum := zip_with num_add (acc_sum s) ((fun x => num_mul x (weight u)) <$> elements);
       acc_total := num_add (acc_total s) (weight u) |} in
  match layer_of (acc_heap s) u layerName with
  | Some v => if Nat.eqb (length v) size then turn v else s
  | None =>
      if bool_decide (prototype_length layerName = Some size) then turn (replicate size num_nan)
      else s
  end.

(** [if (total > 0) for (let i=0;i<size;i++) result[layerName][i] /= total;] *)
Definition normalise (s : LayerAcc) : list F :=
  if num_pos (acc_total s) then (fun x => num_div x (acc_total s)) <$> acc_sum s
  else acc_sum s.

(** [result[layerName] = new Array(size).fill(0); let total = 0;] *)
Definition layer_start (h : heap F) (size : nat) : LayerAcc :=
  {| acc_heap := h; acc_sum := replicate size num_zero; acc_total := num_zero |}.

(** The loop over the updates, for one layer. *)
Definition layer_run (layerName : string) (size : nat) (h : heap F)
    (updates : list (Update F)) : LayerAcc :=
  foldl (visit layerName size) (layer_start h size) updates.

(** The body of [for (const layerName of Object.keys(template))].  The
    template has the layer as its own when its turn comes: the keys are
    its own, and a turn deletes no layer but its own.  (Without it,
    [template[layerName]] would be [undefined] or an inherited member.)
    The assignment [result[layerName] = ...] adds the property, except for
    the name [__proto__], where it makes the new vector the prototype of
    the result: [result['__proto__']] reads that vector in the loops and
    afterwards, and the result has no property of the name. *)
Definition aggregate_layer (updates : list (Update F)) (template : loc)
    (st : heap F * JSObject F) (layerName : string) : outcome (heap F * JSObject F) :=
  match (st.1 !!! template) !! layerName with
  | None => Thrown "Cannot read properties of undefined (reading 'length')"
  | Some t =>
      let size := length t in
      let s := layer_run layerName size st.1 updates in
      Returned (acc_heap s, <[layerName := normalise s]> st.2)
  end.

Fixpoint aggregate_layers (updates : list (Update F)) (template : loc)
    (keys : list string) (st : heap F * JSObject F) : outcome (heap F * JSObject F) :=
  match keys with
  | [] => Returned st
  | layerName :: keys' =>
      st' ← aggregate_layer updates template st layerName;
      aggregate_layers updates template keys' st'
  end.

(** [aggregateWeightsStreaming(modelName, updates)]: the result object and
    the heap the call leaves.  [modelName] is only logged. *)
Definition aggregateWeightsStreaming (modelName : string) (h : heap F)
    (updates : list (Update F)) : outcome (JSObject F * heap F) :=
  match updates with
  | [] => Thrown "No updates to aggregate"
  | u0 :: _ =>
      let template := weights u0 in
      st ← aggregate_layers updates template (Object_keys (h !!! template)) (h, ∅);
      Returned (st.2, st.1)
  end.

End Aggregator.

Arguments LayerAcc F : clear implicits.
Arguments acc_heap {F} _.
Arguments acc_sum {F} _.
Arguments acc_total {F} _.

End StreamingFLAggregator.

Import StreamingFLAggregator.

(** ** Node's [crypto]: HMAC-SHA256

    [crypto.createHmac('sha256', secret).update(text).digest('hex')], after
    FIPS 180-4 and RFC 2104.  A text is the string of its UTF-8 bytes; a
    32-bit word is an [N] below [2^32]. *)

Module Crypto.

Local Open Scope N_scope.
Local Open Scope list_scope.

Definition bytes_of (s : string) : list N := N_of_ascii <$> list_ascii_of_string s.

Definition w32 (x : N) : N := N.land x 0xffffffff.
Definition add32 (x y : N) : N := w32 (x + y).
Definition rotr (n x : N) : N := N.lor (N.shiftr x n) (w32 (N.shiftl x (32 - n))).
Definition not32 (x : N) : N := N.lxor x 0xffffffff.

Definition Ch (x y z : N) : N := N.lxor (N.land x y) (N.land (not32 x) z).
Definition Maj (x y z : N) : N := N.lxor (N.lxor (N.land x y) (N.land x z)) (N.land y z).
Definition Sigma0 (x : N) : N := N.lxor (N.lxor (rotr 2 x) (rotr 13 x)) (rotr 22 x).
Definition Sigma1 (x : N) : N := N.lxor (N.lxor (rotr 6 x) (rotr 11 x)) (rotr 25 x).
Definition sigma0 (x : N) : N := N.lxor (N.lxor (rotr 7 x) (rotr 18 x)) (N.shiftr x 3).
Definition sigma1 (x : N) : N := N.lxor (N.lxor (rotr 17 x) (rotr 19 x)) (N.shiftr x 10).

(** The constants of the standard: the first 32 bits of the fractional
    parts of the cube roots of the first 64 primes, and of the square roots
    of the first 8. *)
Definition first_primes : list N :=
  [2; 3; 5; 7; 11; 13; 17; 19; 23; 29; 31; 37; 41; 43; 47; 53; 59; 61; 67; 71; 73; 79;
   83; 89; 97; 101; 103; 107; 109; 113; 127; 131; 137; 139; 149; 151; 157; 163; 167; 173;
   179; 181; 191; 193; 197; 199; 211; 223; 227; 229; 233; 239; 241; 251; 257; 263; 269;
   271; 277; 281; 283; 293; 307; 311].

(** The integer cube root, bit by bit from bit 39 down. *)
Definition cube_root (n : N) : N :=
  foldl (fun r i => let r' := r + N.shiftl 1 (N.of_nat i) in
                    if r' * r' * r' <=? n then r' else r)
        0 (rev (seq 0 40)).

Definition round_constants : list N :=
  Eval vm_compute in (fun p => w32 (cube_root (N.shiftl p 96))) <$> first_primes.

Definition initial_hash : list N :=
  Eval vm_compute in (fun p => w32 (N.sqrt (N.shiftl p 64))) <$> take 8 first_primes.

(** The message with its padding: a [1] bit, zeros up to 56 modulo 64
    bytes, and the length in bits on 8 bytes. *)
Definition big_endian (width : nat) (x : N) : list N :=
  (fun i => N.land (N.shiftr x (8 * N.of_nat i)) 0xff) <$> rev (seq 0 width).

Definition pad (msg : list N) : list N :=
  let len := length msg in
  let zeros := ((55 + 64 - len mod 64) mod 64)%nat in
  msg ++ [0x80] ++ replicate zeros 0 ++ big_endian 8 (8 * N.of_nat len).

Fixpoint words (bs : list N) : list N :=
  match bs with
  | b0 :: b1 :: b2 :: b3 :: bs' =>
      (N.shiftl b0 24 + N.shiftl b1 16 + N.shiftl b2 8 + b3) :: words bs'
  | _ => []
  end.

Fixpoint blocks (fuel : nat) (ws : list N) : list (list N) :=
  match fuel, ws with
  | S fuel', _ :: _ => take 16 ws :: blocks fuel' (drop 16 ws)
  | _, _ => []
  end.

(** The message schedule, latest word first. *)
Fixpoint schedule (steps : nat) (w : list N) : list N :=
  match steps with
  | O => w
  | S steps' =>
      let wt := add32 (add32 (sigma1 (nth 1 w 0)) (nth 6 w 0))
                      (add32 (sigma0 (nth 14 w 0)) (nth 15 w 0)) in
      schedule steps' (wt :: w)
  end.

Record regs : Type := Regs { ra : N; rb : N; rc : N; rd : N; re : N; rf : N; rg : N; rh : N }.

Definition round (r : regs) (kw : N * N) : regs :=
  let t1 := add32 (add32 (add32 (rh r) (Sigma1 (re r))) (Ch (re r) (rf r) (rg r)))
                  (add32 kw.1 kw.2) in
  let t2 := add32 (Sigma0 (ra r)) (Maj (ra r) (rb r) (rc r)) in
  Regs (add32 t1 t2) (ra r) (rb r) (rc r) (add32 (rd r) t1) (re r) (rf r) (rg r).

Definition regs_of (hs : list N) : regs :=
  Regs (nth 0 hs 0) (nth 1 hs 0) (nth 2 hs 0) (nth 3 hs 0)
       (nth 4 hs 0) (nth 5 hs 0) (nth 6 hs 0) (nth 7 hs 0).

Definition list_of (r : regs) : list N :=
  [ra r; rb r; rc r; rd r; re r; rf r; rg r; rh r].

Definition compress (hs : list N) (block : list N) : list N :=
  let w := rev (schedule 48 (rev block)) in
  let r := foldl round (regs_of hs) (zip round_constants w) in
  zip_with add32 hs (list_of r).

Definition sha256 (msg : list N) : list N :=
  let ws := words (pad msg) in
  let hs := foldl compress initial_hash (blocks (length ws) ws) in
  hs ≫= big_endian 4.

Definition hmac_sha256 (key msg : list N) : list N :=
  let key' := if (64 <? length key)%nat then sha256 key else key in
  let block := key' ++ replicate (64 - length key') 0 in
  let inner := sha256 ((N.lxor 0x36 <$> block) ++ msg) in
  sha256 ((N.lxor 0x5c <$> block) ++ inner).

Definition hex_digit (n : N) : ascii :=
  ascii_of_N (if n <? 10 then 48 + n else 87 + n).

Definition hex (bs : list N) : string :=
  string_of_list_ascii (bs ≫= fun b => [hex_digit (N.shiftr b 4); hex_digit (N.land b 15)]).

(** [createHmac('sha256', secret).update(text).digest('hex')] *)
Definition createHmac_sha256_hex (secret text : string) : string :=
  hex (hmac_sha256 (bytes_of secret) (bytes_of text)).

End Crypto.

(** ** JavaScript strings and numbers

    A text is the string of its UTF-8 bytes. *)

Module JS.

(** UTF-16 code units of the character a byte starts: none for a
    continuation byte, two for the lead byte of a four-byte sequence. *)
Definition utf16_units (c : ascii) : nat :=
  let n := N_of_ascii c in
  if (n <? 128)%N then 1
  else if (n <? 192)%N then 0
  else if (n <? 240)%N then 1
  else 2.

(** [s.length] *)
Fixpoint length (s : string) : nat :=
  match s with
  | EmptyString => 0
  | String c s' => utf16_units c + length s'
  end.

(** [s.replace(pattern, replacement)] for a string pattern: the first
    occurrence only. *)
Fixpoint replace (pattern replacement s : string) : string :=
  if String.prefix pattern s then
    replacement ++ string_of_list_ascii (drop (String.length pattern) (list_ascii_of_string s))
  else
    match s with
    | EmptyString => EmptyString
    | String c s' => String c (replace pattern replacement s')
    end.

(** An integer number in a template literal: [`${n}`]. *)
Definition of_Z (z : Z) : string := NilZero.string_of_int (Z.to_int z).

(** The number an integer reading of the clock is ([Date.now()] is a
    non-negative integer below [2^53]). *)
Definition number_of_Z (z : Z) : float := PrimFloat.of_uint63 (Uint63.of_Z z).

(** [JSON.parse(JSON.stringify(x))] of a number: a number that is not
    finite is written [null], and the sign of zero is not written. *)
Definition JSON_number (x : float) : option float :=
  if PrimFloat.is_finite x then Some (if PrimFloat.is_zero x then 0%float else x)
  else None.

(** A [null] read as a number: [0]. *)
Definition Number (x : option float) : float := default 0%float x.

End JS.

(** ** SecurityUtils *)

Module SecurityUtils.

Definition hex_value (c : ascii) : option N :=
  let n := N_of_ascii c in
  if (48 <=? n)%N && (n <=? 57)%N then Some (n - 48)%N
  else if (97 <=? n)%N && (n <=? 102)%N then Some (n - 87)%N
  else if (65 <=? n)%N && (n <=? 70)%N then Some (n - 55)%N
  else None.

(** [Buffer.from(s, 'hex')]: the bytes of the leading pairs of hexadecimal
    digits; decoding stops at the first pair that is not one. *)
Fixpoint Buffer_from_hex (s : string) : list N :=
  match s with
  | String a (String b rest) =>
      match hex_value a, hex_value b with
      | Some x, Some y => (16 * x + y)%N :: Buffer_from_hex rest
      | _, _ => []
      end
  | _ => []
  end.

(** [validateHMAC(raw, signature, secret)] *)
Definition validateHMAC (raw signature secret : string) : bool :=
  let expected := Crypto.createHmac_sha256_hex secret raw in
  let a := Buffer_from_hex signature in
  let b := Buffer_from_hex expected in
  Nat.eqb (List.length a) (List.length b) && bool_decide (a = b).

(** [isRecentTimestamp(ts, windowMs = 300000)], with [now] the reading of
    [Date.now()]. *)
Definition isRecentTimestamp (now : Z) (ts : float) : bool :=
  PrimFloat.leb (PrimFloat.abs (PrimFloat.sub (JS.number_of_Z now) ts)) 300000%float.

End SecurityUtils.

(** ** The documents of the key space *)

(** The body of an upload once the schema accepted it. *)
Record WeightUpdate : Type := {
  wu_siteId : string;
  wu_modelName : string;
  wu_weights : gmap string (list float);
  wu_dataSampleCount : float;
  wu_dataQuality : float;
  wu_timestamp : float;
  wu_nonce : string
}.

(** A ledger entry as [JSON.parse] returns it from the store:
    [{...body, receivedAt, uploadedBy}] after one round trip through JSON. *)
Record LedgerDoc : Type := {
  doc_siteId : string;
  doc_modelName : string;
  doc_weights : gmap string (list float);
  doc_dataSampleCount : option float;
  doc_dataQuality : float;
  doc_timestamp : option float;
  doc_nonce : string;
  doc_receivedAt : string;
  doc_uploadedBy : string
}.

Record Metadata : Type := {
  participantCount : nat;
  aggregationTimeMs : Z;
  participants : list string
}.

(** The record of a model version, as stored. *)
Record ModelPayload : Type := {
  mp_modelName : string;
  mp_weights : gmap string (list (option float));
  mp_metadata : Metadata;
  mp_createdAt : string;
  mp_participantCount : nat;
  mp_aggregationTimeMs : Z;
  mp_version : string
}.

(** ** The Redis key space

    A value is a plain string, a list, a set, or a JSON text; a JSON text
    is held as the document it encodes.  Every command takes the time of the
    store's clock, in milliseconds. *)

Module Redis.

Inductive Value : Type :=
| VString (s : string)
| VUpdate (d : LedgerDoc)
| VModel (p : ModelPayload)
| VList (l : list string)
| VSet (s : gset string).

Record Entry : Type := { value : Value; expires : option Z }.

Abbreviation Store := (gmap string Entry).

Definition live (t : Z) (e : Entry) : bool :=
  match expires e with
  | None => true
  | Some x => (t <? x)%Z
  end.

Definition lookup_live (t : Z) (key : string) (st : Store) : option Entry :=
  match st !! key with
  | Some e => if live t e then Some e else None
  | None => None
  end.

(** [GET key] *)
Definition get (t : Z) (key : string) (st : Store) : option Value :=
  value <$> lookup_live t key st.

(** [SET key v PX ttl NX]: the reply and the store. *)
Definition set_px_nx (t : Z) (key : string) (v : Value) (ttl : Z) (st : Store) : bool * Store :=
  match lookup_live t key st with
  | Some _ => (false, st)
  | None => (true, <[key := {| value := v; expires := Some (t + ttl)%Z |}]> st)
  end.

(** [SETEX key seconds v] *)
Definition setex (t : Z) (key : string) (seconds : Z) (v : Value) (st : Store) : Store :=
  <[key := {| value := v; expires := Some (t + seconds * 1000)%Z |}]> st.

(** [SET key v] *)
Definition set (key : string) (v : Value) (st : Store) : Store :=
  <[key := {| value := v; expires := None |}]> st.

(** [DEL key] *)
Definition del (key : string) (st : Store) : Store := delete key st.

(** [RENAME src dst]: the entry moves with its expiry and replaces what
    [dst] held; an error, and no change, when [src] does not exist. *)
Definition rename (t : Z) (src dst : string) (st : Store) : Store :=
  match lookup_live t src st with
  | Some e => <[dst := e]> (delete src st)
  | None => st
  end.

(** [LPUSH key x]: an error, and no change, when [key] holds another type. *)
Definition lpush (t : Z) (key x : string) (st : Store) : Store :=
  match lookup_live t key st with
  | None => <[key := {| value := VList [x]; expires := None |}]> st
  | Some e =>
      match value e with
      | VList l => <[key := {| value := VList (x :: l); expires := expires e |}]> st
      | _ => st
      end
  end.

(** [LTRIM key 0 stop] *)
Definition ltrim_head (t : Z) (key : string) (stop : nat) (st : Store) : Store :=
  match lookup_live t key st with
  | Some e =>
      match value e with
      | VList l => <[key := {| value := VList (take (S stop) l); expires := expires e |}]> st
      | _ => st
      end
  | None => st
  end.

(** [LRANGE key 0 -1] *)
Definition lrange_all (t : Z) (key : string) (st : Store) : list string :=
  match get t key st with
  | Some (VList l) => l
  | _ => []
  end.

(** [SADD key x] *)
Definition sadd (t : Z) (key x : string) (st : Store) : Store :=
  match lookup_live t key st with
  | None => <[key := {| value := VSet {[x]}; expires := None |}]> st
  | Some e =>
      match value e with
      | VSet s => <[key := {| value := VSet ({[x]} ∪ s); expires := expires e |}]> st
      | _ => st
      end
  end.

(** The literal prefix of a pattern that ends in [*]. *)
Fixpoint strip_star (pattern : string) : option string :=
  match pattern with
  | EmptyString => None
  | String c EmptyString => if Ascii.eqb c "*" then Some EmptyString else None
  | String c rest => String c <$> strip_star rest
  end.

(** The characters a glob pattern reads specially: [*], [?], [[] and the
    backslash. *)
Definition glob_special (c : ascii) : bool :=
  let n := N_of_ascii c in
  (n =? 42)%N || (n =? 63)%N || (n =? 91)%N || (n =? 92)%N.

(** A text that a glob pattern reads letter by letter. *)
Fixpoint plain (s : string) : bool :=
  match s with
  | EmptyString => true
  | String c rest => negb (glob_special c) && plain rest
  end.

(** [MATCH pattern], for a pattern that is [plain] up to a final [*]: the
    key starts with the letters before the [*].  The server builds its
    pattern around the model name, so this is the match of the store for
    the model names that are [plain], and only for them. *)
Definition matches (pattern key : string) : bool :=
  match strip_star pattern with
  | Some literal => String.prefix literal key
  | None => String.eqb pattern key
  end.

(** [SCAN ... MATCH pattern], to the end of the cursor: every live key of
    the pattern, each once (a scan of a table that is not resized on the
    way). *)
Definition scan (t : Z) (pattern : string) (st : Store) : list string :=
  (filter (fun kv => matches pattern kv.1 = true ∧ live t kv.2 = true) (map_to_list st)).*1.

(** [SCARD key]: the size of the set, [0] for no key; an error when the key
    holds another type. *)
Definition scard (t : Z) (key : string) (st : Store) : outcome nat :=
  match get t key st with
  | None => Returned 0%nat
  | Some (VSet s) => Returned (size s)
  | Some _ => Thrown "WRONGTYPE Operation against a key holding the wrong kind of value"
  end.

End Redis.

Import Redis.

(** ** DatabaseService *)

Module DatabaseService.

Inductive Status : Type := pending | processing.

Definition status_name (s : Status) : string :=
  match s with
  | pending => "pending"
  | processing => "processing"
  end.

(** [`fl:{${modelName}}:${status}:${modelName}:*`] *)
Definition updates_pattern (modelName : string) (s : Status) : string :=
  "fl:{" ++ modelName ++ "}:" ++ status_name s ++ ":" ++ modelName ++ ":*".

Definition scanKeys (t : Z) (pattern : string) (st : Store) : list string :=
  Redis.scan t pattern st.

Definition countPendingForModel (t : Z) (modelName : string) (st : Store) : nat :=
  List.length (scanKeys t (updates_pattern modelName pending) st).

(** [getFLUpdates(modelName, status)]: the keys of the pattern with their
    documents; a key whose [GET] gives nothing, or the error of a list or a
    set, is left out.  This is the call for the stores in which no key of
    the pattern holds another text ([holds_documents] below): the code
    parses whatever text it finds and returns the value, a number or a
    model record as it may be, and throws on a text that is not JSON. *)
Definition getFLUpdates (t : Z) (modelName : string) (s : Status) (st : Store) :
    list (string * LedgerDoc) :=
  omap (fun key =>
          match Redis.get t key st with
          | Some (VUpdate d) => Some (key, d)
          | _ => None
          end)
       (scanKeys t (updates_pattern modelName s) st).

(** A pipeline of [RENAME key key.replace(from, to)], one per entry. *)
Definition rename_all (t : Z) (from to : string) (entries : list (string * LedgerDoc))
    (st : Store) : Store :=
  foldl (fun st' e => Redis.rename t e.1 (JS.replace from to e.1) st') st entries.

(** [markPendingToProcessing(modelName)]: the keys it reports and the store. *)
Definition markPendingToProcessing (t : Z) (modelName : string) (st : Store) :
    list string * Store :=
  let pending_entries := getFLUpdates t modelName pending st in
  ((fun e => JS.replace ":pending:" ":processing:" e.1) <$> pending_entries,
   rename_all t ":pending:" ":processing:" pending_entries st).

(** The script [withLock] evaluates to release its lock:
<<
  if redis.call("get", KEYS[1]) == ARGV[1] then
    return redis.call("del", KEYS[1])
  else
    return 0
  end
>>
    [GET] of a list or of a set is an error, which the script raises; a JSON
    text is not a token. *)
Definition release_script (t : Z) (lockKey token : string) (st : Store) :
    outcome unit * Store :=
  match Redis.get t lockKey st with
  | Some (VString s) => (Returned (), if String.eqb s token then Redis.del lockKey st else st)
  | Some (VList _) | Some (VSet _) =>
      (Thrown "WRONGTYPE Operation against a key holding the wrong kind of value", st)
  | Some (VUpdate _) | Some (VModel _) | None => (Returned (), st)
  end.

(** [withLock(lockKey, ttlMs, fn)], with [token] the value of
    [crypto.randomUUID()], [t_set] and [t_eval] the store's clock at the
    [SET] and at the [EVAL], and [fn] the effect of the callback on the
    store, with its outcome.
<<
  const ok = await this.redisClient.set(lockKey, token, 'PX', ttlMs, 'NX');
  if (!ok) return false;
  try { await fn(); return true; }
  finally { await this.redisClient.eval(lua, 1, lockKey, token); }
>>
    [SET ... PX ttlMs] with a [ttlMs] that is not positive is an error. *)
Definition withLock (token : string) (t_set t_eval : Z) (lockKey : string) (ttlMs : Z)
    (fn : Store -> outcome unit * Store) (st : Store) : outcome bool * Store :=
  if (ttlMs <=? 0)%Z then (Thrown "ERR invalid expire time in 'set' command", st)
  else
    match Redis.set_px_nx t_set lockKey (VString token) ttlMs st with
    | (false, _) => (Returned false, st)
    | (true, st1) =>
        let ran := fn st1 in
        let released := release_script t_eval lockKey token ran.2 in
        (match released.1 with
         | Thrown msg => Thrown msg
         | Returned _ => _ ← ran.1; Returned true
         end,
         released.2)
    end.

End DatabaseService.

(** ** ModelVersioningService *)

Module ModelVersioningService.

Definition latest_key (modelName : string) : string := "fl:models:" ++ modelName ++ ":latest".
Definition history_key (modelName : string) : string := "fl:models:" ++ modelName ++ ":history".
Definition version_key (modelName version : string) : string :=
  "fl:models:" ++ modelName ++ ":" ++ version.

(** [`v${Date.now()}`] *)
Definition version_of (now : Z) : string := "v" ++ JS.of_Z now.

Definition with_version (modelData : ModelPayload) (version : string) : ModelPayload :=
  {| mp_modelName := mp_modelName modelData;
     mp_weights := mp_weights modelData;
     mp_metadata := mp_metadata modelData;
     mp_createdAt := mp_createdAt modelData;
     mp_participantCount := mp_participantCount modelData;
     mp_aggregationTimeMs := mp_aggregationTimeMs modelData;
     mp_version := version |}.

(** [saveModelVersion(modelName, modelData)], with [now] the reading of
    [Date.now()] and [t] the store's clock: the version it returns and the
    store.
<<
  pipe.sadd('fl:models:set', modelName);
  pipe.set(`fl:models:${modelName}:latest`, JSON.stringify({ ...modelData, version }));
  pipe.lpush(`fl:models:${modelName}:history`, version);
  pipe.ltrim(`fl:models:${modelName}:history`, 0, 9);
>> *)
Definition saveModelVersion (now t : Z) (modelName : string) (modelData : ModelPayload)
    (st : Store) : string * Store :=
  let version := version_of now in
  let st1 := Redis.sadd t "fl:models:set" modelName st in
  let st2 := Redis.set (latest_key modelName) (VModel (with_version modelData version)) st1 in
  let st3 := Redis.lpush t (history_key modelName) version st2 in
  let st4 := Redis.ltrim_head t (history_key modelName) 9 st3 in
  (version, st4).

Definition getModelHistory (t : Z) (modelName : string) (st : Store) : list string :=
  Redis.lrange_all t (history_key modelName) st.

(** [getModelVersion(modelName, version?)]: [None] is [null].  An empty
    [version] is no version. *)
Definition getModelVersion (t : Z) (modelName : string) (version : option string)
    (st : Store) : option ModelPayload :=
  let key := match version with
             | Some v => if String.eqb v "" then latest_key modelName else version_key modelName v
             | None => latest_key modelName
             end in
  match Redis.get t key st with
  | Some (VModel p) => Some p
  | _ => None
  end.

End ModelVersioningService.

(** ** MetricsService *)

Module MetricsService.

(** The [federatedLearning] part of [getSystemMetrics()], without
    [aggregationThreshold]; the other parts report the process.
<<
  const activeModels = await this.db.client.scard('fl:models:set');
  federatedLearning: {
    activeModels: Number(activeModels),
    totalPendingUpdates: 0, // simplified here
    minParticipants: config.FL_MIN_PARTICIPANTS,
  }
>> *)
Record FLMetrics : Type := {
  activeModels : nat;
  totalPendingUpdates : nat;
  minParticipants : nat
}.

Definition getSystemMetrics (min_participants : nat) (t : Z) (st : Store) : outcome FLMetrics :=
  n ← Redis.scard t "fl:models:set" st;
  Returned {| activeModels := n; totalPendingUpdates := 0; minParticipants := min_participants |}.

End MetricsService.

(** ** AuthService *)

(** [config.NODE_ENV] *)
Inductive NodeEnv : Type := development | staging | production.

Definition is_production (env : NodeEnv) : bool :=
  match env with
  | production => true
  | _ => false
  end.

(** A string used as a condition: [undefined] and the empty string are
    falsy. *)
Definition truthy (s : option string) : bool :=
  match s with
  | Some s => negb (String.eqb s "")
  | None => false
  end.

Module AuthService.

(** What a property of the user holds where the group names are looked for:
    nothing ([undefined] or [null]), a value that is not an array, or an
    array, taken to hold strings. *)
Inductive GroupsField : Type :=
| Nullish
| NotAnArray
| GroupList (names : list string).

(** [{ sub, groups, 'cognito:groups' }] *)
Record AuthUser : Type := {
  au_sub : string;
  au_groups : GroupsField;
  au_cognito_groups : GroupsField
}.

(** [authenticateUser(authHeader?, devUser?)]
<<
  if (config.NODE_ENV !== 'production' && devUser) return { sub: devUser, groups: ['admin'] };
  if (!authHeader?.startsWith('Bearer ')) throw new Error('Missing or invalid authorization header');
  return { sub: 'user', groups: ['viewer'] };
>> *)
Definition authenticateUser (env : NodeEnv) (authHeader devUser : option string) :
    outcome AuthUser :=
  if negb (is_production env) && truthy devUser then
    Returned {| au_sub := default "" devUser;
                au_groups := GroupList ["admin"];
                au_cognito_groups := Nullish |}
  else
    match authHeader with
    | Some header =>
        if String.prefix "Bearer " header then
          Returned {| au_sub := "user";
                      au_groups := GroupList ["viewer"];
                      au_cognito_groups := Nullish |}
        else Thrown "Missing or invalid authorization header"
    | None => Thrown "Missing or invalid authorization header"
    end.

(** The table of [hasPermission]:
<<
  operator: ['fl:participate', 'fl:view', 'model:download'],
  viewer: ['fl:view', 'model:download'],
  maintenance: ['fl:view'],
>> *)
Definition perms : list (string * list string) :=
  [("operator", ["fl:participate"; "fl:view"; "model:download"]);
   ("viewer", ["fl:view"; "model:download"]);
   ("maintenance", ["fl:view"])].

(** The names every object inherits from [Object.prototype]: [perms[g]]
    finds a value under them, and none of these values has [includes]. *)
Definition prototype_names : list string :=
  ["constructor"; "__defineGetter__"; "__defineSetter__"; "hasOwnProperty";
   "__lookupGetter__"; "__lookupSetter__"; "isPrototypeOf"; "propertyIsEnumerable";
   "toString"; "valueOf"; "__proto__"; "toLocaleString"].

(** [perms[g]?.includes(required) ?? false] *)
Definition grants (required g : string) : outcome bool :=
  match list_to_map (M := gmap string (list string)) perms !! g with
  | Some allowed => Returned (bool_decide (required ∈ allowed))
  | None =>
      if bool_decide (g ∈ prototype_names)
      then Thrown "perms[g]?.includes is not a function"
      else Returned false
  end.

(** [groups.some((g) => ...)]: the groups in turn, up to the first that
    grants. *)
Fixpoint some_grants (required : string) (groups : list string) : outcome bool :=
  match groups with
  | [] => Returned false
  | g :: groups' =>
      granted ← grants required g;
      if granted : bool then Returned true else some_grants required groups'
  end.

(** [hasPermission(user, required)]
<<
  const cand = user['cognito:groups'] ?? user['groups'];
  const groups = Array.isArray(cand) ? cand : [];
  if (groups.includes('admin') || groups.includes('super_admin')) return true;
  return groups.some((g) => (perms[g]?.includes(required) ?? false));
>> *)
Definition groups_of (user : AuthUser) : list string :=
  let cand := match au_cognito_groups user with
              | Nullish => au_groups user
              | field => field
              end in
  match cand with
  | GroupList names => names
  | _ => []
  end.

Definition hasPermission (user : AuthUser) (required : string) : outcome bool :=
  let groups := groups_of user in
  if bool_decide ("admin" ∈ groups) || bool_decide ("super_admin" ∈ groups) then Returned true
  else some_grants required groups.

End AuthService.


(** ** The server *)

(** The settings the routes read.  [FL_MIN_PARTICIPANTS] is compared with a
    count only, in [updates.length < Number(config.FL_MIN_PARTICIPANTS)]:
    whatever number the setting is, the comparison is that with a natural
    number (the setting rounded up, or 0 when it is negative or not a
    number). *)
Record Config : Type := {
  DEVICE_HMAC_SECRET : string;
  FL_MIN_PARTICIPANTS : nat
}.

(** The caller the [preHandler] hook attached to the request. *)
Record User : Type := { sub : option string }.

(** The JSON body of an upload, field by field, before the schema. *)
Record RequestBody : Type := {
  rb_siteId : string;
  rb_modelName : string;
  rb_weights : gmap string (list float);
  rb_dataSampleCount : float;
  rb_dataQuality : option float;
  rb_timestamp : float;
  rb_nonce : string
}.

(** A request to [POST /api/v1/fl/weights] as a handler reads it: the
    caller, the raw body as text ([request.rawBody], taken to be well-formed
    UTF-8, which [toString('utf8')] leaves as it is), the parsed body
    ([request.body], [None] when it does not have the fields of an upload)
    with its re-serialised form ([JSON.stringify(request.body ?? {})]), and
    the [x-signature] header. *)
Record Request : Type := {
  req_user : option User;
  req_rawBody : option string;
  req_body : option RequestBody;
  req_canonical : string;
  req_signature : option string
}.


(** The readings of the clocks during one upload. *)
Record Clock : Type := {
  now_fresh : Z;
  now_receipt : Z;
  iso_receipt : string;
  store_now : Z
}.

Inductive Reply : Type :=
| Unauthorized
| MissingRawBody
| PayloadTooLarge
| MissingSignature
| InvalidSignature
| BadRequest
| StaleTimestamp
| ReplayDetected
| Uploaded (key siteId modelName : string) (sizeBytes : nat) (receivedAt : string).

Definition status_code (r : Reply) : nat :=
  match r with
  | Unauthorized => 401
  | MissingRawBody => 400
  | PayloadTooLarge => 413
  | MissingSignature => 403
  | InvalidSignature => 403
  | BadRequest => 400
  | StaleTimestamp => 400
  | ReplayDetected => 409
  | Uploaded _ _ _ _ _ => 200
  end.

Module Schema.

Definition is_word_char (c : ascii) : bool :=
  let n := N_of_ascii c in
  ((48 <=? n) && (n <=? 57) || (65 <=? n) && (n <=? 90) || (97 <=? n) && (n <=? 122)
   || (n =? 95) || (n =? 45))%N.

(** [z.string().min(1).max(50).regex(/^[a-zA-Z0-9_-]+$/)] *)
Definition siteId_ok (s : string) : bool :=
  (1 <=? JS.length s)%nat && (JS.length s <=? 50)%nat
  && forallb is_word_char (list_ascii_of_string s)
  && negb (String.eqb s "").

(** [z.string().min(1).max(100)] *)
Definition modelName_ok (s : string) : bool :=
  (1 <=? JS.length s)%nat && (JS.length s <=? 100)%nat.

Definition is_hex (c : ascii) : bool :=
  match SecurityUtils.hex_value c with Some _ => true | None => false end.

(** [z.string().uuid()]: five groups of 8, 4, 4, 4 and 12 hexadecimal
    digits, with hyphens between them. *)
Definition is_uuid (s : string) : bool :=
  let cs := list_ascii_of_string s in
  Nat.eqb (List.length cs) 36
  && forallb (fun ic : nat * ascii =>
                if bool_decide (ic.1 ∈ [8; 13; 18; 23]) then Ascii.eqb ic.2 "-"%char
                else is_hex ic.2)
             (imap (fun i c => (i, c)) cs).

Definition weights_ok (w : gmap string (list float)) : bool :=
  forallb (fun kv : string * list float => forallb PrimFloat.is_finite kv.2) (map_to_list w).

(** The schema of an upload:
<<
  siteId: z.string().min(1).max(50).regex(/^[a-zA-Z0-9_-]+$/),
  modelName: z.string().min(1).max(100),
  weights: z.record(z.string(), z.array(z.number().finite())),
  dataSampleCount: z.number().positive(),
  dataQuality: z.number().min(0).max(1).default(1.0),
  timestamp: z.coerce.number().positive(),
  nonce: z.string().uuid(),
>>
    [None] when [parse] throws. *)
Definition parse (b : RequestBody) : option WeightUpdate :=
  let quality := default 1%float (rb_dataQuality b) in
  if siteId_ok (rb_siteId b)
     && modelName_ok (rb_modelName b)
     && weights_ok (rb_weights b)
     && PrimFloat.ltb 0 (rb_dataSampleCount b)
     && PrimFloat.leb 0 quality && PrimFloat.leb quality 1
     && PrimFloat.ltb 0 (rb_timestamp b)
     && is_uuid (rb_nonce b)
  then Some {| wu_siteId := rb_siteId b;
               wu_modelName := rb_modelName b;
               wu_weights := rb_weights b;
               wu_dataSampleCount := rb_dataSampleCount b;
               wu_dataQuality := quality;
               wu_timestamp := rb_timestamp b;
               wu_nonce := rb_nonce b |}
  else None.

End Schema.

(** [`fl:{${modelName}}:nonce:${siteId}:${nonce}`] *)
Definition nonce_key (modelName siteId nonce : string) : string :=
  "fl:{" ++ modelName ++ "}:nonce:" ++ siteId ++ ":" ++ nonce.

(** [`fl:{${modelName}}:pending:${modelName}:${siteId}:${ts}`] *)
Definition update_key (modelName siteId : string) (ts : Z) : string :=
  "fl:{" ++ modelName ++ "}:pending:" ++ modelName ++ ":" ++ siteId ++ ":" ++ JS.of_Z ts.

(** The layers of an accepted body after their round trip through JSON
    (their numbers are finite). *)
Definition JSON_layers (w : gmap string (list float)) : gmap string (list float) :=
  (fun v : list float => (fun x : float => JS.Number (JS.JSON_number x)) <$> v) <$> w.

(** [JSON.stringify({ ...body, receivedAt, uploadedBy })], as the store
    gives it back. *)
Definition ledger_doc (body : WeightUpdate) (receivedAt uploadedBy : string) : LedgerDoc :=
  {| doc_siteId := wu_siteId body;
     doc_modelName := wu_modelName body;
     doc_weights := JSON_layers (wu_weights body);
     doc_dataSampleCount := JS.JSON_number (wu_dataSampleCount body);
     doc_dataQuality := JS.Number (JS.JSON_number (wu_dataQuality body));
     doc_timestamp := JS.JSON_number (wu_timestamp body);
     doc_nonce := wu_nonce body;
     doc_receivedAt := receivedAt;
     doc_uploadedBy := uploadedBy |}.

(** The tail both generations of the upload route share: freshness, the
    nonce reservation, the pending entry, the receipt.
<<
  if (!SecurityUtils.isRecentTimestamp(Number(body.timestamp))) return 400
  const nonceKey = `fl:{${body.modelName}}:nonce:${body.siteId}:${body.nonce}`;
  const ok = await this.db.client.set(nonceKey, '1', 'PX', 5 * 60_000, 'NX');
  if (!ok) return reply.code(409).send({ error: 'replay detected' });
  const ts = Date.now();
  const updateKey = `fl:{${body.modelName}}:pending:${body.modelName}:${body.siteId}:${ts}`;
  const doc = { ...body, receivedAt: new Date().toISOString(), uploadedBy: user.sub ?? 'dev' };
  await this.db.client.setex(updateKey, 3600, JSON.stringify(doc));
>> *)
Definition enqueue (clk : Clock) (user : User) (body : WeightUpdate) (sizeBytes : nat)
    (st : Store) : Reply * Store :=
  if negb (SecurityUtils.isRecentTimestamp (now_fresh clk) (wu_timestamp body)) then
    (StaleTimestamp, st)
  else
    let nonceKey := nonce_key (wu_modelName body) (wu_siteId body) (wu_nonce body) in
    match Redis.set_px_nx (store_now clk) nonceKey (VString "1") (5 * 60000) st with
    | (false, _) => (ReplayDetected, st)
    | (true, st1) =>
        let ts := now_receipt clk in
        let updateKey := update_key (wu_modelName body) (wu_siteId body) ts in
        let doc := ledger_doc body (iso_receipt clk) (default "dev" (sub user)) in
        (Uploaded updateKey (wu_siteId body) (wu_modelName body) sizeBytes (iso_receipt clk),
         Redis.setex (store_now clk) updateKey 3600 (VUpdate doc) st1)
    end.

(** [schema.parse(...)] inside the route's [try]: a schema error is the
    reply [400]. *)
Definition parse_then_enqueue (clk : Clock) (user : User) (body : option RequestBody)
    (sizeBytes : nat) (st : Store) : Reply * Store :=
  match body ≫= Schema.parse with
  | None => (BadRequest, st)
  | Some b => enqueue clk user b sizeBytes st
  end.

(** *** [StreamingFLAggregator.performAggregation] *)

(** The documents of a round are fresh objects, one per ledger entry
    ([JSON.parse] of its text): the [weights] of the [i]-th document is
    object [i]. *)
Definition documents_heap (docs : list LedgerDoc) : heap float :=
  list_to_map (imap (fun i d => (i, doc_weights d)) docs).

(** [u.dataQuality || 1.0] *)
Definition quality_or_one (q : float) : float :=
  if PrimFloat.is_zero q || PrimFloat.is_nan q then 1%float else q.

(** [pendingUpdates.map(u => ({ siteId, weights, weight }))]; the strategy
    is left to its default, [data_size]. *)
Definition weighted_updates (docs : list LedgerDoc) : list (Update float) :=
  imap (fun i d =>
          {| siteId := doc_siteId d;
             weights := i;
             weight := calculateClientWeight (JS.Number (doc_dataSampleCount d))
                         (quality_or_one (doc_dataQuality d)) data_size |})
       docs.

Record AggregationResult : Type := {
  ar_weights : gmap string (list float);
  ar_metadata : Metadata
}.

(** [performAggregation(modelName, pendingUpdates)], with the readings of
    [Date.now()] before and after. *)
Definition performAggregation (start finish : Z) (modelName : string)
    (docs : list LedgerDoc) : outcome AggregationResult :=
  r ← aggregateWeightsStreaming modelName (documents_heap docs) (weighted_updates docs);
  Returned {| ar_weights := r.1;
              ar_metadata := {| participantCount := List.length docs;
                                aggregationTimeMs := finish - start;
                                participants := doc_siteId <$> docs |} |}.

(** *** The server that aggregates (the later [src/server.ts]) *)

Module RitaServer.

Import DatabaseService ModelVersioningService.

(** The readings of the clocks during one round. *)
Record RoundClock : Type := {
  round_start : Z;
  round_finish : Z;
  round_version : Z;
  round_iso : string;
  round_store : Z
}.

Inductive RoundReply : Type :=
| NotEnoughParticipants (participants : nat) (moved : list string)
| Aggregated (version : string) (participants : nat).

(** [{ aggregated: ... }] of a reply. *)
Definition aggregated (r : RoundReply) : bool :=
  match r with
  | NotEnoughParticipants _ _ => false
  | Aggregated _ _ => true
  end.

(** The [payload] of a round as [JSON.stringify] writes it: the numbers as
    JSON has them, and the properties of [weights] without [__proto__],
    which the aggregator's result never has as a property. *)
Definition model_payload (modelName : string) (result : AggregationResult)
    (createdAt version : string) : ModelPayload :=
  {| mp_modelName := modelName;
     mp_weights := (fun v : list float => JS.JSON_number <$> v)
                     <$> delete "__proto__" (ar_weights result);
     mp_metadata := ar_metadata result;
     mp_createdAt := createdAt;
     mp_participantCount := participantCount (ar_metadata result);
     mp_aggregationTimeMs := aggregationTimeMs (ar_metadata result);
     mp_version := version |}.

(** [aggregateNow(modelName)]:
<<
  const moved = await this.db.markPendingToProcessing(modelName);
  const updates = await this.db.getFLUpdates(modelName, 'processing');
  if (updates.length < Number(config.FL_MIN_PARTICIPANTS)) {
    for (const { key } of updates) pipe.rename(key, key.replace(':processing:', ':pending:'));
    return { aggregated: false, reason: 'not_enough_participants', participants, moved };
  }
  const result = await this.flAggregator.performAggregation(modelName, updates.map((u) => u.data));
  const version = `v${Date.now()}`;
  pipe.setex(`fl:models:${modelName}:${version}`, 7 * 24 * 3600, JSON.stringify(payload));
  pipe.setex(`fl:models:${modelName}:latest`, 24 * 3600, JSON.stringify(payload));
  pipe.lpush(`fl:models:${modelName}:history`, version);
  pipe.ltrim(`fl:models:${modelName}:history`, 0, 9);
  for (const { key } of updates) pipe.del(key);
  return { aggregated: true, version, participants: updates.length };
>> *)
Definition aggregateNow (cfg : Config) (clk : RoundClock) (modelName : string) (st : Store) :
    outcome (RoundReply * Store) :=
  let t := round_store clk in
  let moved := markPendingToProcessing t modelName st in
  let updates := getFLUpdates t modelName processing moved.2 in
  if (List.length updates <? FL_MIN_PARTICIPANTS cfg)%nat then
    Returned (NotEnoughParticipants (List.length updates) moved.1,
              rename_all t ":processing:" ":pending:" updates moved.2)
  else
    result ← performAggregation (round_start clk) (round_finish clk) modelName (updates.*2);
    let version := version_of (round_version clk) in
    let payload := model_payload modelName result (round_iso clk) version in
    let st1 := Redis.setex t (version_key modelName version) (7 * 24 * 3600) (VModel payload)
                 moved.2 in
    let st2 := Redis.setex t (latest_key modelName) (24 * 3600) (VModel payload) st1 in
    let st3 := Redis.lpush t (history_key modelName) version st2 in
    let st4 := Redis.ltrim_head t (history_key modelName) 9 st3 in
    let st5 := foldl (fun st' e => Redis.del e.1 st') st4 updates in
    Returned (Aggregated version (List.length updates), st5).

(** [GET /api/v1/fl/model/:modelName?version=]: the record and the history,
    or [None] for the reply [404]. *)
Definition get_model (t : Z) (modelName : string) (version : option string) (st : Store) :
    option (ModelPayload * list string) :=
  p ← getModelVersion t modelName version st;
  Some (p, Redis.lrange_all t (history_key modelName) st).

(** The texts a signature is tried against:
<<
  const toVerify: string[] = [];
  if (rawStr) toVerify.push(rawStr);
  toVerify.push(canonical);
>> *)
Definition toVerify (req : Request) : list string :=
  (match req_rawBody req with
   | Some rawStr => if String.eqb rawStr "" then [] else [rawStr]
   | None => []
   end ++ [req_canonical req])%list.

(** [POST /api/v1/fl/weights] *)
Definition post_weights (cfg : Config) (clk : Clock) (req : Request) (st : Store) :
    Reply * Store :=
  match req_user req with
  | None => (Unauthorized, st)
  | Some user =>
      let canonical := req_canonical req in
      let rawStr := req_rawBody req in
      if (2 * 1024 * 1024 <? JS.length (default canonical rawStr))%nat then (PayloadTooLarge, st)
      else
        match req_signature req with
        | None => (MissingSignature, st)
        | Some signature =>
            if String.eqb signature "" then (MissingSignature, st)
            else if negb (existsb (fun s => SecurityUtils.validateHMAC s signature
                                              (DEVICE_HMAC_SECRET cfg))
                                  (toVerify req))
            then (InvalidSignature, st)
            else parse_then_enqueue clk user (req_body req)
                   (String.length (default canonical rawStr)) st
        end
  end.

End RitaServer.

(** *** The first server (the earlier [src/server.ts]) *)

Module RitaServerV1.

(** [POST /api/v1/fl/weights]: the signature is checked over the raw body
    and nothing else; a request without one is answered [400].  (The plugin
    is registered with its default encoding: a raw body would be the text
    itself, an empty one falsy, and [raw.length] its UTF-16 code units.) *)
Definition post_weights (cfg : Config) (clk : Clock) (req : Request) (st : Store) :
    Reply * Store :=
  match req_user req with
  | None => (Unauthorized, st)
  | Some user =>
      match req_rawBody req with
      | None => (MissingRawBody, st)
      | Some rawStr =>
          if String.eqb rawStr "" then (MissingRawBody, st)
          else if (2 * 1024 * 1024 <? JS.length rawStr)%nat then (PayloadTooLarge, st)
          else
            match req_signature req with
            | None => (MissingSignature, st)
            | Some signature =>
                if String.eqb signature "" then (MissingSignature, st)
                else if negb (SecurityUtils.validateHMAC rawStr signature
                                (DEVICE_HMAC_SECRET cfg))
                then (InvalidSignature, st)
                else parse_then_enqueue clk user (req_body req) (JS.length rawStr) st
            end
      end
  end.

End RitaServerV1.

(** *** The hooks in front of the routes *)

Module Hooks.

Import AuthService.

(** What a hook leaves of a request: nothing to check, a user attached, or
    the reply [401]. *)
Inductive Admission : Type :=
| PublicPath
| Attached (user : AuthUser)
| Rejected (message : string).

(** The [preHandler] of the later server:
<<
  const publicPaths = ['/health', '/ready', '/api/v1/metrics', '/api/v1/fl/model/'];
  if (publicPaths.some((p) => request.url.startsWith(p))) return;
  const devUser = request.headers['x-dev-user'];
  if (devUser && config.NODE_ENV !== 'production') {
    request.user = { sub: devUser, 'cognito:groups': ['admin'] };
    return;
  }
  try { request.user = await AuthService.authenticateUser(request.headers.authorization); }
  catch (err) { return reply.code(401).send({ error: err?.message ?? 'unauthorized' }); }
>> *)
Definition publicPaths : list string :=
  ["/health"; "/ready"; "/api/v1/metrics"; "/api/v1/fl/model/"].

Definition preHandler (env : NodeEnv) (url : string) (authorization devUser : option string) :
    Admission :=
  if existsb (fun p => String.prefix p url) publicPaths then PublicPath
  else if truthy devUser && negb (is_production env) then
    Attached {| au_sub := default "" devUser;
                au_groups := Nullish;
                au_cognito_groups := GroupList ["admin"] |}
  else
    match authenticateUser env authorization None with
    | Returned user => Attached user
    | Thrown message => Rejected message
    end.

(** The [preHandler] of the first server:
<<
  const publicPaths = ['/health', '/ready', '/api/v1/metrics'];
  if (publicPaths.some((p) => request.url.startsWith(p))) return;
  const devUser = request.headers['x-dev-user'];
  try { request.user = await AuthService.authenticateUser(request.headers.authorization, devUser); }
  catch (err) { reply.code(401).send({ error: err?.message ?? 'unauthorized' }); }
>> *)
Definition publicPathsV1 : list string := ["/health"; "/ready"; "/api/v1/metrics"].

Definition preHandlerV1 (env : NodeEnv) (url : string) (authorization devUser : option string) :
    Admission :=
  if existsb (fun p => String.prefix p url) publicPathsV1 then PublicPath
  else
    match authenticateUser env authorization devUser with
    | Returned user => Attached user
    | Thrown message => Rejected message
    end.

(** [request.user] as the upload route reads it: its [sub]. *)
Definition request_user (a : Admission) : option User :=
  match a with
  | Attached user => Some {| sub := Some (au_sub user) |}
  | _ => None
  end.

(** A request to [POST /api/v1/fl/weights] of the later server, from its
    headers on: the hook, then the route unless the hook replied. *)
Definition upload_request (env : NodeEnv) (cfg : Config) (clk : Clock) (url : string)
    (authorization devUser : option string) (req : Request) (st : Store) : Reply * Store :=
  match preHandler env url authorization devUser with
  | Rejected _ => (Unauthorized, st)
  | admission =>
      RitaServer.post_weights cfg clk
        {| req_user := request_user admission;
           req_rawBody := req_rawBody req;
           req_body := req_body req;
           req_canonical := req_canonical req;
           req_signature := req_signature req |} st
  end.

End Hooks.

(** *** The server of the API description (src/server.ts with
    [@fastify/swagger]) *)

Module DocsServer.

(** [rawUrl.split('?')[0]] *)
Fixpoint before_query (rawUrl : string) : string :=
  match rawUrl with
  | EmptyString => EmptyString
  | String c rest => if Ascii.eqb c "?" then EmptyString else String c (before_query rest)
  end.

(** [isPublic(rawUrl)] *)
Definition isPublic (rawUrl : string) : bool :=
  let url := before_query rawUrl in
  String.eqb url "/health"
  || String.eqb url "/openapi.json"
  || String.eqb url "/docs"
  || String.eqb url "/docs/"
  || String.prefix "/docs/json" url
  || String.prefix "/docs/static" url
  || String.prefix "/docs/" url.

(** [authGuard(req, reply)]: [None] lets the request through, [Some 401] is
    the reply.
<<
  const url = (req.raw?.url as string) || (req.url as string) || '';
  if (isPublic(url)) return;
  const auth = req.headers['authorization'];
  if (!auth || !auth.startsWith('Bearer ')) { reply.code(401).send(...); return reply; }
>> *)
Definition authGuard (url : string) (auth : option string) : option nat :=
  if isPublic url then None
  else
    match auth with
    | Some header => if String.prefix "Bearer " header then None else Some 401%nat
    | None => Some 401%nat
    end.

End DocsServer.

(** *** The development server (src/server.ts with [seenBodies]) *)

Module DevServer.

(** [s.toLowerCase()] on the letters of ASCII.  (No character outside
    ASCII lowers to a hexadecimal digit, so the comparison of
    [isValidSignature] reads the same.) *)
Definition lower (c : ascii) : ascii :=
  let n := N_of_ascii c in
  if (65 <=? n)%N && (n <=? 90)%N then ascii_of_N (n + 32) else c.

Fixpoint toLowerCase (s : string) : string :=
  match s with
  | EmptyString => EmptyString
  | String c rest => String (lower c) (toLowerCase rest)
  end.

(** [isValidSignature(raw, headerSig)], with [secret] the value of
    [process.env.DEVICE_HMAC_SECRET || '']:
<<
  if (!secret || !headerSig) return false;
  const expected = crypto.createHmac('sha256', secret).update(raw).digest('hex');
  return headerSig.toLowerCase() === expected.toLowerCase();
>> *)
Definition isValidSignature (secret raw headerSig : string) : bool :=
  if String.eqb secret "" || String.eqb headerSig "" then false
  else String.eqb (toLowerCase headerSig)
                  (toLowerCase (Crypto.createHmac_sha256_hex secret raw)).

(** [authGuard]: the bearer token or the [x-dev-user] header is
    [dev-simulator].
<<
  const token = bearer.startsWith('Bearer ') ? bearer.slice(7) : undefined;
  if (token === 'dev-simulator' || devUser === 'dev-simulator') return done();
  reply.code(401).send({ error: 'Missing or invalid authorization header' });
>> *)
Definition authGuard (authorization devUser : option string) : bool :=
  String.eqb (default "" authorization) "Bearer dev-simulator"
  || bool_decide (devUser = Some "dev-simulator").

(** [seenBodies], with the timers that empty it: a digest, and the time its
    timer deletes it. *)
Abbreviation Seen := (gmap string Z).

Definition seen_has (now : Z) (digest : string) (seen : Seen) : bool :=
  match seen !! digest with
  | Some until => (now <? until)%Z
  | None => false
  end.

Inductive DevReply : Type :=
| NoAuthorization
| BadSignature
| Duplicate
| Accepted.

Definition dev_status (r : DevReply) : nat :=
  match r with
  | NoAuthorization => 401
  | BadSignature => 401
  | Duplicate => 409
  | Accepted => 200
  end.

(** [POST /api/v1/fl/weights]
<<
  const raw = req.rawBody?.toString?.() ?? JSON.stringify(req.body ?? {});
  const sig = req.headers['x-signature'] ?? '';
  if (!isValidSignature(raw, sig)) return reply.code(401).send({ error: 'bad signature' });
  const bodyHash = crypto.createHash('sha256').update(raw).digest('hex');
  if (seenBodies.has(bodyHash)) return reply.code(409).send({ error: 'duplicate' });
  seenBodies.add(bodyHash);
  setTimeout(() => seenBodies.delete(bodyHash), 5 * 60 * 1000);
  return reply.code(200).send({ accepted: true });
>> *)
Definition bodyHash (raw : string) : string := Crypto.hex (Crypto.sha256 (Crypto.bytes_of raw)).

Definition post_weights (secret : string) (now : Z) (authorization devUser : option string)
    (req : Request) (seen : Seen) : DevReply * Seen :=
  if negb (authGuard authorization devUser) then (NoAuthorization, seen)
  else
    let raw := default (req_canonical req) (req_rawBody req) in
    let sig := default "" (req_signature req) in
    if negb (isValidSignature secret raw sig) then (BadSignature, seen)
    else if seen_has now (bodyHash raw) seen then (Duplicate, seen)
    else (Accepted, <[bodyHash raw := (now + 5 * 60 * 1000)%Z]> seen).

End DevServer.

(* ================================================================== *)
(** * The vocabulary of the properties *)
(* ================================================================== *)

Import DatabaseService ModelVersioningService.

(** ** The aggregator, read off the heap a call starts from *)

Section Vocabulary.
Context {F : Type} `{JSNumber F}.

(** [u] passes the guard of the inner loop for layer [L] of length [n]:
    with an own vector of that length, or without an own layer [L] when
    [Object.prototype] has a function [L] of that [length]. *)
Definition contributes (L : string) (n : nat) (h : heap F) (u : Update F) : bool :=
  match layer_of h u L with
  | Some v => Nat.eqb (length v) n
  | None => bool_decide (prototype_length L = Some n)
  end.

(** What [u.weights[L][i]] reads for [i] below [n]: the elements of the own
    vector, or [undefined] throughout. *)
Definition supplied (h : heap F) (L : string) (n : nat) (u : Update F) : list F :=
  match layer_of h u L with
  | Some v => v
  | None => replicate n num_nan
  end.

(** No update reads layer [L] of length [n] from [Object.prototype]. *)
Definition own_layer (L : string) (n : nat) : bool :=
  negb (bool_decide (prototype_length L = Some n)).

(** What the aggregator stores for layer [L], read off the heap the call
    started from: the normalised sums of the loop for [L]. *)
Definition layer_result (h : heap F) (us : list (Update F)) (L : string) (n : nat) : list F :=
  normalise (layer_run L n h us).

(** The vector update [u] supplies for layer [L] of length [n], scaled by
    its weight. *)
Definition contribution (h : heap F) (L : string) (n : nat) (u : Update F) : list F :=
  (fun x => num_mul x (weight u)) <$> supplied h L n u.

Definition add_contribution (h : heap F) (L : string) (n : nat) (acc : list F) (u : Update F) :
    list F :=
  zip_with num_add acc (contribution h L n u).

Definition add_weight (t : F) (u : Update F) : F := num_add t (weight u).

Definition contributors (h : heap F) (L : string) (n : nat) (us : list (Update F)) :
    list (Update F) :=
  filter (fun u => contributes L n h u = true) us.

End Vocabulary.

Definition result_layer {F : Type} (o : outcome (JSObject F * heap F)) (K : string) :
    outcome (option (list F)) :=
  r ← o; Returned (r.1 !! K).

(** The unweighted elementwise arithmetic mean of vectors of length [n]:
    the elementwise sum, divided by the number of vectors. *)
Definition vector_sum (n : nat) (vs : list (list Qc)) : list Qc :=
  foldr (zip_with Qcplus) (replicate n 0%Qc) vs.

Definition unweighted_mean (n : nat) (vs : list (list Qc)) : list Qc :=
  (fun x => x / Qc_of_Z (Z.of_nat (length vs)))%Qc <$> vector_sum n vs.

(** The number a version identifier carries after its [v]. *)
Definition version_number (version : string) : option Z :=
  match version with
  | String "v" digits => Z.of_int <$> NilZero.int_of_string digits
  | _ => None
  end.

(** The order of version identifiers: that of the numbers they carry. *)
Definition version_ltb (v1 v2 : string) : bool :=
  match version_number v1, version_number v2 with
  | Some a, Some b => (a <? b)%Z
  | _, _ => false
  end.

(** A request that passes every check the route makes before it reserves
    the nonce: a caller, a body within the size limit, a signature that
    verifies, a body the schema accepts, a fresh timestamp. *)
Definition valid_signed_update (cfg : Config) (clk : Clock) (req : Request)
    (body : WeightUpdate) : Prop :=
  is_Some (req_user req) ∧
  (2 * 1024 * 1024 <? JS.length (default (req_canonical req) (req_rawBody req)))%nat = false ∧
  (exists signature,
     req_signature req = Some signature ∧ String.eqb signature "" = false ∧
     existsb (fun s => SecurityUtils.validateHMAC s signature (DEVICE_HMAC_SECRET cfg))
             (RitaServer.toVerify req) = true) ∧
  req_body req ≫= Schema.parse = Some body ∧
  SecurityUtils.isRecentTimestamp (now_fresh clk) (wu_timestamp body) = true.

(** The rational a finite binary64 number is. *)
Definition Q_of_float (x : float) : option Q :=
  match Prim2SF x with
  | S754_zero _ => Some 0%Q
  | S754_finite s m e =>
      Some ((if s then -1 else 1) * inject_Z (Z.pos m) * Qpower 2 e)%Q
  | _ => None
  end.

(** [|x - target| <= tolerance], exactly. *)
Definition within (tolerance : Q) (x : option float) (target : Q) : bool :=
  match x ≫= Q_of_float with
  | Some q => Qle_bool (Qabs (q - target)) tolerance
  | None => false
  end.

(** The reply of a round. *)
Definition round_reply (round : outcome (RitaServer.RoundReply * Store)) :
    outcome RitaServer.RoundReply :=
  r ← round; Returned r.1.

(** Layer [layer0] of the version a round committed, read back with the
    version the round returned. *)
Definition committed_layer0 (t : Z) (modelName : string)
    (round : outcome (RitaServer.RoundReply * Store)) : list (option float) :=
  match round with
  | Returned (RitaServer.Aggregated version _, st) =>
      default [] (getModelVersion t modelName (Some version) st ≫= fun p => mp_weights p !! "layer0")
  | _ => []
  end.

(** The keys of a model's two update namespaces. *)
Definition processing_key (modelName rest : string) : string :=
  "fl:{" ++ modelName ++ "}:processing:" ++ modelName ++ ":" ++ rest.

Definition pending_key (modelName rest : string) : string :=
  "fl:{" ++ modelName ++ "}:pending:" ++ modelName ++ ":" ++ rest.

(** The first [:processing:] of a processing key of the model is the
    namespace marker. *)
Definition marker_comes_first (modelName : string) : Prop :=
  forall rest,
    JS.replace ":processing:" ":pending:" (processing_key modelName rest)
    = pending_key modelName rest.

(** A name without a colon: the common case of [marker_comes_first]. *)
Fixpoint no_colon (s : string) : bool :=
  match s with
  | EmptyString => true
  | String c s' => negb (Ascii.eqb c ":") && no_colon s'
  end.

(** The store of a round after the promotion, and the entries the round
    finds in the processing namespace. *)
Definition promoted (clk : RitaServer.RoundClock) (modelName : string) (st : Store) : Store :=
  (markPendingToProcessing (RitaServer.round_store clk) modelName st).2.

Definition processing_entries (clk : RitaServer.RoundClock) (modelName : string) (st : Store) :
    list (string * LedgerDoc) :=
  getFLUpdates (RitaServer.round_store clk) modelName processing (promoted clk modelName st).

(** The store a round leaves. *)
Definition store_after (round : outcome (RitaServer.RoundReply * Store)) : Store :=
  match round with
  | Returned r => r.2
  | Thrown _ => ∅
  end.

(** ** The replies of the upload route *)

(** The reply is [uploaded]. *)
Definition accepted (r : Reply) : bool :=
  match r with
  | Uploaded _ _ _ _ _ => true
  | _ => false
  end.

(** ** Signatures in capitals *)

(** The capital of a small letter of ASCII. *)
Definition upper (c : ascii) : ascii :=
  let n := N_of_ascii c in
  if (97 <=? n)%N && (n <=? 122)%N then ascii_of_N (n - 32) else c.

(** A signature written in capitals. *)
Fixpoint toUpperCase (s : string) : string :=
  match s with
  | EmptyString => EmptyString
  | String c rest => String (upper c) (toUpperCase rest)
  end.

(** ** The namespaces of the models *)

(** A name without a closing brace. *)
Fixpoint no_brace (s : string) : bool :=
  match s with
  | EmptyString => true
  | String c s' => negb (Ascii.eqb c "}") && no_brace s'
  end.

(** Every live key of the model's pattern for a status holds an update
    document, or a list or a set, whose [GET] is an error: none holds a
    plain text, such as the [1] of a nonce key, or a model record. *)
Definition holds_documents (t : Z) (modelName : string) (s : Status) (st : Store) : bool :=
  forallb (fun key =>
             match Redis.get t key st with
             | Some (VString _) | Some (VModel _) => false
             | _ => true
             end)
          (scanKeys t (updates_pattern modelName s) st).

(** Both update namespaces of the model hold documents. *)
Definition ledger_only (t : Z) (modelName : string) (st : Store) : bool :=
  holds_documents t modelName pending st && holds_documents t modelName processing st.

(** The key of an entry of a model in the namespace of a status, and the
    marker of that namespace. *)
Definition status_key (modelName : string) (s : Status) (rest : string) : string :=
  "fl:{" ++ modelName ++ "}:" ++ status_name s ++ ":" ++ modelName ++ ":" ++ rest.

Definition status_marker (s : Status) : string := ":" ++ status_name s ++ ":".

(** The first [:pending:] of a pending key of the model is the namespace
    marker. *)
Definition pending_marker_comes_first (modelName : string) : Prop :=
  forall rest,
    JS.replace ":pending:" ":processing:" (pending_key modelName rest)
    = processing_key modelName rest.

(** The history key holds a list, or nothing. *)
Definition history_is_list (t : Z) (modelName : string) (st : Store) : bool :=
  match Redis.get t (history_key modelName) st with
  | Some (VList _) | None => true
  | Some _ => false
  end.

(** The names in [fl:models:set]. *)
Definition models_set (t : Z) (st : Store) : gset string :=
  match Redis.get t "fl:models:set" st with
  | Some (VSet s) => s
  | _ => ∅
  end.

(** [fl:models:set] holds a set, or nothing. *)
Definition models_set_is_set (t : Z) (st : Store) : bool :=
  match Redis.get t "fl:models:set" st with
  | Some (VSet _) | None => true
  | Some _ => false
  end.

(** The keys of the update namespaces. *)
Definition update_namespace (key : string) : bool := String.prefix "fl:{" key.

(** ** The weighted mean, without rounding *)

(** The sum of the weights of updates, and the sum of the vectors they
    supply for a layer, each scaled by its weight. *)
Definition total_weight (us : list (Update Qc)) : Qc := foldr Qcplus 0%Qc (weight <$> us).

Definition weighted_sum (n : nat) (h : heap Qc) (L : string) (us : list (Update Qc)) : list Qc :=
  vector_sum n (contribution h L n <$> us).

(** An update with its weight multiplied by [c]. *)
Definition scaled (c : Qc) (u : Update Qc) : Update Qc :=
  {| siteId := siteId u; weights := weights u; weight := (c * weight u)%Qc |}.

(** A ledger entry with another [dataQuality]. *)
Definition with_quality (q : float) (d : LedgerDoc) : LedgerDoc :=
  {| doc_siteId := doc_siteId d;
     doc_modelName := doc_modelName d;
     doc_weights := doc_weights d;
     doc_dataSampleCount := doc_dataSampleCount d;
     doc_dataQuality := q;
     doc_timestamp := doc_timestamp d;
     doc_nonce := doc_nonce d;
     doc_receivedAt := doc_receivedAt d;
     doc_uploadedBy := doc_uploadedBy d |}.

(** ** [withLock] *)

(** The store a callback of [withLock] runs in: the lock key holds the
    token, to expire [ttlMs] after the [SET]. *)
Definition locked (token : string) (t_set : Z) (lockKey : string) (ttlMs : Z) (st : Store) : Store :=
  <[lockKey := {| value := VString token; expires := Some (t_set + ttlMs)%Z |}]> st.

(** The outcome of [withLock] when the callback ran and the release did not
    fail: [true], or the exception of the callback. *)
Definition callback_outcome (ran : outcome unit) : outcome bool :=
  match ran with
  | Returned _ => Returned true
  | Thrown msg => Thrown msg
  end.

(** ** Permissions and paths *)

(** The permissions the table grants to a group. *)
Definition allowed (g : string) : list string :=
  default [] (list_to_map (M := gmap string (list string)) AuthService.perms !! g).

(** A path without a query. *)
Fixpoint no_question (s : string) : bool :=
  match s with
  | EmptyString => true
  | String c s' => negb (Ascii.eqb c "?") && no_question s'
  end.

(* ================================================================== *)
(** * A deployment, and small batches *)
(* ================================================================== *)

(** Two updates whose [layer0] vectors differ in length. *)
Definition order_heap : heap float :=
  <[0%nat := {["layer0" := [1; 2]%float]}]> (<[1%nat := {["layer0" := [3]%float]}]> ∅).

Definition order_A : Update float := {| siteId := "A"; weights := 0%nat; weight := 1%float |}.

Definition order_B : Update float := {| siteId := "B"; weights := 1%nat; weight := 1%float |}.

(** Two updates with one layer each, under different names. *)
Definition named_heap : heap float :=
  <[0%nat := {["layer0" := [1]%float]}]> (<[1%nat := {["layer1" := [3]%float]}]> ∅).

(** Two updates that share their [weights] object: the first one consumes
    the layer, and the second one is skipped.  With a third update the
    result depends on which of the two comes first. *)
Definition shared_heap : heap float :=
  <[0%nat := {["layer0" := [4]%float]}]> (<[1%nat := {["layer0" := [1]%float]}]> ∅).

Definition shared_light : Update float :=
  {| siteId := "A"; weights := 0%nat; weight := 1%float |}.

Definition shared_heavy : Update float :=
  {| siteId := "A2"; weights := 0%nat; weight := 3%float |}.

Definition shared_other : Update float :=
  {| siteId := "B"; weights := 1%nat; weight := 1%float |}.

(** The same sharing with unit weights, in exact arithmetic: two updates
    on the object that holds [4], one on the object that holds [1]. *)
Definition twin_heap : heap Qc :=
  <[0%nat := {["layer0" := [Qc_of_Z 4]]}]> (<[1%nat := {["layer0" := [Qc_of_Z 1]]}]> ∅).

Definition twin_A : Update Qc := {| siteId := "A"; weights := 0%nat; weight := 1%Qc |}.

Definition twin_A2 : Update Qc := {| siteId := "A2"; weights := 0%nat; weight := 1%Qc |}.

Definition twin_B : Update Qc := {| siteId := "B"; weights := 1%nat; weight := 1%Qc |}.

(** Three updates of weight 1 in three objects, whose sum overflows
    binary64 in one order and not in the other. *)
Definition large_heap : heap float :=
  <[0%nat := {["layer0" := [1e308]%float]}]>
    (<[1%nat := {["layer0" := [1e308]%float]}]>
       (<[2%nat := {["layer0" := [-1e308]%float]}]> ∅)).

(** Three updates of weight 1 in three objects, the second of which is
    rounded away next to the first. *)
Definition absorbed_heap : heap float :=
  <[0%nat := {["layer0" := [1e16]%float]}]>
    (<[1%nat := {["layer0" := [1]%float]}]>
       (<[2%nat := {["layer0" := [-1e16]%float]}]> ∅)).

Definition unit_A : Update float := {| siteId := "A"; weights := 0%nat; weight := 1%float |}.

Definition unit_B : Update float := {| siteId := "B"; weights := 1%nat; weight := 1%float |}.

Definition unit_C : Update float := {| siteId := "C"; weights := 2%nat; weight := 1%float |}.

(** Two updates of weight zero: the first has the one layer [constructor],
    the second has no layer of that name. *)
Definition inherited_heap : heap float :=
  <[0%nat := {["constructor" := [7]%float]}]> (<[1%nat := {["layer0" := [1]%float]}]> ∅).

Definition inherited_A : Update float :=
  {| siteId := "A"; weights := 0%nat; weight := 0%float |}.

Definition inherited_B : Update float :=
  {| siteId := "B"; weights := 1%nat; weight := 0%float |}.

(** Three updates in three objects. *)
Definition three_heap : heap Qc :=
  <[0%nat := {["layer0" := [Qc_of_Z 1; Qc_of_Z 2]]}]>
    (<[1%nat := {["layer0" := [Qc_of_Z 3; Qc_of_Z 5]]}]>
       (<[2%nat := {["layer0" := [Qc_of_Z 8; Qc_of_Z 2]]}]> ∅)).

Definition three_A : Update Qc := {| siteId := "A"; weights := 0%nat; weight := 1%Qc |}.

Definition three_B : Update Qc := {| siteId := "B"; weights := 1%nat; weight := 1%Qc |}.

Definition three_C : Update Qc := {| siteId := "C"; weights := 2%nat; weight := 1%Qc |}.

(** A batch whose only update that supplies [layer0] at the template
    length weighs nothing; the other one is skipped. *)
Definition idle_heap : heap float :=
  <[0%nat := {["layer0" := [1.5; -2]%float]}]> (<[1%nat := {["layer0" := [7]%float]}]> ∅).

Definition idle_A : Update float := {| siteId := "A"; weights := 0%nat; weight := 0%float |}.

Definition idle_B : Update float := {| siteId := "B"; weights := 1%nat; weight := 5%float |}.

Definition demo_payload : ModelPayload :=
  {| mp_modelName := "demo-model";
     mp_weights := {["layer0" := [Some 1%float; Some 2%float]]};
     mp_metadata := {| participantCount := 3; aggregationTimeMs := 2;
                       participants := ["siteA"; "siteB"; "siteC"] |};
     mp_createdAt := "2023-11-14T22:13:20.000Z";
     mp_participantCount := 3;
     mp_aggregationTimeMs := 2;
     mp_version := "" |}.

Definition demo_config : Config :=
  {| DEVICE_HMAC_SECRET := "0123456789abcdef0123456789abcdef"; FL_MIN_PARTICIPANTS := 3 |}.

Definition quoted (s : string) : string :=
  String (ascii_of_nat 34) (s ++ String (ascii_of_nat 34) EmptyString).

(** The JSON text of an upload of one layer, with [sp] written after every
    colon and comma of the object: nothing as [JSON.stringify] writes it, a
    space as other writers do. *)
Definition upload_text (sp siteId modelName layer0 samples quality timestamp nonce : string) :
    string :=
  "{" ++ quoted "siteId" ++ ":" ++ sp ++ quoted siteId ++ ","
  ++ sp ++ quoted "modelName" ++ ":" ++ sp ++ quoted modelName ++ ","
  ++ sp ++ quoted "weights" ++ ":" ++ sp ++ "{" ++ quoted "layer0" ++ ":" ++ sp ++ layer0 ++ "},"
  ++ sp ++ quoted "dataSampleCount" ++ ":" ++ sp ++ samples ++ ","
  ++ sp ++ quoted "dataQuality" ++ ":" ++ sp ++ quality ++ ","
  ++ sp ++ quoted "timestamp" ++ ":" ++ sp ++ timestamp ++ ","
  ++ sp ++ quoted "nonce" ++ ":" ++ sp ++ quoted nonce ++ "}".

(** An upload by the development user as the route gets it: the body, its
    re-serialised text, no raw body, and a signature over the text of the
    body written with [signed_sp]. *)
Definition upload (signed_sp siteId modelName layer0_text samples_text quality_text nonce : string)
    (layer0 : list float) (samples quality : float) : Request :=
  let text s := upload_text s siteId modelName layer0_text samples_text quality_text
                  "1700000000000" nonce in
  {| req_user := Some {| sub := Some "dev-simulator" |};
     req_rawBody := None;
     req_body := Some {| rb_siteId := siteId;
                         rb_modelName := modelName;
                         rb_weights := {["layer0" := layer0]};
                         rb_dataSampleCount := samples;
                         rb_dataQuality := Some quality;
                         rb_timestamp := 1700000000000%float;
                         rb_nonce := nonce |};
     req_canonical := text "";
     req_signature :=
       Some (Crypto.createHmac_sha256_hex (DEVICE_HMAC_SECRET demo_config) (text signed_sp)) |}.

Definition upload_A : Request :=
  upload "" "siteA" "demo-model" "[1,-0.4,0.3,0.8]" "120" "0.96"
    "6f1c2a3e-0000-4000-8000-00000000000a" [1; -0.4; 0.3; 0.8]%float 120%float 0.96%float.

Definition upload_B : Request :=
  upload "" "siteB" "demo-model" "[1.2,-0.6,0.1,0.7]" "150" "0.94"
    "6f1c2a3e-0000-4000-8000-00000000000b" [1.2; -0.6; 0.1; 0.7]%float 150%float 0.94%float.

Definition upload_C : Request :=
  upload "" "siteC" "demo-model" "[0.9,-0.5,0.2,0.9]" "100" "0.95"
    "6f1c2a3e-0000-4000-8000-00000000000c" [0.9; -0.5; 0.2; 0.9]%float 100%float 0.95%float.




(** [upload_A] as the development server gets it, with the text sent as its
    raw body. *)
Definition upload_A_dev : Request :=
  {| req_user := req_user upload_A;
     req_rawBody := Some (req_canonical upload_A);
     req_body := req_body upload_A;
     req_canonical := req_canonical upload_A;
     req_signature := req_signature upload_A |}.

(** The body of [upload_A] as the schema returns it. *)
Definition body_A : WeightUpdate :=
  {| wu_siteId := "siteA";
     wu_modelName := "demo-model";
     wu_weights := {["layer0" := [1; -0.4; 0.3; 0.8]%float]};
     wu_dataSampleCount := 120%float;
     wu_dataQuality := 0.96%float;
     wu_timestamp := 1700000000000%float;
     wu_nonce := "6f1c2a3e-0000-4000-8000-00000000000a" |}.

(** An upload for the model named [a:processing:b]. *)
Definition upload_odd : Request :=
  upload "" "siteA" "a:processing:b" "[1,-0.4,0.3,0.8]" "120" "0.96"
    "6f1c2a3e-0000-4000-8000-00000000000d" [1; -0.4; 0.3; 0.8]%float 120%float 0.96%float.

Definition clock_at (ms : Z) (iso : string) : Clock :=
  {| now_fresh := ms; now_receipt := ms; iso_receipt := iso; store_now := ms |}.

Definition clock_A : Clock := clock_at 1700000000101 "2023-11-14T22:13:20.101Z".

Definition clock_B : Clock := clock_at 1700000000202 "2023-11-14T22:13:20.202Z".

Definition clock_C : Clock := clock_at 1700000000303 "2023-11-14T22:13:20.303Z".

Definition clock_replay : Clock := clock_at 1700000001000 "2023-11-14T22:13:21.000Z".

(** A resubmission after the timestamp went stale is turned away by the
    freshness check, before the nonce is looked at: [400], nothing written. *)
Definition upload_A_late_first : Clock := clock_at 1700000299000 "2023-11-14T22:18:19.000Z".

Definition upload_A_late_again : Clock := clock_at 1700000301000 "2023-11-14T22:18:21.000Z".

(** The reservation lasts five minutes from the acceptance, the freshness
    of a timestamp five minutes either side of it: an upload accepted five
    minutes ahead of its timestamp is accepted once more after the
    reservation expired. *)
Definition upload_A_early : Clock := clock_at 1699999700000 "2023-11-14T22:08:20.000Z".

Definition upload_A_after : Clock := clock_at 1700000001000 "2023-11-14T22:13:21.000Z".

Definition round_clock : RitaServer.RoundClock :=
  {| RitaServer.round_start := 1700000000400;
     RitaServer.round_finish := 1700000000402;
     RitaServer.round_version := 1700000000403;
     RitaServer.round_iso := "2023-11-14T22:13:20.403Z";
     RitaServer.round_store := 1700000000400 |}.

(** The store after the three uploads. *)
Definition store_A : Store := (RitaServer.post_weights demo_config clock_A upload_A ∅).2.

Definition store_AB : Store := (RitaServer.post_weights demo_config clock_B upload_B store_A).2.

Definition store_ABC : Store := (RitaServer.post_weights demo_config clock_C upload_C store_AB).2.

Definition store_odd : Store := (RitaServer.post_weights demo_config clock_A upload_odd ∅).2.

(** A second upload of site A, with another nonce and other weights. *)
Definition upload_A_second : Request :=
  upload "" "siteA" "demo-model" "[5,5,5,5]" "10" "0.5"
    "6f1c2a3e-0000-4000-8000-00000000000e" [5; 5; 5; 5]%float 10%float 0.5%float.

(** An upload for a model whose name has a closing brace in it. *)
Definition upload_brace : Request :=
  upload "" "siteZ" "demo-model}:pending:demo-model:x" "[9,9,9,9]" "1000" "1"
    "6f1c2a3e-0000-4000-8000-00000000000f" [9; 9; 9; 9]%float 1000%float 1%float.

(** Three updates that agree on [layer0], with weights 1, 2 and 3. *)
Definition agreed_heap : heap Qc :=
  <[0%nat := {["layer0" := [Qc_of_Z 4; Qc_of_Z 7]]}]>
    (<[1%nat := {["layer0" := [Qc_of_Z 4; Qc_of_Z 7]]}]>
       (<[2%nat := {["layer0" := [Qc_of_Z 4; Qc_of_Z 7]]}]> ∅)).

Definition agreed_A : Update Qc := {| siteId := "A"; weights := 0%nat; weight := Qc_of_Z 1 |}.

Definition agreed_B : Update Qc := {| siteId := "B"; weights := 1%nat; weight := Qc_of_Z 2 |}.

Definition agreed_C : Update Qc := {| siteId := "C"; weights := 2%nat; weight := Qc_of_Z 3 |}.

(** One update of weight 3 whose [layer0] is [0.1]. *)
Definition tenth_heap : heap float := {[0%nat := {["layer0" := [0.1]%float]}]}.

Definition tenth : Update float := {| siteId := "A"; weights := 0%nat; weight := 3%float |}.

Ltac list_cases H :=
  repeat (apply elem_of_cons in H as [->|H]); [..|by apply elem_of_nil in H].

(** Closed statements about the deployment are settled by evaluation. *)
Ltac by_evaluation :=
  cbv zeta; repeat match goal with |- _ ∧ _ => split end; vm_compute; reflexivity.

(* ================================================================== *)
(** * Properties *)
(* ================================================================== *)

(** ** HMAC-SHA256 *)

(** The digest of the standard's first test message and a well-known
    HMAC, as every implementation computes them. *)
Example sha256_abc :
  Crypto.hex (Crypto.sha256 (Crypto.bytes_of "abc"))
  = "ba7816bf8f01cfea414140de5dae2223b00361a396177a9cb410ff61f20015ad".
Proof. vm_compute. reflexivity. Qed.

Example hmac_sha256_fox :
  Crypto.createHmac_sha256_hex "key" "The quick brown fox jumps over the lazy dog"
  = "f7bc83f430538424b13298e6aa6fb143ef4d59a14946175997479dbc2d1a3cd8".
Proof. vm_compute. reflexivity. Qed.

(** ** The aggregator and the heap *)

Section AggregatorHeap.
Context {F : Type} `{JSNumber F}.
Implicit Types (h : heap F) (u : Update F) (us : list (Update F)).
Implicit Types (s : LayerAcc F) (L K : string) (l : loc) (n : nat).

Lemma visit_unfold L n s u :
  visit L n s u =
    if contributes L n (acc_heap s) u then
      {| acc_heap := <[weights u := delete L (acc_heap s !!! weights u)]> (acc_heap s);
         acc_sum := zip_with num_add (acc_sum s) (contribution (acc_heap s) L n u);
         acc_total := num_add (acc_total s) (weight u) |}
    else s.
Proof.
  unfold visit, contributes, contribution, supplied.
  destruct (layer_of (acc_heap s) u L) as [v|]; [by destruct (Nat.eqb (length v) n)|].
  by destruct (bool_decide _).
Qed.

(** A turn leaves every other layer of every object alone. *)
Lemma visit_cell_other L n s u l K :
  K ≠ L -> (acc_heap (visit L n s u) !!! l) !! K = (acc_heap s !!! l) !! K.
Proof.
  intros HK. rewrite visit_unfold. destruct (contributes L n (acc_heap s) u); [|done].
  cbn. destruct (decide (weights u = l)) as [->|Hl].
  - rewrite lookup_total_insert_eq. by rewrite lookup_delete_ne.
  - by rewrite lookup_total_insert_ne.
Qed.

(** A turn only deletes: what an object still holds, it held before. *)
Lemma visit_cell_mono L n s u l K v :
  (acc_heap (visit L n s u) !!! l) !! K = Some v -> (acc_heap s !!! l) !! K = Some v.
Proof.
  rewrite visit_unfold. destruct (contributes L n (acc_heap s) u); [|done].
  cbn. destruct (decide (weights u = l)) as [->|Hl].
  - rewrite lookup_total_insert_eq. rewrite lookup_delete_Some. tauto.
  - by rewrite lookup_total_insert_ne.
Qed.

(** The update that contributes loses the layer. *)
Lemma visit_cell_consumed L n s u :
  contributes L n (acc_heap s) u = true ->
  (acc_heap (visit L n s u) !!! weights u) !! L = None.
Proof.
  intros Hc. rewrite visit_unfold, Hc. cbn.
  rewrite lookup_total_insert_eq. apply lookup_delete_eq.
Qed.

Lemma run_cell_other L n us s l K :
  K ≠ L -> (acc_heap (foldl (visit L n) s us) !!! l) !! K = (acc_heap s !!! l) !! K.
Proof.
  intros HK. revert s. induction us as [|u us IH]; intros s; [done|].
  cbn. rewrite IH. by apply visit_cell_other.
Qed.

Lemma run_cell_mono L n us s l K v :
  (acc_heap (foldl (visit L n) s us) !!! l) !! K = Some v -> (acc_heap s !!! l) !! K = Some v.
Proof.
  revert s. induction us as [|u us IH]; intros s; [done|].
  cbn. intros Hv. apply IH in Hv. by apply visit_cell_mono in Hv.
Qed.

(** After the loop no update of the list still holds a layer [L] of the
    template length. *)
Lemma run_cell_consumed L n us s u v :
  u ∈ us ->
  (acc_heap (foldl (visit L n) s us) !!! weights u) !! L = Some v ->
  length v ≠ n.
Proof.
  revert s. induction us as [|u' us IH]; intros s Hu Hv.
  { by apply elem_of_nil in Hu. }
  apply elem_of_cons in Hu as [->|Hu]; [|by eapply IH].
  cbn in Hv. apply run_cell_mono in Hv.
  destruct (contributes L n (acc_heap s) u') eqn:Hc.
  - by rewrite visit_cell_consumed in Hv.
  - rewrite visit_unfold, Hc in Hv. unfold contributes, layer_of in Hc.
    rewrite Hv in Hc. by apply Nat.eqb_neq in Hc.
Qed.

(** The loop for layer [L] reads and writes the cells of [L] only: from two
    heaps that agree on them it computes the same sums. *)
Lemma run_agree L n us s1 s2 :
  (forall l, (acc_heap s1 !!! l) !! L = (acc_heap s2 !!! l) !! L) ->
  acc_sum s1 = acc_sum s2 -> acc_total s1 = acc_total s2 ->
  acc_sum (foldl (visit L n) s1 us) = acc_sum (foldl (visit L n) s2 us) ∧
  acc_total (foldl (visit L n) s1 us) = acc_total (foldl (visit L n) s2 us) ∧
  (forall l, (acc_heap (foldl (visit L n) s1 us) !!! l) !! L
             = (acc_heap (foldl (visit L n) s2 us) !!! l) !! L).
Proof.
  revert s1 s2. induction us as [|u us IH]; intros s1 s2 Hh Hs Ht; [done|].
  assert (Hc : contributes L n (acc_heap s1) u = contributes L n (acc_heap s2) u).
  { unfold contributes, layer_of. by rewrite (Hh (weights u)). }
  assert (Hk : contribution (acc_heap s1) L n u = contribution (acc_heap s2) L n u).
  { unfold contribution, supplied, layer_of. by rewrite (Hh (weights u)). }
  cbn. apply IH.
  - intros l. rewrite !visit_unfold, Hc.
    destruct (contributes L n (acc_heap s2) u); [|apply Hh]. cbn.
    destruct (decide (weights u = l)) as [->|Hl].
    + by rewrite !lookup_total_insert_eq, !lookup_delete_eq.
    + rewrite !lookup_total_insert_ne by done. apply Hh.
  - rewrite !visit_unfold, Hc.
    destruct (contributes L n (acc_heap s2) u); [|done]. cbn. by rewrite Hs, Hk.
  - rewrite !visit_unfold, Hc.
    destruct (contributes L n (acc_heap s2) u); [|done]. cbn. by rewrite Ht.
Qed.

(** Adding nothing: when every update that passes the guard adds zeros to
    the sums and to the total, they stay zero. *)
Lemma zip_with_add_zero n (v : list F) (w : F) :
  length v = n ->
  Forall (fun x => num_add num_zero (num_mul x w) = num_zero) v ->
  zip_with num_add (replicate n num_zero) ((fun x => num_mul x w) <$> v) = replicate n num_zero.
Proof.
  intros <- Hv. induction Hv as [|x v Hx Hv IH]; [done|].
  cbn. by rewrite Hx, IH.
Qed.

Lemma run_zero L n us s :
  own_layer L n = true ->
  (forall u v, u ∈ us -> (acc_heap s !!! weights u) !! L = Some v -> length v = n ->
     num_add num_zero (weight u) = num_zero ∧
     Forall (fun x => num_add num_zero (num_mul x (weight u)) = num_zero) v) ->
  acc_sum s = replicate n num_zero -> acc_total s = num_zero ->
  acc_sum (foldl (visit L n) s us) = replicate n num_zero ∧
  acc_total (foldl (visit L n) s us) = num_zero.
Proof.
  intros Hown%negb_true_iff.
  revert s. induction us as [|u us IH]; intros s Hz Hs Ht; [done|].
  cbn. apply IH.
  - intros u' v Hu' Hv Hlen. apply (Hz u' v); [apply elem_of_cons; by right| |done].
    by apply visit_cell_mono in Hv.
  - rewrite visit_unfold. unfold contributes, contribution, supplied, layer_of.
    destruct ((acc_heap s !!! weights u) !! L) as [v|] eqn:Hv; [|by rewrite Hown].
    destruct (Nat.eqb (length v) n) eqn:Hlen; [|done]. cbn.
    apply Nat.eqb_eq in Hlen. rewrite Hs.
    apply zip_with_add_zero; [done|]. apply (Hz u v); [apply elem_of_cons; by left|done..].
  - rewrite visit_unfold. unfold contributes, layer_of.
    destruct ((acc_heap s !!! weights u) !! L) as [v|] eqn:Hv; [|by rewrite Hown].
    destruct (Nat.eqb (length v) n) eqn:Hlen; [|done]. cbn.
    apply Nat.eqb_eq in Hlen. rewrite Ht.
    apply (Hz u v); [apply elem_of_cons; by left|done..].
Qed.

Lemma layer_result_agree L n us h1 h2 :
  (forall l, (h1 !!! l) !! L = (h2 !!! l) !! L) ->
  layer_result h1 us L n = layer_result h2 us L n.
Proof.
  intros Hh. unfold layer_result, layer_run, normalise.
  destruct (run_agree L n us (layer_start h1 n) (layer_start h2 n)) as (Hs & Ht & _);
    [done..|].
  by rewrite Hs, Ht.
Qed.

Lemma elem_of_Object_keys (o : JSObject F) K : K ∈ Object_keys o <-> is_Some (o !! K).
Proof.
  unfold Object_keys. rewrite list_elem_of_fmap. split.
  - intros [[k v] [-> Hkv]]. apply elem_of_map_to_list in Hkv. by exists v.
  - intros [v Hv]. exists (K, v). split; [done|]. by apply elem_of_map_to_list.
Qed.

Lemma NoDup_Object_keys (o : JSObject F) : NoDup (Object_keys o).
Proof. apply NoDup_fst_map_to_list. Qed.

(** The loop over the layers: it returns when the template holds every key
    it is given, and then the result and the heap are these. *)
Lemma aggregate_layers_spec us t keys h r :
  NoDup keys ->
  (forall K, K ∈ keys -> is_Some ((h !!! t) !! K)) ->
  exists h' r',
    aggregate_layers us t keys (h, r) = Returned (h', r') ∧
    (forall K, r' !! K =
       if decide (K ∈ keys)
       then (fun v => layer_result h us K (length v)) <$> (h !!! t) !! K
       else r !! K) ∧
    (forall l K, K ∉ keys -> (h' !!! l) !! K = (h !!! l) !! K) ∧
    (forall l K v, (h' !!! l) !! K = Some v -> (h !!! l) !! K = Some v) ∧
    (forall u K v, K ∈ keys -> u ∈ us -> (h' !!! weights u) !! K = Some v ->
       Some (length v) ≠ length <$> (h !!! t) !! K).
Proof.
  intros Hnd. revert h r. induction Hnd as [|K0 keys HK0 Hnd IH]; intros h r Hkeys.
  { exists h, r. split; [done|]. split; [|split; [|split]]; [|done|done|].
    - intros K. by rewrite decide_False by apply not_elem_of_nil.
    - intros u K v HK. by apply elem_of_nil in HK. }
  destruct (Hkeys K0) as [t0 Ht0]; [apply elem_of_cons; by left|].
  cbn [aggregate_layers]. unfold aggregate_layer. cbn [fst snd]. rewrite Ht0.
  set (h1 := acc_heap (layer_run K0 (length t0) h us)).
  set (r1 := <[K0 := normalise (layer_run K0 (length t0) h us)]> r).
  assert (Hother : forall l K, K ≠ K0 -> (h1 !!! l) !! K = (h !!! l) !! K).
  { intros l K HK. by apply run_cell_other. }
  destruct (IH h1 r1) as (h' & r' & Hrun & Hr & Hframe & Hmono & Hcons).
  { intros K HK. rewrite Hother; [apply Hkeys, elem_of_cons; by right|].
    intros ->. done. }
  exists h', r'. split; [exact Hrun|]. split; [|split; [|split]].
  - intros K. rewrite Hr. destruct (decide (K = K0)) as [->|HK].
    + rewrite decide_False by done. rewrite decide_True by (apply elem_of_cons; by left).
      unfold r1. rewrite lookup_insert_eq. by rewrite Ht0.
    + destruct (decide (K ∈ keys)) as [Hin|Hin].
      * rewrite decide_True by (apply elem_of_cons; by right).
        rewrite Hother by done. destruct ((h !!! t) !! K) as [v|]; [|done]. cbn.
        f_equal. apply layer_result_agree. intros l. by apply Hother.
      * rewrite decide_False by (rewrite elem_of_cons; tauto).
        unfold r1. by rewrite lookup_insert_ne.
  - intros l K HK. rewrite elem_of_cons in HK.
    rewrite Hframe by tauto. apply Hother. tauto.
  - intros l K v Hv. apply Hmono in Hv. by apply run_cell_mono in Hv.
  - intros u K v HK Hu Hv. apply elem_of_cons in HK as [->|HK].
    + rewrite Ht0. cbn. intros [= Hlen].
      apply Hmono in Hv. by apply (run_cell_consumed _ _ _ _ _ _ Hu) in Hv.
    + assert (K ≠ K0) by (intros ->; done).
      rewrite <- (Hother t K) by done. by eapply Hcons.
Qed.

(** *** The aggregator, read off the heap of the call

    A call on a non-empty list returns.  Its result has the layers of the
    first update, each holding the normalised sums of its loop; the heap
    it leaves differs from the one it found by deletions only, and no
    update of the list keeps a template layer of the template length. *)
Lemma aggregateWeightsStreaming_spec modelName h u0 us :
  exists r h',
    aggregateWeightsStreaming modelName h (u0 :: us) = Returned (r, h') ∧
    (forall K, r !! K =
       (fun v => layer_result h (u0 :: us) K (length v)) <$> (h !!! weights u0) !! K) ∧
    (forall l K v, (h' !!! l) !! K = Some v -> (h !!! l) !! K = Some v) ∧
    (forall l K, (h !!! weights u0) !! K = None -> (h' !!! l) !! K = (h !!! l) !! K) ∧
    (forall u K v t, u ∈ u0 :: us -> (h !!! weights u0) !! K = Some t ->
       (h' !!! weights u) !! K = Some v -> length v ≠ length t).
Proof.
  destruct (aggregate_layers_spec (u0 :: us) (weights u0)
              (Object_keys (h !!! weights u0)) h ∅)
    as (h' & r & Hrun & Hr & Hframe & Hmono & Hcons).
  { apply NoDup_Object_keys. }
  { intros K. by rewrite elem_of_Object_keys. }
  exists r, h'. unfold aggregateWeightsStreaming. rewrite Hrun. cbn.
  split; [done|]. split; [|split; [|split]].
  - intros K. rewrite Hr. destruct (decide (K ∈ Object_keys (h !!! weights u0))) as [|Hn]; [done|].
    rewrite elem_of_Object_keys in Hn. rewrite lookup_empty.
    destruct ((h !!! weights u0) !! K); [|done]. by destruct Hn.
  - exact Hmono.
  - intros l K HK. apply Hframe. rewrite elem_of_Object_keys, HK. by intros [? ?].
  - intros u K v t Hu Ht Hv Hlen.
    apply (Hcons u K v); [by rewrite elem_of_Object_keys, Ht|done|done|].
    by rewrite Ht; cbn; rewrite Hlen.
Qed.

(** *** Updates held in distinct objects

    When no two updates of the list share their [weights] object, an
    update meets its layer as the call found it: the sums of the loop are
    the sums over the updates that supply the layer at the template length. *)

Lemma run_nodup L n h us s :
  NoDup (weights <$> us) ->
  (forall u, u ∈ us -> (acc_heap s !!! weights u) !! L = (h !!! weights u) !! L) ->
  acc_sum (foldl (visit L n) s us)
    = foldl (add_contribution h L n) (acc_sum s) (contributors h L n us) ∧
  acc_total (foldl (visit L n) s us)
    = foldl add_weight (acc_total s) (contributors h L n us).
Proof.
  revert s. induction us as [|u us IH]; intros s Hnd Hcells; [done|].
  rewrite fmap_cons in Hnd. apply NoDup_cons in Hnd as [Hu Hnd].
  assert (Hhead : contributes L n (acc_heap s) u = contributes L n h u).
  { unfold contributes, layer_of. rewrite Hcells; [done|]. apply elem_of_cons; by left. }
  assert (Hlayer : contribution (acc_heap s) L n u = contribution h L n u).
  { unfold contribution, supplied, layer_of. rewrite Hcells; [done|]. apply elem_of_cons; by left. }
  assert (Htail : forall u', u' ∈ us ->
    (acc_heap (visit L n s u) !!! weights u') !! L = (h !!! weights u') !! L).
  { intros u' Hu'. rewrite <- Hcells by (apply elem_of_cons; by right).
    rewrite visit_unfold. destruct (contributes L n (acc_heap s) u); [|done]. cbn.
    rewrite lookup_total_insert_ne; [done|].
    intros Heq. apply Hu. rewrite Heq. by apply list_elem_of_fmap_2. }
  cbn [foldl]. destruct (IH (visit L n s u) Hnd Htail) as [Hs Ht].
  rewrite Hs, Ht. unfold contributors. rewrite visit_unfold, Hhead.
  destruct (contributes L n h u) eqn:Hc.
  - rewrite filter_cons_True by done. cbn.
    unfold add_contribution at 2, add_weight at 2. by rewrite Hlayer.
  - rewrite filter_cons_False; [done|]. by rewrite Hc.
Qed.

Lemma layer_run_nodup L n h us :
  NoDup (weights <$> us) ->
  acc_sum (layer_run L n h us)
    = foldl (add_contribution h L n) (replicate n num_zero) (contributors h L n us) ∧
  acc_total (layer_run L n h us) = foldl add_weight num_zero (contributors h L n us).
Proof. intros Hnd. by apply (run_nodup L n h us (layer_start h n)). Qed.

End AggregatorHeap.

(** C10.  [aggregateWeightsStreaming] consumes its input.  A call on a
    non-empty list returns, and in the heap it leaves every update whose
    vector for a template layer had the template length has lost that layer
    ([delete u.weights[layerName]]); the first update, the template, is left
    with no layer at all.  A second call on the same objects therefore
    returns the empty result, which is not the first result as soon as the
    template had a layer. *)
Theorem aggregate_consumes_input {F : Type} `{JSNumber F}
    (modelName : string) (h : heap F) (u0 : Update F) (us : list (Update F)) :
  exists r h',
    aggregateWeightsStreaming modelName h (u0 :: us) = Returned (r, h') ∧
    (forall u K t v,
       u ∈ u0 :: us ->
       (h !!! weights u0) !! K = Some t ->
       (h !!! weights u) !! K = Some v -> length v = length t ->
       (h' !!! weights u) !! K = None) ∧
    h' !!! weights u0 = ∅ ∧
    aggregateWeightsStreaming modelName h' (u0 :: us) = Returned (∅, h') ∧
    (h !!! weights u0 ≠ ∅ -> r ≠ ∅).
Proof.
  destruct (aggregateWeightsStreaming_spec modelName h u0 us)
    as (r & h' & Hrun & Hr & Hmono & Hframe & Hcons).
  assert (Hgone : forall u K t v,
    u ∈ u0 :: us -> (h !!! weights u0) !! K = Some t ->
    (h !!! weights u) !! K = Some v -> length v = length t ->
    (h' !!! weights u) !! K = None).
  { intros u K t v Hu Ht Hv Hlen.
    destruct ((h' !!! weights u) !! K) as [v'|] eqn:Hv'; [|done].
    exfalso. apply (Hcons u K v' t Hu Ht Hv').
    apply Hmono in Hv'. congruence. }
  assert (Hempty : h' !!! weights u0 = ∅).
  { apply map_eq. intros K. rewrite lookup_empty.
    destruct ((h !!! weights u0) !! K) as [t|] eqn:Ht.
    - apply (Hgone u0 K t t); [apply elem_of_cons; by left|done..].
    - by rewrite Hframe. }
  exists r, h'. split; [done|]. split; [done|]. split; [done|]. split.
  - unfold aggregateWeightsStreaming. rewrite Hempty.
    unfold Object_keys. by rewrite map_to_list_empty.
  - intros Hne Hr0. apply Hne. apply map_eq. intros K. rewrite lookup_empty.
    specialize (Hr K). rewrite Hr0, lookup_empty in Hr.
    by destruct ((h !!! weights u0) !! K).
Qed.

(** ** binary64: zero weights *)

Lemma float_is_zero_cases (w : float) :
  PrimFloat.is_zero w = true -> exists s, Prim2SF w = S754_zero s.
Proof.
  unfold PrimFloat.is_zero. rewrite FloatAxioms.eqb_spec.
  change (Prim2SF PrimFloat.zero) with (S754_zero false).
  destruct (Prim2SF w) as [s|s| |s m e]; cbn; intros Hw.
  - by exists s.
  - by destruct s.
  - done.
  - by destruct s.
Qed.

Lemma float_is_finite_cases (x : float) :
  PrimFloat.is_finite x = true ->
  (exists s, Prim2SF x = S754_zero s) \/ (exists s m e, Prim2SF x = S754_finite s m e).
Proof.
  unfold PrimFloat.is_finite, PrimFloat.is_nan, PrimFloat.is_infinity.
  rewrite !FloatAxioms.eqb_spec, FloatAxioms.abs_spec.
  change (Prim2SF PrimFloat.infinity) with (S754_infinity false).
  destruct (Prim2SF x) as [s|s| |s m e]; cbn; intros Hx.
  - left. by exists s.
  - by destruct s.
  - done.
  - right. by exists s, m, e.
Qed.

(** A finite value times a zero weight adds nothing to a zero sum. *)
Lemma float_add_zero_mul_zero (x w : float) :
  PrimFloat.is_finite x = true -> PrimFloat.is_zero w = true ->
  (0 + x * w)%float = 0%float.
Proof.
  intros Hx [sw Hw]%float_is_zero_cases. apply Prim2SF_inj.
  rewrite FloatAxioms.add_spec, FloatAxioms.mul_spec, Hw. change (Prim2SF 0) with (S754_zero false).
  destruct (float_is_finite_cases x Hx) as [[s ->]|(s & m & e & ->)]; cbn.
  - by destruct (xorb s sw).
  - by destruct (xorb s sw).
Qed.

Lemma float_add_zero_zero (w : float) :
  PrimFloat.is_zero w = true -> (0 + w)%float = 0%float.
Proof.
  intros [sw Hw]%float_is_zero_cases. apply Prim2SF_inj.
  rewrite FloatAxioms.add_spec, Hw. change (Prim2SF 0) with (S754_zero false). by destruct sw.
Qed.

(** X31.  A template layer whose contributors all carry zero weight, for a
    layer that no update reads from [Object.prototype].  In binary64, for a
    non-empty batch whose vectors hold finite numbers (the data model's),
    when every update that supplies layer [K] at the template length has
    weight zero, the call returns and layer [K] of the result is the
    all-zero vector of the template length: the guard [total > 0] fails, so
    the sums are left undivided (a division would have stored [0/0], which
    is not a number). *)
Theorem zero_weight_layer_is_zero
    (modelName : string) (h : heap float) (u0 : Update float) (us : list (Update float))
    (K : string) (t : list float) :
  (h !!! weights u0) !! K = Some t ->
  own_layer K (length t) = true ->
  (forall u v, u ∈ u0 :: us -> (h !!! weights u) !! K = Some v -> length v = length t ->
     PrimFloat.is_zero (weight u) = true ∧
     Forall (fun x => PrimFloat.is_finite x = true) v) ->
  exists r h',
    aggregateWeightsStreaming modelName h (u0 :: us) = Returned (r, h') ∧
    r !! K = Some (replicate (length t) 0%float).
Proof.
  intros Ht Hown Hz.
  destruct (aggregateWeightsStreaming_spec modelName h u0 us) as (r & h' & Hrun & Hr & _).
  exists r, h'. split; [done|]. rewrite Hr, Ht. cbn. f_equal.
  unfold layer_result, normalise, layer_run.
  destruct (run_zero K (length t) (u0 :: us) (layer_start h (length t))) as [Hs Htot];
    [done| |done|done|].
  - intros u v Hu Hv Hlen. destruct (Hz u v Hu Hv Hlen) as [Hw Hfin]. split.
    + by apply float_add_zero_zero.
    + eapply Forall_impl; [exact Hfin|]. intros x Hx. by apply float_add_zero_mul_zero.
  - by rewrite Htot, Hs.
Qed.

(** C8, where the code leaves it.  The guard of the loop reads
    [u.weights[layerName]] through the prototype: for the layer
    [constructor] of length 1 an update without that layer reads
    [Object], whose [length] is 1, and is not skipped.  [inherited_A] has
    the layer [constructor] = [7] and [inherited_B] has no such layer; both
    weigh nothing.  The total weight of the layer is zero and the sums are
    left undivided, yet the layer of the result is not [0]: the second
    update added [undefined * 0], which is not a number.  With
    [inherited_A] alone the layer is [0]. *)
Theorem zero_weight_layer_is_not_a_number :
  Forall (fun u => weight u = 0%float) [inherited_A; inherited_B] ∧
  layer_of inherited_heap inherited_A "constructor" = Some [7]%float ∧
  layer_of inherited_heap inherited_B "constructor" = None ∧
  acc_total (layer_run "constructor" 1 inherited_heap [inherited_A; inherited_B]) = 0%float ∧
  result_layer (aggregateWeightsStreaming "m" inherited_heap [inherited_A; inherited_B])
    "constructor" = Returned (Some [PrimFloat.nan]) ∧
  result_layer (aggregateWeightsStreaming "m" inherited_heap [inherited_A]) "constructor"
    = Returned (Some [0]%float).
Proof.
  split; [by repeat constructor|]. by_evaluation.
Qed.

(** ** The algebra of the weighted mean, without rounding *)

Lemma foldl_swap_permutation {A B : Type} (f : A -> B -> A) (l l' : list B) :
  (forall a x y, f (f a x) y = f (f a y) x) ->
  l ≡ₚ l' -> forall a, foldl f a l = foldl f a l'.
Proof.
  intros Hf Hp. induction Hp as [|x l l' _ IH|x y l|l l' l'' _ IH _ IH']; intros a; cbn.
  - done.
  - apply IH.
  - by rewrite Hf.
  - by rewrite IH.
Qed.

Lemma foldl_swap_out {A B : Type} (f : A -> B -> A) (l : list B) (a : A) (x : B) :
  (forall a x y, f (f a x) y = f (f a y) x) ->
  foldl f (f a x) l = f (foldl f a l) x.
Proof.
  intros Hf. revert a. induction l as [|y l IH]; intros a; cbn; [done|].
  by rewrite Hf, IH.
Qed.

Lemma foldl_foldr_comm {A : Type} (f : A -> A -> A) (l : list A) (a : A) :
  (forall a x y, f (f a x) y = f (f a y) x) ->
  (forall x y, f x y = f y x) ->
  foldl f a l = foldr f a l.
Proof.
  intros Hswap Hcomm. induction l as [|x l IH]; cbn; [done|].
  by rewrite foldl_swap_out, Hcomm, IH.
Qed.

Lemma filter_all {A : Type} (P : A -> Prop) `{forall x, Decision (P x)} (l : list A) :
  (forall x, x ∈ l -> P x) -> filter P l = l.
Proof.
  induction l as [|x l IH]; intros HP; [done|].
  rewrite filter_cons_True by (apply HP, elem_of_cons; by left).
  f_equal. apply IH. intros y Hy. apply HP, elem_of_cons. by right.
Qed.

Section ExactArithmetic.
Implicit Types (h : heap Qc) (u : Update Qc) (us : list (Update Qc)).
Implicit Types (L K : string) (n : nat).

Lemma vadd_swap (a x y : list Qc) :
  zip_with Qcplus (zip_with Qcplus a x) y = zip_with Qcplus (zip_with Qcplus a y) x.
Proof.
  revert x y. induction a as [|a0 a IH]; intros [|x0 x] [|y0 y]; cbn; try done.
  f_equal; [ring|apply IH].
Qed.

Lemma vadd_comm (x y : list Qc) : zip_with Qcplus x y = zip_with Qcplus y x.
Proof.
  revert y. induction x as [|x0 x IH]; intros [|y0 y]; cbn; try done.
  f_equal; [ring|apply IH].
Qed.

Lemma add_contribution_swap h L n (a : list Qc) u1 u2 :
  add_contribution h L n (add_contribution h L n a u1) u2
  = add_contribution h L n (add_contribution h L n a u2) u1.
Proof. apply vadd_swap. Qed.

Lemma add_weight_swap (t : Qc) u1 u2 :
  add_weight (add_weight t u1) u2 = add_weight (add_weight t u2) u1.
Proof. unfold add_weight. cbn. ring. Qed.

(** The order of the updates does not matter to a layer, as long as they
    are held in distinct objects. *)
Lemma layer_result_permutation h L n us us' :
  NoDup (weights <$> us) -> us ≡ₚ us' ->
  layer_result h us L n = layer_result h us' L n.
Proof.
  intros Hnd Hp.
  assert (Hnd' : NoDup (weights <$> us')) by (by rewrite <- Hp).
  unfold layer_result, normalise.
  destruct (layer_run_nodup L n h us Hnd) as [-> ->].
  destruct (layer_run_nodup L n h us' Hnd') as [-> ->].
  assert (Hc : contributors h L n us ≡ₚ contributors h L n us').
  { unfold contributors. by rewrite Hp. }
  rewrite (foldl_swap_permutation add_weight _ _ add_weight_swap Hc).
  by rewrite (foldl_swap_permutation (add_contribution h L n) _ _
                (add_contribution_swap h L n) Hc).
Qed.

End ExactArithmetic.

(** C6, as the code has it.  The template is the first update, so the layers
    of the result and their lengths are those of whichever update comes
    first.  For updates held in distinct objects, a permutation whose first
    update carries the layers of the original first update, at the same
    lengths, yields the same result, layer by layer, in exact arithmetic. *)
Theorem aggregate_permutation_same_template
    (modelName : string) (h : heap Qc) (u0 u0' : Update Qc) (us us' : list (Update Qc)) :
  NoDup (weights <$> u0 :: us) ->
  u0 :: us ≡ₚ u0' :: us' ->
  (forall K, length <$> (h !!! weights u0) !! K = length <$> (h !!! weights u0') !! K) ->
  exists r h1 h2,
    aggregateWeightsStreaming modelName h (u0 :: us) = Returned (r, h1) ∧
    aggregateWeightsStreaming modelName h (u0' :: us') = Returned (r, h2).
Proof.
  intros Hnd Hp Hshape.
  destruct (aggregateWeightsStreaming_spec modelName h u0 us) as (r & h1 & Hrun & Hr & _).
  destruct (aggregateWeightsStreaming_spec modelName h u0' us') as (r' & h2 & Hrun' & Hr' & _).
  exists r, h1, h2. split; [done|]. rewrite Hrun'. do 2 f_equal.
  apply map_eq. intros K. rewrite Hr, Hr'. specialize (Hshape K).
  destruct ((h !!! weights u0) !! K) as [t|], ((h !!! weights u0') !! K) as [t'|];
    cbn in *; try done.
  injection Hshape as Hlen. rewrite Hlen. f_equal. symmetry.
  by apply layer_result_permutation.
Qed.

(** The permutations C6 does not survive.  (1) [order_A] supplies [layer0]
    of length 2 and [order_B] of length 1, both with weight 1: whichever
    comes first is the template and the other is skipped, so the two orders
    give [1, 2] and [3]; and when one holds [layer0] and the other
    [layer1], the result has the layer of the first and not the other.
    (2) [shared_light] and [shared_heavy] share their
    object: the one that comes first consumes the layer, so the two orders
    give [2.5] and [3.25].  (3) In binary64, with the same first update and
    three distinct objects of weight 1: [1e308], [1e308], [-1e308] sum to
    infinity in this order and to [1e308] with the last two swapped.
    (4) Likewise [1e16], [1], [-1e16] give [0] in this order and a third
    with the last two swapped. *)
Lemma aggregate_order_matters :
  ([order_A; order_B] ≡ₚ [order_B; order_A] ∧
   result_layer (aggregateWeightsStreaming "m" order_heap [order_A; order_B]) "layer0"
     = Returned (Some [1; 2]%float) ∧
   result_layer (aggregateWeightsStreaming "m" order_heap [order_B; order_A]) "layer0"
     = Returned (Some [3]%float) ∧
   result_layer (aggregateWeightsStreaming "m" named_heap [order_A; order_B]) "layer0"
     = Returned (Some [1]%float) ∧
   result_layer (aggregateWeightsStreaming "m" named_heap [order_B; order_A]) "layer0"
     = Returned None) ∧
  ([shared_light; shared_heavy; shared_other] ≡ₚ [shared_heavy; shared_light; shared_other] ∧
   shared_heap !!! weights shared_light = shared_heap !!! weights shared_heavy ∧
   result_layer (aggregateWeightsStreaming "m" shared_heap
                   [shared_light; shared_heavy; shared_other]) "layer0"
     = Returned (Some [2.5]%float) ∧
   result_layer (aggregateWeightsStreaming "m" shared_heap
                   [shared_heavy; shared_light; shared_other]) "layer0"
     = Returned (Some [3.25]%float)) ∧
  ([unit_A; unit_B; unit_C] ≡ₚ [unit_A; unit_C; unit_B] ∧
   NoDup (weights <$> [unit_A; unit_B; unit_C]) ∧
   result_layer (aggregateWeightsStreaming "m" large_heap [unit_A; unit_B; unit_C]) "layer0"
     = Returned (Some [PrimFloat.infinity]) ∧
   result_layer (aggregateWeightsStreaming "m" large_heap [unit_A; unit_C; unit_B]) "layer0"
     = Returned (Some [1e308 / 3]%float) ∧
   result_layer (aggregateWeightsStreaming "m" absorbed_heap [unit_A; unit_B; unit_C]) "layer0"
     = Returned (Some [0]%float) ∧
   result_layer (aggregateWeightsStreaming "m" absorbed_heap [unit_A; unit_C; unit_B]) "layer0"
     = Returned (Some [1 / 3]%float)).
Proof.
  split; [|split].
  - split; [apply perm_swap|]. repeat split; vm_compute; reflexivity.
  - split; [apply perm_swap|]. split; [reflexivity|]. split; vm_compute; reflexivity.
  - split; [apply perm_skip, perm_swap|].
    split; [cbn; apply (bool_decide_unpack _); by vm_compute|].
    repeat split; vm_compute; reflexivity.
Qed.

(** Uniform weights, where C9 does not hold.  (1) In exact arithmetic,
    [twin_A] and [twin_A2] share the object that holds [4] and [twin_B]
    holds [1]; each weighs 1 and each supplies [layer0] at the template
    length when the call starts.  The first consumes the shared layer and
    the second is skipped: the result is [5/2], and the mean of [4], [4]
    and [1] is [3].  (2) In binary64, two distinct objects that hold
    [1e308], each of weight 1: the sum overflows and the result is
    infinity, where the mean is [1e308]. *)
Lemma uniform_weights_miss_the_mean :
  (Forall (fun u => weight u = 1%Qc ∧ layer_of twin_heap u "layer0" ≠ None
                    ∧ length <$> layer_of twin_heap u "layer0" = Some 1%nat)
     [twin_A; twin_A2; twin_B] ∧
   (o ← result_layer (aggregateWeightsStreaming "m" twin_heap [twin_A; twin_A2; twin_B])
          "layer0";
    Returned (option_map (List.map this) o))
     = Returned (Some [5 # 2]%Q) ∧
   List.map this (unweighted_mean 1 ((fun u => default [] (layer_of twin_heap u "layer0"))
                                       <$> [twin_A; twin_A2; twin_B]))
     = [3 # 1]%Q) ∧
  (Forall (fun u => weight u = 1%float ∧ layer_of large_heap u "layer0" = Some [1e308]%float)
     [unit_A; unit_B] ∧
   NoDup (weights <$> [unit_A; unit_B]) ∧
   result_layer (aggregateWeightsStreaming "m" large_heap [unit_A; unit_B]) "layer0"
     = Returned (Some [PrimFloat.infinity])).
Proof.
  split.
  - split; [by repeat constructor|]. split; vm_compute; reflexivity.
  - split; [by repeat constructor|].
    split; [cbn; apply (bool_decide_unpack _); by vm_compute|].
    vm_compute. reflexivity.
Qed.

Lemma total_of_unit_weights (us : list (Update Qc)) (a : Qc) :
  (forall u, u ∈ us -> weight u = 1%Qc) ->
  foldl add_weight a us = (a + Qc_of_Z (Z.of_nat (length us)))%Qc.
Proof.
  revert a. induction us as [|u us IH]; intros a Hw.
  - cbn [foldl length]. change (Z.of_nat 0) with 0%Z. rewrite Z2Qc_inj_0. ring.
  - cbn [foldl length]. rewrite IH by (intros u' Hu'; apply Hw, elem_of_cons; by right).
    unfold add_weight. cbn. rewrite (Hw u) by (apply elem_of_cons; by left).
    rewrite Nat2Z.inj_succ, <- Z.add_1_l, Z2Qc_inj_add, Z2Qc_inj_1. ring.
Qed.

Lemma sum_of_unit_weights (h : heap Qc) (K : string) (n : nat) (us : list (Update Qc))
    (a : list Qc) :
  (forall u, u ∈ us -> weight u = 1%Qc) ->
  (forall u, u ∈ us -> is_Some (layer_of h u K)) ->
  foldl (add_contribution h K n) a us
  = foldl (zip_with Qcplus) a ((fun u => default [] (layer_of h u K)) <$> us).
Proof.
  revert a. induction us as [|u us IH]; intros a Hw Hown; [done|].
  cbn [foldl fmap list_fmap].
  rewrite IH by (intros u' Hu'; (apply Hw || apply Hown); apply elem_of_cons; by right).
  f_equal. unfold add_contribution, contribution, supplied. f_equal.
  rewrite (Hw u) by (apply elem_of_cons; by left).
  destruct (Hown u) as [v ->]; [apply elem_of_cons; by left|]. cbn [default].
  induction v as [|x v IHv]; [done|].
  cbn. rewrite Qcmult_1_r. by f_equal.
Qed.

(** The [uniform] strategy weighs every participant [1.0]. *)
Lemma uniform_weight_is_one {F : Type} `{JSNumber F} (sampleCount dataQuality : F) :
  calculateClientWeight sampleCount dataQuality uniform = num_one.
Proof. reflexivity. Qed.

(** C9, as the code has it.  Uniform weights give the unweighted mean in
    exact arithmetic, for updates that do not share their objects.  For a
    non-empty list of updates held in distinct objects, each of weight
    [1.0] and each supplying every template layer at the template length,
    the call returns and every template layer of the result is the
    elementwise arithmetic mean of the vectors the updates supply for it. *)
Theorem uniform_weights_give_mean
    (modelName : string) (h : heap Qc) (u0 : Update Qc) (us : list (Update Qc)) :
  NoDup (weights <$> u0 :: us) ->
  (forall u, u ∈ u0 :: us -> weight u = num_one) ->
  (forall u K t, u ∈ u0 :: us -> (h !!! weights u0) !! K = Some t ->
     exists v, (h !!! weights u) !! K = Some v ∧ length v = length t) ->
  exists r h',
    aggregateWeightsStreaming modelName h (u0 :: us) = Returned (r, h') ∧
    dom r = dom (h !!! weights u0) ∧
    (forall K t, (h !!! weights u0) !! K = Some t ->
       r !! K = Some (unweighted_mean (length t)
                        ((fun u => default [] (layer_of h u K)) <$> u0 :: us))).
Proof.
  intros Hnd Hw Hall.
  assert (Hone : forall u, u ∈ u0 :: us -> weight u = 1%Qc) by exact Hw.
  destruct (aggregateWeightsStreaming_spec modelName h u0 us) as (r & h' & Hrun & Hr & _).
  exists r, h'. split; [done|]. split.
  { apply set_eq. intros K. rewrite !elem_of_dom, Hr. by rewrite fmap_is_Some. }
  intros K t Ht. rewrite Hr, Ht. cbn [fmap option_fmap option_map]. f_equal.
  unfold layer_result, normalise.
  destruct (layer_run_nodup K (length t) h (u0 :: us) Hnd) as [-> ->].
  assert (Hc : contributors h K (length t) (u0 :: us) = u0 :: us).
  { apply filter_all. intros u Hu. destruct (Hall u K t Hu Ht) as (v & Hv & Hlen).
    unfold contributes, layer_of. rewrite Hv. by apply Nat.eqb_eq. }
  rewrite Hc, total_of_unit_weights by done.
  rewrite sum_of_unit_weights;
    [|done|intros u Hu; destruct (Hall u K t Hu Ht) as (v & Hv & _); by exists v].
  change (@num_zero Qc _) with 0%Qc. rewrite Qcplus_0_l.
  assert (Hpos : (0 < Qc_of_Z (Z.of_nat (length (u0 :: us))))%Qc).
  { rewrite <- Z2Qc_inj_0. apply (proj1 (Z2Qc_inj_lt 0 _)). cbn [length]. lia. }
  cbn [num_pos exact_number]. rewrite bool_decide_true by done.
  unfold unweighted_mean, vector_sum. rewrite length_fmap.
  f_equal. apply foldl_foldr_comm; [apply vadd_swap|apply vadd_comm].
Qed.

Lemma three_nodup : NoDup (weights <$> [three_A; three_B; three_C]).
Proof. cbn. apply (bool_decide_unpack _). by vm_compute. Qed.

(** The theorem at the three updates of [three_heap], the last two
    swapped. *)
Lemma aggregate_permutation_same_template_witness :
  exists r h1 h2,
    aggregateWeightsStreaming "m" three_heap (three_A :: [three_B; three_C]) = Returned (r, h1) ∧
    aggregateWeightsStreaming "m" three_heap (three_A :: [three_C; three_B]) = Returned (r, h2).
Proof.
  apply (aggregate_permutation_same_template "m" three_heap three_A three_A).
  - exact three_nodup.
  - apply perm_skip, perm_swap.
  - reflexivity.
Defined.

(** The theorem at the three updates of [three_heap]. *)
Lemma uniform_weights_give_mean_witness :
  exists r h',
    aggregateWeightsStreaming "m" three_heap (three_A :: [three_B; three_C]) = Returned (r, h') ∧
    dom r = dom (three_heap !!! weights three_A) ∧
    (forall K t, (three_heap !!! weights three_A) !! K = Some t ->
       r !! K = Some (unweighted_mean (length t)
                        ((fun u => default [] (layer_of three_heap u K))
                           <$> three_A :: [three_B; three_C]))).
Proof.
  apply (uniform_weights_give_mean "m" three_heap three_A [three_B; three_C]).
  - exact three_nodup.
  - intros u Hu. by list_cases Hu.
  - intros u K t Hu Ht. change (three_heap !!! weights three_A) with
      ({["layer0" := [Qc_of_Z 1; Qc_of_Z 2]]} : JSObject Qc) in Ht.
    apply lookup_singleton_Some in Ht as [<- <-].
    list_cases Hu; eexists; (split; [reflexivity|reflexivity]).
Defined.

(** The mean of [1;2], [3;5] and [8;2] is [4;3]. *)
Example uniform_mean_of_three :
  (o ← result_layer (aggregateWeightsStreaming "m" three_heap [three_A; three_B; three_C])
         "layer0";
   Returned (option_map (List.map this) o))
  = Returned (Some [4 # 1; 3 # 1]%Q).
Proof. vm_compute. reflexivity. Qed.

(** The theorem at [idle_A], of weight zero, followed by [idle_B], whose
    [layer0] has another length: [layer0] of the result is [0, 0]. *)
Lemma zero_weight_layer_is_zero_witness :
  exists r h',
    aggregateWeightsStreaming "m" idle_heap (idle_A :: [idle_B]) = Returned (r, h') ∧
    r !! "layer0" = Some (replicate (length [1.5; -2]%float) 0%float).
Proof.
  apply (zero_weight_layer_is_zero "m" idle_heap idle_A [idle_B] "layer0" [1.5; -2]%float).
  - reflexivity.
  - reflexivity.
  - intros u v Hu Hv Hlen. list_cases Hu.
    + vm_compute in Hv. injection Hv as <-. split; [reflexivity|].
      repeat constructor.
    + vm_compute in Hv. injection Hv as <-. discriminate Hlen.
Defined.

(** ** Keys *)

Lemma append_inv_head (s a b : string) : s ++ a = s ++ b -> a = b.
Proof. induction s as [|c s IH]; cbn; [done|]. intros [= Heq]. by apply IH. Qed.

(** ** Model versions *)

Lemma version_number_of (now : Z) : version_number (version_of now) = Some now.
Proof.
  change (version_number (String "v" (NilZero.string_of_int (Z.to_int now))) = Some now).
  cbn [version_number].
  rewrite NilZero.isi.
  - cbn. by rewrite DecimalZ.of_to.
  - destruct now as [|p|p]; cbn; [done| |done].
    intros [= Hp]. by apply (DecimalPos.Unsigned.to_uint_nonnil p).
  - destruct now as [|p|p]; cbn; [done|done|].
    intros [= Hp]. by apply (DecimalPos.Unsigned.to_uint_nonnil p).
Qed.

Lemma saveModelVersion_version now t modelName modelData (st : Store) :
  (saveModelVersion now t modelName modelData st).1 = version_of now.
Proof. reflexivity. Qed.

Lemma aggregateNow_version cfg clk modelName (st st' : Store) version n :
  RitaServer.aggregateNow cfg clk modelName st = Returned (RitaServer.Aggregated version n, st') ->
  version = version_of (RitaServer.round_version clk).
Proof.
  unfold RitaServer.aggregateNow.
  destruct (_ <? _)%nat; [done|].
  destruct (performAggregation _ _ _ _); cbn; [|done].
  by intros [= <- _ _].
Qed.

(** C5, as the code has it.  A version identifier is [v] followed by the
    reading of the wall clock at the commit, in both commit paths.  Of two
    commits, the later one returns the greater identifier exactly when its
    reading of the clock is the greater one: nothing else orders them. *)
Theorem version_follows_the_clock
    (now1 now2 t1 t2 : Z) (modelName : string) (d1 d2 : ModelPayload) (st1 st2 : Store) :
  (saveModelVersion now1 t1 modelName d1 st1).1 = version_of now1 ∧
  version_ltb (saveModelVersion now1 t1 modelName d1 st1).1
              (saveModelVersion now2 t2 modelName d2 st2).1 = (now1 <? now2)%Z ∧
  (forall cfg clk st st' version n,
     RitaServer.aggregateNow cfg clk modelName st
       = Returned (RitaServer.Aggregated version n, st') ->
     version = version_of (RitaServer.round_version clk)).
Proof.
  split; [done|]. split.
  - rewrite !saveModelVersion_version. unfold version_ltb. by rewrite !version_number_of.
  - intros cfg clk st st' version n. apply aggregateNow_version.
Qed.

(** Two commits for one model at the same reading of the clock return the
    same identifier, and a commit after the clock was set back returns a
    smaller one. *)
Lemma same_instant_same_version :
  let first := saveModelVersion 1700000000000 0 "demo-model" demo_payload ∅ in
  let second := saveModelVersion 1700000000000 1 "demo-model" demo_payload first.2 in
  let third := saveModelVersion 1699999999000 2 "demo-model" demo_payload second.2 in
  second.1 = first.1 ∧
  version_ltb first.1 second.1 = false ∧
  version_ltb second.1 third.1 = false ∧
  version_ltb third.1 second.1 = true.
Proof. vm_compute. done. Qed.

(** [saveModelVersion] writes the set of models, [latest] and the history,
    and no other key: the record of the version it returns is not among
    them. *)
Lemma version_key_fresh (modelName version : string) :
  version_key modelName (String "v" version) ≠ latest_key modelName ∧
  version_key modelName (String "v" version) ≠ history_key modelName ∧
  version_key modelName (String "v" version) ≠ "fl:models:set".
Proof.
  unfold version_key, latest_key, history_key. split; [|split].
  - intros H%append_inv_head%append_inv_head. cbn in H. discriminate.
  - intros H%append_inv_head%append_inv_head. cbn in H. discriminate.
  - intros H%(append_inv_head "fl:models:").
    destruct modelName as [|c0 [|c1 [|c2 [|c3 m]]]]; cbn in H; try discriminate.
Qed.

Lemma sadd_lookup_ne t key x (st : Store) k : k ≠ key -> Redis.sadd t key x st !! k = st !! k.
Proof.
  intros Hk. unfold Redis.sadd. destruct (lookup_live t key st) as [e|].
  - destruct (value e); try done; by rewrite lookup_insert_ne.
  - by rewrite lookup_insert_ne.
Qed.

Lemma lpush_lookup_ne t key x (st : Store) k : k ≠ key -> Redis.lpush t key x st !! k = st !! k.
Proof.
  intros Hk. unfold Redis.lpush. destruct (lookup_live t key st) as [e|].
  - destruct (value e); try done; by rewrite lookup_insert_ne.
  - by rewrite lookup_insert_ne.
Qed.

Lemma ltrim_lookup_ne t key n (st : Store) k :
  k ≠ key -> Redis.ltrim_head t key n st !! k = st !! k.
Proof.
  intros Hk. unfold Redis.ltrim_head. destruct (lookup_live t key st) as [e|]; [|done].
  destruct (value e); try done; by rewrite lookup_insert_ne.
Qed.

Lemma saveModelVersion_skips_the_record now t modelName modelData (st : Store) :
  let saved := saveModelVersion now t modelName modelData st in
  saved.2 !! version_key modelName saved.1 = st !! version_key modelName saved.1.
Proof.
  cbn. destruct (version_key_fresh modelName (JS.of_Z now)) as (Hl & Hh & Hs).
  change (version_of now) with (String "v" (JS.of_Z now)).
  rewrite ltrim_lookup_ne, lpush_lookup_ne by done.
  unfold Redis.set. rewrite lookup_insert_ne by done. by rewrite sadd_lookup_ne.
Qed.

(** C4, at a first commit.  [saveModelVersion] on a fresh store returns
    [v1700000000000], sets [latest] and the history, and writes no versioned
    record: reading the model with the version it returned gives [null]. *)
Theorem saveModelVersion_version_unreadable :
  let saved := saveModelVersion 1700000000000 0 "demo-model" demo_payload ∅ in
  saved.1 = "v1700000000000" ∧
  getModelVersion 0 "demo-model" (Some saved.1) saved.2 = None ∧
  getModelVersion 0 "demo-model" None saved.2 = Some (with_version demo_payload saved.1) ∧
  getModelHistory 0 "demo-model" saved.2 = [saved.1].
Proof. vm_compute. done. Qed.

(** ** Patterns and scans *)

Lemma append_cons (c : ascii) (a b : string) : String c a ++ b = String c (a ++ b).
Proof. reflexivity. Qed.

Lemma append_assoc (a b c : string) : (a ++ b) ++ c = a ++ (b ++ c).
Proof. induction a as [|x a IH]; [done|]. rewrite !append_cons. by rewrite IH. Qed.

Lemma strip_star_app (a b b' : string) :
  strip_star b = Some b' -> strip_star (a ++ b) = Some (a ++ b').
Proof.
  intros Hb. induction a as [|c a IH]; [done|].
  rewrite !append_cons.
  destruct (a ++ b) as [|c' r] eqn:Hab; [done|].
  change (strip_star (String c (String c' r))) with (String c <$> strip_star (String c' r)).
  by rewrite IH.
Qed.

Lemma strip_star_updates_pattern (modelName : string) (s : Status) :
  strip_star (updates_pattern modelName s)
  = Some ("fl:{" ++ modelName ++ "}:" ++ status_name s ++ ":" ++ modelName ++ ":").
Proof.
  unfold updates_pattern.
  apply (strip_star_app "fl:{"), strip_star_app, (strip_star_app "}:"), strip_star_app,
    (strip_star_app ":"), strip_star_app.
  reflexivity.
Qed.

Lemma prefix_inv (p k : string) : String.prefix p k = true -> exists rest, k = p ++ rest.
Proof.
  revert k. induction p as [|c p IH]; intros k.
  - intros _. by exists k.
  - destruct k as [|c' k]; cbn; [done|].
    destruct (ascii_dec c c') as [->|]; [|done].
    intros [rest ->]%IH. by exists rest.
Qed.

Lemma prefix_app (p rest : string) : String.prefix p (p ++ rest) = true.
Proof.
  induction p as [|c p IH]; [by destruct rest|].
  rewrite append_cons. cbn.
  destruct (ascii_dec c c) as [_|Hn]; [exact IH|by destruct Hn].
Qed.

(** The keys a scan of the update namespaces returns start with [fl:{]. *)
Lemma matches_updates_pattern modelName s key :
  matches (updates_pattern modelName s) key = true ->
  exists rest, key = "fl:{" ++ modelName ++ "}:" ++ status_name s ++ ":" ++ modelName ++ ":" ++ rest.
Proof.
  unfold matches. rewrite strip_star_updates_pattern.
  intros [rest ->]%prefix_inv. exists rest.
  by rewrite !append_assoc.
Qed.

Lemma elem_of_scan t pattern (st : Store) key :
  key ∈ Redis.scan t pattern st <->
  exists e, st !! key = Some e ∧ matches pattern key = true ∧ live t e = true.
Proof.
  unfold Redis.scan. rewrite list_elem_of_fmap. split.
  - intros [[k e] [-> [[Hm Hl] Hin]%list_elem_of_filter]].
    apply elem_of_map_to_list in Hin. by exists e.
  - intros (e & He & Hm & Hl). exists (key, e). split; [done|].
    apply list_elem_of_filter. split; [done|]. by apply elem_of_map_to_list.
Qed.

Lemma elem_of_getFLUpdates t modelName s (st : Store) key d :
  (key, d) ∈ getFLUpdates t modelName s st <->
  key ∈ scanKeys t (updates_pattern modelName s) st ∧ Redis.get t key st = Some (VUpdate d).
Proof.
  unfold getFLUpdates. rewrite list_elem_of_omap. split.
  - intros (k & Hk & Hg). destruct (Redis.get t k st) as [[]|] eqn:Hget; try done.
    by injection Hg as -> ->.
  - intros [Hk Hg]. exists key. by rewrite Hg.
Qed.

Lemma getFLUpdates_key t modelName s (st : Store) key d :
  (key, d) ∈ getFLUpdates t modelName s st ->
  exists rest,
    key = "fl:{" ++ modelName ++ "}:" ++ status_name s ++ ":" ++ modelName ++ ":" ++ rest.
Proof.
  intros [Hk _]%elem_of_getFLUpdates. apply elem_of_scan in Hk as (e & _ & Hm & _).
  by apply matches_updates_pattern.
Qed.

(** ** The commit of a round *)

Lemma foldl_del_lookup_ne (entries : list (string * LedgerDoc)) (st : Store) key :
  (forall e, e ∈ entries -> e.1 ≠ key) ->
  foldl (fun st' e => Redis.del e.1 st') st entries !! key = st !! key.
Proof.
  revert st. induction entries as [|e entries IH]; intros st Hne; [done|].
  cbn. rewrite IH by (intros e' He'; apply Hne, elem_of_cons; by right).
  unfold Redis.del. apply lookup_delete_ne, Hne, elem_of_cons. by left.
Qed.

(** A round that aggregates writes the record of the version it returns:
    for a week of the store's clock, reading the model with that version
    gives the record of the round. *)
(** X1.  The commit of a round can be read back.  When [aggregateNow]
    replies [aggregated: true] with a version, [getModelVersion] with that
    version returns, for seven days of the store's clock, the record the
    round wrote: it carries the version, the model name and the number of
    participants the round reported. *)
Theorem aggregateNow_version_readable cfg clk modelName (st st' : Store) version n t' :
  RitaServer.aggregateNow cfg clk modelName st
    = Returned (RitaServer.Aggregated version n, st') ->
  (t' < RitaServer.round_store clk + 7 * 24 * 3600 * 1000)%Z ->
  exists p,
    getModelVersion t' modelName (Some version) st' = Some p ∧
    mp_version p = version ∧ mp_modelName p = modelName ∧ mp_participantCount p = n.
Proof.
  unfold RitaServer.aggregateNow.
  set (moved := markPendingToProcessing _ _ _).
  set (updates := getFLUpdates _ _ _ _).
  destruct (_ <? _)%nat; [done|].
  destruct (performAggregation _ _ _ _) as [result|] eqn:Hres; cbn; [|done].
  intros [= <- <- <-] Ht'.
  destruct (version_key_fresh modelName (JS.of_Z (RitaServer.round_version clk)))
    as (Hl & Hh & _).
  change (String "v" (JS.of_Z (RitaServer.round_version clk)))
    with (version_of (RitaServer.round_version clk)) in *.
  eexists. split.
  - unfold getModelVersion. change (String.eqb (version_of _) "") with false. cbn match.
    unfold Redis.get, lookup_live.
    rewrite foldl_del_lookup_ne.
    + rewrite ltrim_lookup_ne, lpush_lookup_ne by done.
      unfold Redis.setex. rewrite lookup_insert_ne by done. rewrite lookup_insert_eq.
      cbn. apply Z.ltb_lt in Ht'. rewrite Ht'. reflexivity.
    + intros [key d] [rest ->]%getFLUpdates_key. cbn. unfold version_key.
      intros Heq. apply (f_equal (fun s => String.get 3 s)) in Heq. cbn in Heq. discriminate.
  - cbn. split; [done|]. split; [done|].
    unfold performAggregation in Hres.
    destruct (aggregateWeightsStreaming _ _ _) as [r|]; cbn in Hres; [|done].
    injection Hres as <-. cbn. unfold updates. by rewrite length_fmap.
Qed.

Lemma returned_components (round : outcome (RitaServer.RoundReply * Store))
    (reply : RitaServer.RoundReply) :
  round_reply round = Returned reply -> round = Returned (reply, store_after round).
Proof. destruct round as [[r st]|msg]; cbn; [by intros [= ->]|done]. Qed.

(** The theorem at the round of the three sites. *)
Lemma aggregateNow_version_readable_witness :
  exists p,
    getModelVersion 1700000000500 "demo-model" (Some "v1700000000403")
      (store_after (RitaServer.aggregateNow demo_config round_clock "demo-model" store_ABC))
      = Some p ∧
    mp_version p = "v1700000000403" ∧ mp_modelName p = "demo-model" ∧
    mp_participantCount p = 3.
Proof.
  apply (aggregateNow_version_readable demo_config round_clock "demo-model" store_ABC).
  - apply returned_components. vm_compute. reflexivity.
  - reflexivity.
Defined.

(** ** The upload route: signatures and replays *)

Lemma nonce_key_not_update_key modelName siteId nonce siteId' ts :
  nonce_key modelName siteId nonce ≠ update_key modelName siteId' ts.
Proof.
  unfold nonce_key, update_key.
  intros H%append_inv_head%append_inv_head. cbn in H. discriminate.
Qed.

(** An accepted upload leaves its nonce reserved for five minutes of the
    store's clock. *)
Lemma enqueue_reserves clk user body size (st st1 : Store) key siteId modelName sz receivedAt :
  enqueue clk user body size st = (Uploaded key siteId modelName sz receivedAt, st1) ->
  st1 !! nonce_key (wu_modelName body) (wu_siteId body) (wu_nonce body)
    = Some {| value := VString "1"; expires := Some (store_now clk + 5 * 60000)%Z |}.
Proof.
  unfold enqueue. destruct (negb _); [done|].
  unfold Redis.set_px_nx. destruct (lookup_live _ _ _); [done|].
  intros [= _ _ _ _ _ <-]. unfold Redis.setex.
  rewrite lookup_insert_ne by (apply not_eq_sym, nonce_key_not_update_key).
  by rewrite lookup_insert_eq.
Qed.

(** While the nonce is reserved, the tail of the route writes nothing and
    replies [409], or [400] when the timestamp is no longer fresh. *)
Lemma enqueue_reserved clk user body size (st : Store) e :
  lookup_live (store_now clk) (nonce_key (wu_modelName body) (wu_siteId body) (wu_nonce body)) st
    = Some e ->
  enqueue clk user body size st
    = (if SecurityUtils.isRecentTimestamp (now_fresh clk) (wu_timestamp body)
       then ReplayDetected else StaleTimestamp, st).
Proof.
  intros He. unfold enqueue. destruct (SecurityUtils.isRecentTimestamp _ _); [|done].
  cbn. unfold Redis.set_px_nx. by rewrite He.
Qed.

(** What the route accepts is what its tail accepts. *)
Lemma post_weights_accepted cfg clk req (st st1 : Store) key siteId modelName sz receivedAt :
  RitaServer.post_weights cfg clk req st = (Uploaded key siteId modelName sz receivedAt, st1) ->
  exists user body signature size,
    req_user req = Some user ∧
    req_signature req = Some signature ∧
    existsb (fun s => SecurityUtils.validateHMAC s signature (DEVICE_HMAC_SECRET cfg))
            (RitaServer.toVerify req) = true ∧
    req_body req ≫= Schema.parse = Some body ∧
    enqueue clk user body size st = (Uploaded key siteId modelName sz receivedAt, st1).
Proof.
  unfold RitaServer.post_weights. destruct (req_user req) as [user|]; [|done].
  destruct (_ <? _)%nat; [done|].
  destruct (req_signature req) as [signature|]; [|done].
  destruct (String.eqb signature ""); [done|].
  destruct (existsb _ _) eqn:Hsig; [|done]. cbn [negb].
  unfold parse_then_enqueue. destruct (req_body req ≫= Schema.parse) as [body|] eqn:Hb; [|done].
  intros Henq. by exists user, body, signature, (String.length (default (req_canonical req) (req_rawBody req))).
Qed.

(** No reply of the route before its tail writes to the store. *)
Lemma post_weights_reserved cfg clk req (st : Store) body e :
  req_body req ≫= Schema.parse = Some body ->
  lookup_live (store_now clk) (nonce_key (wu_modelName body) (wu_siteId body) (wu_nonce body)) st
    = Some e ->
  exists reply,
    RitaServer.post_weights cfg clk req st = (reply, st) ∧
    status_code reply ≠ 200 ∧
    (valid_signed_update cfg clk req body -> reply = ReplayDetected).
Proof.
  intros Hb He. unfold RitaServer.post_weights, valid_signed_update.
  destruct (req_user req) as [user|].
  2:{ exists Unauthorized. split; [done|]. split; [done|]. by intros [[? [=]] _]. }
  destruct (_ <? _)%nat.
  { exists PayloadTooLarge. split; [done|]. split; [done|]. by intros (_ & [=] & _). }
  destruct (req_signature req) as [signature|].
  2:{ exists MissingSignature. split; [done|]. split; [done|].
      by intros (_ & _ & (? & [=] & _) & _). }
  destruct (String.eqb signature "") eqn:Hempty.
  { exists MissingSignature. split; [done|]. split; [done|].
    intros (_ & _ & (? & [= <-] & Hne & _) & _). congruence. }
  destruct (existsb _ _) eqn:Hsig; cbn [negb].
  2:{ exists InvalidSignature. split; [done|]. split; [done|].
      intros (_ & _ & (? & [= <-] & _ & Hok) & _). congruence. }
  unfold parse_then_enqueue. rewrite Hb. rewrite (enqueue_reserved _ _ _ _ _ e He).
  eexists. split; [done|].
  destruct (SecurityUtils.isRecentTimestamp _ _) eqn:Hfresh.
  - split; [done|]. done.
  - split; [done|]. by intros (_ & _ & _ & _ & [=]).
Qed.

(** C2, as the code has it.  An accepted upload leaves its nonce key in the
    store, to expire after five minutes of the store's clock.  In whatever
    store a second request with the same (modelName, siteId, nonce) finds
    that key live (the store the first upload left, for these five minutes,
    or any later one that still has it) the request is never accepted and
    leaves the store as it found it, so no second pending entry exists; when
    the second request is itself a valid signed update, the reply is [409],
    replay detected. *)
Theorem replay_is_rejected
    (cfg : Config) (clk1 clk2 : Clock) (req1 req2 : Request) (st st1 : Store)
    (b1 b2 : WeightUpdate) (key siteId modelName : string) (size : nat) (receivedAt : string) :
  RitaServer.post_weights cfg clk1 req1 st
    = (Uploaded key siteId modelName size receivedAt, st1) ->
  req_body req1 ≫= Schema.parse = Some b1 ->
  req_body req2 ≫= Schema.parse = Some b2 ->
  wu_modelName b2 = wu_modelName b1 ->
  wu_siteId b2 = wu_siteId b1 ->
  wu_nonce b2 = wu_nonce b1 ->
  (forall t, (t < store_now clk1 + 5 * 60000)%Z ->
     is_Some (lookup_live t (nonce_key (wu_modelName b1) (wu_siteId b1) (wu_nonce b1)) st1)) ∧
  (forall st2,
     is_Some (lookup_live (store_now clk2)
                (nonce_key (wu_modelName b1) (wu_siteId b1) (wu_nonce b1)) st2) ->
     exists reply,
       RitaServer.post_weights cfg clk2 req2 st2 = (reply, st2) ∧
       status_code reply ≠ 200 ∧
       (valid_signed_update cfg clk2 req2 b2 -> reply = ReplayDetected)).
Proof.
  intros Hacc Hb1 Hb2 Hm Hs Hn.
  apply post_weights_accepted in Hacc as (user & body & sig & sz & _ & _ & _ & Hb & Henq).
  assert (body = b1) as -> by congruence.
  apply enqueue_reserves in Henq. split.
  - intros t Ht. unfold lookup_live. rewrite Henq. cbn.
    apply Z.ltb_lt in Ht. rewrite Ht. by eexists.
  - intros st2 [e He]. eapply post_weights_reserved; [done|].
    rewrite Hm, Hs, Hn. exact He.
Qed.



(** ** A deployment, end to end *)

Lemma pair_components {A B : Type} (p : A * B) (a : A) (b : B) :
  p.1 = a -> p.2 = b -> p = (a, b).
Proof. destruct p. cbn. by intros -> ->. Qed.

(** The signature of [upload_A] is the HMAC-SHA256 of its text under the
    device secret, as any other implementation computes it. *)
Example upload_A_signature :
  req_signature upload_A
  = Some "c317c88cdf0719f03bf9f9f78ac29d120086d3403ff1bf8aa8d727f77cbf9fab".
Proof. vm_compute. reflexivity. Qed.



(** The theorem at [upload_A] sent twice, 899 ms apart: the second request
    finds the nonce reserved and leaves the store as it was. *)
Lemma replay_is_rejected_witness :
  (forall t, (t < store_now clock_A + 5 * 60000)%Z ->
     is_Some (lookup_live t
                (nonce_key (wu_modelName body_A) (wu_siteId body_A) (wu_nonce body_A)) store_A)) ∧
  (forall st2,
     is_Some (lookup_live (store_now clock_replay)
                (nonce_key (wu_modelName body_A) (wu_siteId body_A) (wu_nonce body_A)) st2) ->
     exists reply,
       RitaServer.post_weights demo_config clock_replay upload_A st2 = (reply, st2) ∧
       status_code reply ≠ 200 ∧
       (valid_signed_update demo_config clock_replay upload_A body_A -> reply = ReplayDetected)).
Proof.
  apply (replay_is_rejected demo_config clock_A clock_replay upload_A upload_A ∅ store_A
           body_A body_A "fl:{demo-model}:pending:demo-model:siteA:1700000000101"
           "siteA" "demo-model" 195 "2023-11-14T22:13:20.101Z").
  - apply pair_components; [vm_compute; reflexivity|unfold store_A; reflexivity].
  - vm_compute. reflexivity.
  - vm_compute. reflexivity.
  - reflexivity.
  - reflexivity.
  - reflexivity.
Defined.

(** The same bytes and signature twice: one [200], one [409], one entry. *)
Example upload_twice :
  (RitaServer.post_weights demo_config clock_A upload_A ∅).1
    = Uploaded "fl:{demo-model}:pending:demo-model:siteA:1700000000101" "siteA" "demo-model" 195
        "2023-11-14T22:13:20.101Z" ∧
  (RitaServer.post_weights demo_config clock_replay upload_A store_A).1 = ReplayDetected ∧
  countPendingForModel 1700000001000 "demo-model"
    (RitaServer.post_weights demo_config clock_replay upload_A store_A).2 = 1.
Proof. by_evaluation. Qed.

Example stale_replay_is_stale :
  let first := RitaServer.post_weights demo_config upload_A_late_first upload_A ∅ in
  let again := RitaServer.post_weights demo_config upload_A_late_again upload_A first.2 in
  status_code first.1 = 200 ∧
  again.1 = StaleTimestamp ∧
  countPendingForModel 1700000301000 "demo-model" again.2 = 1.
Proof. by_evaluation. Qed.

(** One triple, accepted twice.  [upload_A], whose timestamp is
    [1700000000000], is accepted five minutes ahead of it and, the same
    request, once more 301 seconds later: its timestamp is still fresh, its
    nonce key has expired, and the model has two pending entries of the one
    (modelName, siteId, nonce). *)
Lemma reservation_outlived :
  let first := RitaServer.post_weights demo_config upload_A_early upload_A ∅ in
  let again := RitaServer.post_weights demo_config upload_A_after upload_A first.2 in
  status_code first.1 = 200 ∧
  status_code again.1 = 200 ∧
  (store_now upload_A_after - store_now upload_A_early = 301000)%Z ∧
  countPendingForModel 1700000001000 "demo-model" again.2 = 2.
Proof. by_evaluation. Qed.

(** ** A round, end to end *)

(** C7, as the code computes it.  Sites A, B and C upload [layer0] with 120,
    150 and 100 samples; the round, with [minParticipants = 3], reports
    [aggregated: true] with 3 participants, and [layer0] of the version it
    committed is [1.054, -0.508, 0.192, 0.786] within [1e-3]: the means
    390/370, -188/370, 71/370 and 291/370. *)
Theorem three_site_round :
  let round := RitaServer.aggregateNow demo_config round_clock "demo-model" store_ABC in
  round_reply round = Returned (RitaServer.Aggregated "v1700000000403" 3) ∧
  bool_decide (Forall2 (fun x target => within (1 # 1000) x target = true)
                 (committed_layer0 1700000000500 "demo-model" round)
                 [1054 # 1000; -508 # 1000; 192 # 1000; 786 # 1000]%Q) = true.
Proof. by_evaluation. Qed.

(** The values C7 states are not the weighted means: every component of the
    committed [layer0] is further than [1e-3] from them. *)
Lemma three_site_round_claimed_values :
  let round := RitaServer.aggregateNow demo_config round_clock "demo-model" store_ABC in
  round_reply round = Returned (RitaServer.Aggregated "v1700000000403" 3) ∧
  bool_decide (Forall2 (fun x target => within (1 # 1000) x target = false)
                 (committed_layer0 1700000000500 "demo-model" round)
                 [1051 # 1000; -503 # 1000; 208 # 1000; 792 # 1000]%Q) = true.
Proof. by_evaluation. Qed.

(** ** A round without enough participants *)

(** A scan reports a key once. *)
Lemma NoDup_scan t pattern (st : Store) : NoDup (Redis.scan t pattern st).
Proof.
  unfold Redis.scan. eapply sublist_NoDup; [apply (NoDup_fst_map_to_list st)|].
  apply fmap_sublist, sublist_filter.
Qed.

Lemma NoDup_getFLUpdates t modelName s (st : Store) :
  NoDup (getFLUpdates t modelName s st).*1.
Proof.
  unfold getFLUpdates. generalize (NoDup_scan t (updates_pattern modelName s) st).
  unfold scanKeys. induction 1 as [|k ks Hk _ IH]; [constructor|].
  cbn. destruct (Redis.get t k st) as [[]|]; try done.
  cbn. apply NoDup_cons. split; [|done].
  intros [[k' d'] [Heq Hin]]%list_elem_of_fmap. cbn in Heq. subst k'.
  apply list_elem_of_omap in Hin as (k'' & Hk'' & Hg).
  destruct (Redis.get t k'' st) as [[]|]; try done. by injection Hg as -> _.
Qed.

Section RenameAll.
Context (t : Z) (from to : string).
Implicit Types (st : Store) (entries : list (string * LedgerDoc)).

Lemma rename_all_cons e entries st :
  rename_all t from to (e :: entries) st
  = rename_all t from to entries (Redis.rename t e.1 (JS.replace from to e.1) st).
Proof. reflexivity. Qed.

Lemma rename_lookup_other st src dst k :
  k ≠ src -> k ≠ dst -> Redis.rename t src dst st !! k = st !! k.
Proof.
  intros Hs Hd. unfold Redis.rename. destruct (lookup_live t src st); [|done].
  rewrite lookup_insert_ne by done. by rewrite lookup_delete_ne.
Qed.

(** A key that is neither renamed nor the new name of an entry is left
    alone. *)
Lemma rename_all_frame entries st k :
  k ∉ entries.*1 -> k ∉ JS.replace from to <$> entries.*1 ->
  rename_all t from to entries st !! k = st !! k.
Proof.
  revert st. induction entries as [|e entries IH]; intros st Hs Hd; [done|].
  rewrite !fmap_cons in Hs, Hd.
  apply not_elem_of_cons in Hs as [Hs1 Hs2]. apply not_elem_of_cons in Hd as [Hd1 Hd2].
  rewrite rename_all_cons, IH by done. by apply rename_lookup_other.
Qed.

(** When no new name is the key of an entry of the batch and no two
    entries get the same new name, every live entry of the batch ends under
    its new name, and its old key is gone. *)
Lemma rename_all_moves entries st key d e :
  NoDup entries.*1 ->
  (forall k k', k ∈ entries.*1 -> k' ∈ entries.*1 -> JS.replace from to k ≠ k') ->
  (forall k k', k ∈ entries.*1 -> k' ∈ entries.*1 ->
     JS.replace from to k = JS.replace from to k' -> k = k') ->
  (key, d) ∈ entries ->
  lookup_live t key st = Some e ->
  rename_all t from to entries st !! JS.replace from to key = Some e ∧
  rename_all t from to entries st !! key = None.
Proof.
  revert st. induction entries as [|[k0 d0] entries IH]; intros st Hnd Hsd Hinj Hin He.
  { by apply elem_of_nil in Hin. }
  cbn in Hnd. apply NoDup_cons in Hnd as [Hk0 Hnd].
  assert (Hsd' : forall k k', k ∈ entries.*1 -> k' ∈ entries.*1 -> JS.replace from to k ≠ k').
  { intros k k' Hk Hk'. apply Hsd; cbn; apply elem_of_cons; by right. }
  assert (Hinj' : forall k k', k ∈ entries.*1 -> k' ∈ entries.*1 ->
                    JS.replace from to k = JS.replace from to k' -> k = k').
  { intros k k' Hk Hk'. apply Hinj; cbn; apply elem_of_cons; by right. }
  assert (H0 : k0 ∈ ((k0, d0) :: entries).*1) by (cbn; apply elem_of_cons; by left).
  rewrite rename_all_cons. cbn [fst].
  apply elem_of_cons in Hin as [[= -> ->]|Hin].
  - assert (Hd1 : JS.replace from to k0 ∉ entries.*1).
    { intros Hd. apply (Hsd k0 (JS.replace from to k0)); [done| |done].
      cbn. apply elem_of_cons. by right. }
    assert (Hd2 : JS.replace from to k0 ∉ JS.replace from to <$> entries.*1).
    { intros [k' [Heq Hk']]%list_elem_of_fmap. apply Hk0.
      rewrite (Hinj k0 k'); [done|done| |done]. cbn. apply elem_of_cons. by right. }
    assert (Hs2 : k0 ∉ JS.replace from to <$> entries.*1).
    { intros [k' [Heq Hk']]%list_elem_of_fmap. apply (Hsd k' k0); [|done|done].
      cbn. apply elem_of_cons. by right. }
    rewrite !rename_all_frame by done.
    unfold Redis.rename. rewrite He.
    rewrite lookup_insert_eq. split; [done|].
    rewrite lookup_insert_ne by (by apply Hsd). apply lookup_delete_eq.
  - assert (Hk : key ∈ entries.*1) by (apply list_elem_of_fmap; by exists (key, d)).
    apply IH; try done.
    unfold lookup_live in *. rewrite rename_lookup_other; [done| |].
    + intros ->. done.
    + intros ->. apply (Hsd k0 (JS.replace from to k0)); [done| |done].
      cbn. apply elem_of_cons. by right.
Qed.

End RenameAll.

(** *** [key.replace(':processing:', ':pending:')] on the keys of a model *)

Lemma prefix_head_ne (c c' : ascii) (p s : string) :
  c ≠ c' -> String.prefix (String c p) (String c' s) = false.
Proof.
  intros Hne.
  change (String.prefix (String c p) (String c' s))
    with (if ascii_dec c c' then String.prefix p s else false).
  by destruct (ascii_dec c c').
Qed.

Lemma replace_unfold (pattern replacement s : string) :
  JS.replace pattern replacement s
  = if String.prefix pattern s then
      replacement
      ++ string_of_list_ascii (drop (String.length pattern) (list_ascii_of_string s))
    else
      match s with
      | EmptyString => EmptyString
      | String c s' => String c (JS.replace pattern replacement s')
      end.
Proof. by destruct s. Qed.

Lemma replace_skips (pattern replacement : string) (c : ascii) (s : string) :
  String.prefix pattern (String c s) = false ->
  JS.replace pattern replacement (String c s) = String c (JS.replace pattern replacement s).
Proof. intros H. by rewrite replace_unfold, H. Qed.

Lemma replace_hit (pattern replacement s : string) :
  JS.replace pattern replacement (pattern ++ s) = replacement ++ s.
Proof.
  assert (Hdrop : string_of_list_ascii
            (drop (String.length pattern) (list_ascii_of_string (pattern ++ s))) = s).
  { induction pattern as [|c p IH]; [apply string_of_list_ascii_of_string|exact IH]. }
  rewrite replace_unfold, prefix_app. by rewrite Hdrop.
Qed.

Lemma replace_skips_no_colon (m tail : string) :
  no_colon m = true ->
  JS.replace ":processing:" ":pending:" (m ++ tail)
  = m ++ JS.replace ":processing:" ":pending:" tail.
Proof.
  induction m as [|c m IH]; [done|]. cbn [no_colon]. intros [Hc Hm]%andb_prop.
  rewrite !append_cons, replace_skips; [by rewrite IH|].
  apply prefix_head_ne. intros <-. by vm_compute in Hc.
Qed.

Lemma no_colon_marker_comes_first (modelName : string) :
  no_colon modelName = true -> marker_comes_first modelName.
Proof.
  intros Hm rest. unfold processing_key, pending_key.
  do 4 (rewrite append_cons, replace_skips by (by destruct modelName)).
  change ("" ++ ?x) with x.
  rewrite replace_skips_no_colon by done.
  rewrite append_cons, replace_skips by done.
  by rewrite (replace_hit ":processing:" ":pending:").
Qed.

Lemma pending_key_not_processing_key (modelName rest rest' : string) :
  pending_key modelName rest ≠ processing_key modelName rest'.
Proof.
  unfold pending_key, processing_key.
  intros H. apply (append_inv_head "fl:{"), append_inv_head in H. cbn in H. discriminate.
Qed.

Lemma pending_key_inj (modelName rest rest' : string) :
  pending_key modelName rest = pending_key modelName rest' -> rest = rest'.
Proof.
  unfold pending_key.
  intros H.
  apply (append_inv_head "fl:{"), append_inv_head in H.
  apply (append_inv_head "}:pending:"), append_inv_head in H.
  by apply (append_inv_head ":") in H.
Qed.

Lemma matches_processing_key (modelName rest : string) :
  matches (updates_pattern modelName processing) (processing_key modelName rest) = true.
Proof.
  unfold matches. rewrite strip_star_updates_pattern.
  replace (processing_key modelName rest)
    with (("fl:{" ++ modelName ++ "}:" ++ status_name processing ++ ":" ++ modelName ++ ":")
          ++ rest) by (by rewrite !append_assoc).
  apply prefix_app.
Qed.

Lemma matches_pending_key (modelName rest : string) :
  matches (updates_pattern modelName pending) (pending_key modelName rest) = true.
Proof.
  unfold matches. rewrite strip_star_updates_pattern.
  replace (pending_key modelName rest)
    with (("fl:{" ++ modelName ++ "}:" ++ status_name pending ++ ":" ++ modelName ++ ":")
          ++ rest) by (by rewrite !append_assoc).
  apply prefix_app.
Qed.

Lemma getFLUpdates_processing_key t modelName (st : Store) key d :
  (key, d) ∈ getFLUpdates t modelName processing st ->
  exists rest, key = processing_key modelName rest.
Proof. apply getFLUpdates_key. Qed.

Lemma getFLUpdates_live t modelName s (st : Store) key d :
  (key, d) ∈ getFLUpdates t modelName s st ->
  exists e, lookup_live t key st = Some e ∧ value e = VUpdate d.
Proof.
  intros [_ Hg]%elem_of_getFLUpdates. unfold Redis.get in Hg.
  destruct (lookup_live t key st) as [e|]; [|done]. exists e. split; [done|].
  cbn in Hg. by injection Hg.
Qed.

Lemma lookup_live_Some t key (st : Store) e :
  lookup_live t key st = Some e <-> st !! key = Some e ∧ live t e = true.
Proof.
  unfold lookup_live. split.
  - destruct (st !! key) as [e'|]; [|done]. destruct (live t e') eqn:Hl; [|done].
    by intros [= ->].
  - intros [-> Hl]. by rewrite Hl.
Qed.

(** X2.  The revert of a round, for a model whose name is [plain], whose
    two update namespaces hold documents, and whose processing keys have
    the namespace marker as their first [:processing:].  A round that finds
    fewer processing entries than [FL_MIN_PARTICIPANTS] replies
    [aggregated: false] with their number; afterwards the processing
    namespace of the model is empty, every entry the round found is pending
    under the same suffix with the same document, and every key outside the
    two namespaces of the model, a model record among them, is as the
    promotion left it. *)
Theorem revert_restores_every_entry
    (cfg : Config) (clk : RitaServer.RoundClock) (modelName : string) (st : Store) :
  plain modelName = true ->
  ledger_only (RitaServer.round_store clk) modelName st = true ->
  marker_comes_first modelName ->
  (List.length (processing_entries clk modelName st) < FL_MIN_PARTICIPANTS cfg)%nat ->
  exists moved st',
    RitaServer.aggregateNow cfg clk modelName st
      = Returned (RitaServer.NotEnoughParticipants
                    (List.length (processing_entries clk modelName st)) moved, st') ∧
    getFLUpdates (RitaServer.round_store clk) modelName processing st' = [] ∧
    (forall rest d,
        (processing_key modelName rest, d) ∈ processing_entries clk modelName st ->
        (pending_key modelName rest, d)
          ∈ getFLUpdates (RitaServer.round_store clk) modelName pending st') ∧
    (forall key,
        (forall rest, key ≠ processing_key modelName rest) ->
        (forall rest, key ≠ pending_key modelName rest) ->
        st' !! key = promoted clk modelName st !! key).
Proof.
  intros _ _ Hmarker Hfew.
  unfold RitaServer.aggregateNow.
  change (markPendingToProcessing (RitaServer.round_store clk) modelName st).2
    with (promoted clk modelName st).
  change (getFLUpdates (RitaServer.round_store clk) modelName processing
            (promoted clk modelName st))
    with (processing_entries clk modelName st).
  cbv zeta.
  apply Nat.ltb_lt in Hfew. rewrite Hfew.
  set (t := RitaServer.round_store clk) in *.
  set (entries := processing_entries clk modelName st) in *.
  set (st0 := promoted clk modelName st) in *.
  assert (Hshape : forall k, k ∈ entries.*1 -> exists rest, k = processing_key modelName rest).
  { intros k [[k' d] [-> Hin]]%list_elem_of_fmap. by apply getFLUpdates_processing_key in Hin. }
  assert (Hnd : NoDup entries.*1) by apply NoDup_getFLUpdates.
  assert (Hsd : forall k k', k ∈ entries.*1 -> k' ∈ entries.*1 ->
                  JS.replace ":processing:" ":pending:" k ≠ k').
  { intros k k' [r ->]%Hshape [r' ->]%Hshape. rewrite Hmarker.
    apply pending_key_not_processing_key. }
  assert (Hinj : forall k k', k ∈ entries.*1 -> k' ∈ entries.*1 ->
                  JS.replace ":processing:" ":pending:" k
                  = JS.replace ":processing:" ":pending:" k' -> k = k').
  { intros k k' [r ->]%Hshape [r' ->]%Hshape. rewrite !Hmarker.
    by intros ->%pending_key_inj. }
  eexists _, _. split; [reflexivity|]. split; [|split].
  - apply elem_of_nil_inv. intros [key d] Hin.
    pose proof Hin as [rest ->]%getFLUpdates_processing_key.
    apply getFLUpdates_live in Hin as (e & [He Hl]%lookup_live_Some & Hv).
    destruct (decide (processing_key modelName rest ∈ entries.*1)) as [Hsrc|Hsrc].
    + apply list_elem_of_fmap in Hsrc as [[k' d'] [Hk' Hin']]. cbn in Hk'. subst k'.
      pose proof Hin' as (e' & He' & _)%getFLUpdates_live.
      destruct (rename_all_moves t ":processing:" ":pending:" entries st0 _ d' e'
                  Hnd Hsd Hinj Hin' He') as [_ Hgone].
      congruence.
    + rewrite rename_all_frame in He; [|done|].
      * apply Hsrc. apply list_elem_of_fmap. exists (processing_key modelName rest, d).
        split; [done|]. apply elem_of_getFLUpdates. split.
        -- apply elem_of_scan. exists e. split; [done|]. split; [|done].
           apply matches_processing_key.
        -- change (value <$> lookup_live t (processing_key modelName rest) st0
                   = Some (VUpdate d)).
           rewrite (proj2 (lookup_live_Some _ _ _ _) (conj He Hl)). cbn. by rewrite Hv.
      * intros [k [Heq [r ->]%Hshape]]%list_elem_of_fmap. rewrite Hmarker in Heq.
        symmetry in Heq. by apply pending_key_not_processing_key in Heq.
  - intros rest d Hin.
    pose proof Hin as (e & He & Hv)%getFLUpdates_live.
    destruct (rename_all_moves t ":processing:" ":pending:" entries st0 _ d e
                Hnd Hsd Hinj Hin He) as [Hthere _].
    rewrite Hmarker in Hthere.
    apply lookup_live_Some in He as [_ Hl].
    apply elem_of_getFLUpdates. split.
    + apply elem_of_scan. exists e. split; [done|]. split; [|done].
      apply matches_pending_key.
    + unfold Redis.get.
      rewrite (proj2 (lookup_live_Some t (pending_key modelName rest) _ e) (conj Hthere Hl)).
      cbn. by rewrite Hv.
  - intros key Hproc Hpend. apply rename_all_frame.
    + intros [r ->]%Hshape. by apply (Hproc r).
    + intros [k [-> [r ->]%Hshape]]%list_elem_of_fmap. rewrite Hmarker in Hpend.
      by apply (Hpend r).
Qed.

(** The theorem at [demo-model] with two uploads, where three are
    needed. *)
Lemma revert_restores_every_entry_witness :
  exists moved st',
    RitaServer.aggregateNow demo_config round_clock "demo-model" store_AB
      = Returned (RitaServer.NotEnoughParticipants
                    (List.length (processing_entries round_clock "demo-model" store_AB))
                    moved, st') ∧
    getFLUpdates (RitaServer.round_store round_clock) "demo-model" processing st' = [] ∧
    (forall rest d,
        (processing_key "demo-model" rest, d) ∈ processing_entries round_clock "demo-model" store_AB ->
        (pending_key "demo-model" rest, d)
          ∈ getFLUpdates (RitaServer.round_store round_clock) "demo-model" pending st') ∧
    (forall key,
        (forall rest, key ≠ processing_key "demo-model" rest) ->
        (forall rest, key ≠ pending_key "demo-model" rest) ->
        st' !! key = promoted round_clock "demo-model" store_AB !! key).
Proof.
  apply (revert_restores_every_entry demo_config round_clock "demo-model" store_AB).
  - reflexivity.
  - vm_compute. reflexivity.
  - apply no_colon_marker_comes_first. reflexivity.
  - apply Nat.ltb_lt. vm_compute. reflexivity.
Defined.

(** The model name of C3's failing round is not such a model. *)
Example marker_inside_the_name :
  JS.replace ":processing:" ":pending:" (processing_key "a:processing:b" "siteA:1")
  = "fl:{a:pending:b}:processing:a:processing:b:siteA:1".
Proof. reflexivity. Qed.

(** Two uploads for [demo-model]: the round reverts, and both entries are
    pending again. *)
Example revert_restores_pending :
  let round := RitaServer.aggregateNow demo_config round_clock "demo-model" store_AB in
  round_reply round
    = Returned (RitaServer.NotEnoughParticipants 2
        ["fl:{demo-model}:processing:demo-model:siteA:1700000000101";
         "fl:{demo-model}:processing:demo-model:siteB:1700000000202"]) ∧
  (r ← round; Returned (getFLUpdates 1700000000500 "demo-model" pending r.2).*1)
    = Returned ["fl:{demo-model}:pending:demo-model:siteA:1700000000101";
                "fl:{demo-model}:pending:demo-model:siteB:1700000000202"] ∧
  (r ← round; Returned (List.length (getFLUpdates 1700000000500 "demo-model" processing r.2)))
    = Returned 0.
Proof. by_evaluation. Qed.

(** C3, at the model [a:processing:b].  The upload is accepted and pending.
    The round finds one processing entry where three are needed and replies
    [aggregated: false] with 1 participant; its revert renames the entry with
    [key.replace(':processing:', ':pending:')], which rewrites the first
    occurrence, the one inside the model name.  The entry ends under a key of
    neither namespace: the model has no pending and no processing entry left. *)
Theorem revert_loses_entry :
  let round := RitaServer.aggregateNow demo_config round_clock "a:processing:b" store_odd in
  (RitaServer.post_weights demo_config clock_A upload_odd ∅).1
    = Uploaded "fl:{a:processing:b}:pending:a:processing:b:siteA:1700000000101"
        "siteA" "a:processing:b" 199 "2023-11-14T22:13:20.101Z" ∧
  countPendingForModel 1700000000400 "a:processing:b" store_odd = 1 ∧
  round_reply round
    = Returned (RitaServer.NotEnoughParticipants 1
        ["fl:{a:processing:b}:processing:a:processing:b:siteA:1700000000101"]) ∧
  (r ← round; Returned (countPendingForModel 1700000000500 "a:processing:b" r.2)) = Returned 0 ∧
  (r ← round; Returned (List.length (getFLUpdates 1700000000500 "a:processing:b" processing r.2)))
    = Returned 0 ∧
  (r ← round;
   Returned (bool_decide (is_Some (Redis.get 1700000000500
     "fl:{a:pending:b}:processing:a:processing:b:siteA:1700000000101" r.2))))
    = Returned true.
Proof. by_evaluation. Qed.

(** ** The upload route: what it writes *)

Lemma enqueue_rejected clk user body size (st : Store) :
  accepted (enqueue clk user body size st).1 = false -> (enqueue clk user body size st).2 = st.
Proof.
  unfold enqueue. destruct (negb _); [done|].
  destruct (Redis.set_px_nx _ _ _ _ _) as [[] st1]; [|done]. done.
Qed.

Lemma parse_then_enqueue_rejected clk user body size (st : Store) :
  accepted (parse_then_enqueue clk user body size st).1 = false ->
  (parse_then_enqueue clk user body size st).2 = st.
Proof.
  unfold parse_then_enqueue. destruct (body ≫= Schema.parse); [|done].
  apply enqueue_rejected.
Qed.

(** X3.  A request to the upload route that is not accepted leaves the
    store as it found it, under both servers: only the reply [uploaded]
    comes with a write, and a request refused for its user, its size, its
    signature, its body, its timestamp or its nonce reserves no nonce. *)
Theorem rejected_upload_writes_nothing (cfg : Config) (clk : Clock) (req : Request) (st : Store) :
  (accepted (RitaServer.post_weights cfg clk req st).1 = false ->
   (RitaServer.post_weights cfg clk req st).2 = st) ∧
  (accepted (RitaServerV1.post_weights cfg clk req st).1 = false ->
   (RitaServerV1.post_weights cfg clk req st).2 = st).
Proof.
  split.
  - unfold RitaServer.post_weights. destruct (req_user req) as [user|]; [|done].
    destruct (_ <? _)%nat; [done|].
    destruct (req_signature req) as [signature|]; [|done].
    destruct (String.eqb signature ""); [done|].
    destruct (negb _); [done|]. apply parse_then_enqueue_rejected.
  - unfold RitaServerV1.post_weights. destruct (req_user req) as [user|]; [|done].
    destruct (req_rawBody req) as [rawStr|]; [|done].
    destruct (String.eqb rawStr ""); [done|].
    destruct (_ <? _)%nat; [done|].
    destruct (req_signature req) as [signature|]; [|done].
    destruct (String.eqb signature ""); [done|].
    destruct (negb _); [done|]. apply parse_then_enqueue_rejected.
Qed.

Lemma update_key_pending_key modelName siteId ts :
  update_key modelName siteId ts = pending_key modelName (siteId ++ ":" ++ JS.of_Z ts).
Proof. reflexivity. Qed.

(** X4.  A valid signed update whose nonce is not reserved is accepted: the
    reply carries its key, the entry holds the document of the body for one
    hour of the store's clock, and the nonce key and the entry are the only
    keys written.  [getFLUpdates] finds the entry among the pending ones of
    its model when the model name is [plain] and the pending keys of the
    model held documents before. *)
Theorem valid_update_is_stored
    (cfg : Config) (clk : Clock) (req : Request) (body : WeightUpdate) (st : Store) :
  valid_signed_update cfg clk req body ->
  lookup_live (store_now clk)
    (nonce_key (wu_modelName body) (wu_siteId body) (wu_nonce body)) st = None ->
  exists user size st',
    req_user req = Some user ∧
    RitaServer.post_weights cfg clk req st
      = (Uploaded (update_key (wu_modelName body) (wu_siteId body) (now_receipt clk))
           (wu_siteId body) (wu_modelName body) size (iso_receipt clk), st') ∧
    (forall t, (t < store_now clk + 3600 * 1000)%Z ->
       Redis.get t (update_key (wu_modelName body) (wu_siteId body) (now_receipt clk)) st'
       = Some (VUpdate (ledger_doc body (iso_receipt clk) (default "dev" (sub user))))) ∧
    (plain (wu_modelName body) = true ->
     holds_documents (store_now clk) (wu_modelName body) pending st = true ->
     (update_key (wu_modelName body) (wu_siteId body) (now_receipt clk),
      ledger_doc body (iso_receipt clk) (default "dev" (sub user)))
       ∈ getFLUpdates (store_now clk) (wu_modelName body) pending st') ∧
    (forall key,
       key ≠ nonce_key (wu_modelName body) (wu_siteId body) (wu_nonce body) ->
       key ≠ update_key (wu_modelName body) (wu_siteId body) (now_receipt clk) ->
       st' !! key = st !! key).
Proof.
  intros (Huser & Hsize & (signature & Hsig & Hne & Hok) & Hbody & Hfresh) Hnonce.
  destruct Huser as [user Huser].
  set (key := update_key (wu_modelName body) (wu_siteId body) (now_receipt clk)).
  set (doc := ledger_doc body (iso_receipt clk) (default "dev" (sub user))).
  assert (Hget : forall t st0, (t < store_now clk + 3600 * 1000)%Z ->
            Redis.get t key (Redis.setex (store_now clk) key 3600 (VUpdate doc) st0)
            = Some (VUpdate doc)).
  { intros t st0 Ht. unfold Redis.get, lookup_live, Redis.setex. rewrite lookup_insert_eq. cbn.
    apply Z.ltb_lt in Ht. by rewrite Ht. }
  exists user, (String.length (default (req_canonical req) (req_rawBody req))).
  eexists. split; [done|]. split.
  { unfold RitaServer.post_weights. rewrite Huser, Hsize, Hsig, Hne, Hok. cbn [negb].
    unfold parse_then_enqueue. rewrite Hbody. unfold enqueue. rewrite Hfresh. cbn [negb].
    unfold Redis.set_px_nx. rewrite Hnonce. reflexivity. }
  split; [|split].
  - intros t Ht. by apply Hget.
  - intros _ _. apply elem_of_getFLUpdates. split.
    + apply elem_of_scan. eexists. split; [apply lookup_insert_eq|]. split.
      * unfold key. rewrite update_key_pending_key. apply matches_pending_key.
      * cbn. apply Z.ltb_lt. lia.
    + apply Hget. lia.
  - intros k Hk1 Hk2. unfold Redis.setex. by rewrite !lookup_insert_ne.
Qed.

Lemma upload_A_is_valid : valid_signed_update demo_config clock_A upload_A body_A.
Proof.
  split; [by eexists|]. split; [vm_compute; reflexivity|]. split; [|split].
  - eexists. split; [reflexivity|]. split; vm_compute; reflexivity.
  - vm_compute. reflexivity.
  - vm_compute. reflexivity.
Qed.

(** The theorem at the upload of site A into the empty store. *)
Lemma valid_update_is_stored_witness :
  exists user size st',
    req_user upload_A = Some user ∧
    RitaServer.post_weights demo_config clock_A upload_A ∅
      = (Uploaded (update_key (wu_modelName body_A) (wu_siteId body_A) (now_receipt clock_A))
           (wu_siteId body_A) (wu_modelName body_A) size (iso_receipt clock_A), st') ∧
    (forall t, (t < store_now clock_A + 3600 * 1000)%Z ->
       Redis.get t (update_key (wu_modelName body_A) (wu_siteId body_A) (now_receipt clock_A)) st'
       = Some (VUpdate (ledger_doc body_A (iso_receipt clock_A) (default "dev" (sub user))))) ∧
    (update_key (wu_modelName body_A) (wu_siteId body_A) (now_receipt clock_A),
     ledger_doc body_A (iso_receipt clock_A) (default "dev" (sub user)))
      ∈ getFLUpdates (store_now clock_A) (wu_modelName body_A) pending st' ∧
    (forall key,
       key ≠ nonce_key (wu_modelName body_A) (wu_siteId body_A) (wu_nonce body_A) ->
       key ≠ update_key (wu_modelName body_A) (wu_siteId body_A) (now_receipt clock_A) ->
       st' !! key = (∅ : Store) !! key).
Proof.
  destruct (valid_update_is_stored demo_config clock_A upload_A body_A ∅)
    as (user & size & st' & Huser & Hreply & Hentry & Hfound & Hframe).
  - exact upload_A_is_valid.
  - reflexivity.
  - exists user, size, st'. repeat (split; [assumption|]). split; [|exact Hframe].
    apply Hfound; reflexivity.
Defined.

(** The reply of an accepted upload names the key: the model, the site and
    the reading of the clock at the receipt, in milliseconds. *)
Lemma enqueue_accepted clk user body size (st st1 : Store) key siteId modelName sz receivedAt :
  enqueue clk user body size st = (Uploaded key siteId modelName sz receivedAt, st1) ->
  key = update_key modelName siteId (now_receipt clk) ∧
  siteId = wu_siteId body ∧ modelName = wu_modelName body ∧
  st1 !! key = Some {| value := VUpdate (ledger_doc body (iso_receipt clk) (default "dev" (sub user)));
                       expires := Some (store_now clk + 3600 * 1000)%Z |}.
Proof.
  unfold enqueue. destruct (negb _); [done|].
  unfold Redis.set_px_nx. destruct (lookup_live _ _ _); [done|].
  intros [= <- <- <- _ _ <-]. split; [done|]. split; [done|]. split; [done|].
  unfold Redis.setex. by rewrite lookup_insert_eq.
Qed.

(** X5.  Two uploads of one site for one model, accepted within the same
    millisecond of the server's clock, are written under the same key: the
    entry holds the document of the second, and the first is gone. *)
Theorem same_millisecond_uploads_collide
    (cfg : Config) (clk1 clk2 : Clock) (req1 req2 : Request) (st st1 st2 : Store)
    (key1 key2 siteId modelName : string) (size1 size2 : nat) (receivedAt1 receivedAt2 : string) :
  RitaServer.post_weights cfg clk1 req1 st
    = (Uploaded key1 siteId modelName size1 receivedAt1, st1) ->
  RitaServer.post_weights cfg clk2 req2 st1
    = (Uploaded key2 siteId modelName size2 receivedAt2, st2) ->
  now_receipt clk1 = now_receipt clk2 ->
  key2 = key1 ∧
  exists user body,
    req_user req2 = Some user ∧
    req_body req2 ≫= Schema.parse = Some body ∧
    st2 !! key1
      = Some {| value := VUpdate (ledger_doc body (iso_receipt clk2) (default "dev" (sub user)));
                expires := Some (store_now clk2 + 3600 * 1000)%Z |}.
Proof.
  intros H1 H2 Hms.
  apply post_weights_accepted in H1 as (user1 & body1 & sig1 & sz1 & _ & _ & _ & _ & Henq1).
  apply post_weights_accepted in H2 as (user2 & body2 & sig2 & sz2 & Hu2 & _ & _ & Hb2 & Henq2).
  apply enqueue_accepted in Henq1 as (-> & _ & _ & _).
  apply enqueue_accepted in Henq2 as (-> & _ & _ & Hdoc).
  rewrite Hms. split; [done|]. by exists user2, body2.
Qed.

(** The theorem at two uploads of site A in the millisecond
    [1700000000101]. *)
Lemma same_millisecond_uploads_collide_witness :
  "fl:{demo-model}:pending:demo-model:siteA:1700000000101"
  = "fl:{demo-model}:pending:demo-model:siteA:1700000000101" ∧
  exists user body,
    req_user upload_A_second = Some user ∧
    req_body upload_A_second ≫= Schema.parse = Some body ∧
    (RitaServer.post_weights demo_config clock_A upload_A_second store_A).2
      !! "fl:{demo-model}:pending:demo-model:siteA:1700000000101"
      = Some {| value := VUpdate (ledger_doc body (iso_receipt clock_A) (default "dev" (sub user)));
                expires := Some (store_now clock_A + 3600 * 1000)%Z |}.
Proof.
  apply (same_millisecond_uploads_collide demo_config clock_A clock_A upload_A upload_A_second
           ∅ store_A (RitaServer.post_weights demo_config clock_A upload_A_second store_A).2
           "fl:{demo-model}:pending:demo-model:siteA:1700000000101"
           "fl:{demo-model}:pending:demo-model:siteA:1700000000101"
           "siteA" "demo-model" 195 186
           "2023-11-14T22:13:20.101Z" "2023-11-14T22:13:20.101Z").
  - apply pair_components; [vm_compute; reflexivity|unfold store_A; reflexivity].
  - apply pair_components; [vm_compute; reflexivity|reflexivity].
  - reflexivity.
Defined.

(** Two uploads of site A in one millisecond: two receipts, one entry. *)
Example two_receipts_one_entry :
  let second := RitaServer.post_weights demo_config clock_A upload_A_second store_A in
  status_code second.1 = 200 ∧
  countPendingForModel 1700000000101 "demo-model" store_A = 1 ∧
  countPendingForModel 1700000000101 "demo-model" second.2 = 1.
Proof. by_evaluation. Qed.

(** ** [validateHMAC] and the hexadecimal text of a signature *)

Lemma hex_value_hex_digit (n : N) :
  (n < 16)%N -> SecurityUtils.hex_value (Crypto.hex_digit n) = Some n.
Proof.
  intros Hn.
  assert (Hcases : n ∈ (N.of_nat <$> seq 0 16)).
  { apply list_elem_of_fmap. exists (N.to_nat n). split; [by rewrite N2Nat.id|].
    apply elem_of_seq. lia. }
  cbn in Hcases. repeat (apply elem_of_cons in Hcases as [->|Hcases]; [reflexivity|]).
  by apply elem_of_nil in Hcases.
Qed.

Lemma hex_value_upper (c : ascii) : SecurityUtils.hex_value (upper c) = SecurityUtils.hex_value c.
Proof.
  destruct c as [[] [] [] [] [] [] [] []]; reflexivity.
Qed.

Lemma Buffer_from_hex_upper (s : string) :
  SecurityUtils.Buffer_from_hex (toUpperCase s) = SecurityUtils.Buffer_from_hex s.
Proof.
  revert s. fix IH 1. intros [|a [|b rest]]; [done|done|].
  cbn [toUpperCase SecurityUtils.Buffer_from_hex]. rewrite !hex_value_upper.
  destruct (SecurityUtils.hex_value a), (SecurityUtils.hex_value b); try done.
  by rewrite IH.
Qed.

Lemma byte_nibbles (b : N) :
  (b < 256)%N ->
  (N.shiftr b 4 < 16)%N ∧ (N.land b 15 < 16)%N ∧ (16 * N.shiftr b 4 + N.land b 15)%N = b.
Proof.
  intros Hb. rewrite N.shiftr_div_pow2. change 15%N with (N.ones 4). rewrite N.land_ones.
  change (2 ^ 4)%N with 16%N. split; [|split].
  - apply N.Div0.div_lt_upper_bound. lia.
  - apply N.mod_lt. lia.
  - symmetry. apply N.div_mod. lia.
Qed.

(** Decoding the hexadecimal text of bytes gives the bytes back, and goes
    on with what follows the text. *)
Lemma Buffer_from_hex_hex (bs : list N) (tail : string) :
  Forall (fun b => (b < 256)%N) bs ->
  SecurityUtils.Buffer_from_hex (Crypto.hex bs ++ tail)
  = (bs ++ SecurityUtils.Buffer_from_hex tail)%list.
Proof.
  induction 1 as [|b bs Hb _ IH]; [done|].
  destruct (byte_nibbles b Hb) as (Hhi & Hlo & Hsum).
  change (Crypto.hex (b :: bs) ++ tail)
    with (String (Crypto.hex_digit (N.shiftr b 4))
            (String (Crypto.hex_digit (N.land b 15)) (Crypto.hex bs ++ tail))).
  cbn [SecurityUtils.Buffer_from_hex]. rewrite !hex_value_hex_digit by done.
  by rewrite IH, Hsum.
Qed.

Lemma append_empty_r (s : string) : s ++ "" = s.
Proof. induction s as [|c s IH]; [done|]. rewrite append_cons. by rewrite IH. Qed.

Lemma sha256_bytes (msg : list N) : Forall (fun b => (b < 256)%N) (Crypto.sha256 msg).
Proof.
  unfold Crypto.sha256. cbv zeta.
  generalize (foldl Crypto.compress Crypto.initial_hash
                (Crypto.blocks (length (Crypto.words (Crypto.pad msg)))
                   (Crypto.words (Crypto.pad msg)))).
  intros hs. apply Forall_bind. apply Forall_forall. intros x _.
  unfold Crypto.big_endian. apply Forall_fmap, Forall_forall. intros i _. cbn.
  change 255%N with (N.ones 8). rewrite N.land_ones. apply N.mod_lt. lia.
Qed.

Lemma hmac_sha256_bytes (key msg : list N) :
  Forall (fun b => (b < 256)%N) (Crypto.hmac_sha256 key msg).
Proof. apply sha256_bytes. Qed.

Lemma Buffer_from_hex_capitals (bs : list N) (tail : string) :
  Forall (fun b => (b < 256)%N) bs ->
  SecurityUtils.Buffer_from_hex (toUpperCase (Crypto.hex bs) ++ tail)
  = (bs ++ SecurityUtils.Buffer_from_hex tail)%list.
Proof.
  induction 1 as [|b bs Hb _ IH]; [done|].
  destruct (byte_nibbles b Hb) as (Hhi & Hlo & Hsum).
  change (toUpperCase (Crypto.hex (b :: bs)) ++ tail)
    with (String (upper (Crypto.hex_digit (N.shiftr b 4)))
            (String (upper (Crypto.hex_digit (N.land b 15)))
               (toUpperCase (Crypto.hex bs) ++ tail))).
  cbn [SecurityUtils.Buffer_from_hex]. rewrite !hex_value_upper, !hex_value_hex_digit by done.
  by rewrite IH, Hsum.
Qed.

Lemma validateHMAC_unfold (raw signature secret : string) :
  SecurityUtils.validateHMAC raw signature secret
  = bool_decide (SecurityUtils.Buffer_from_hex signature
                 = Crypto.hmac_sha256 (Crypto.bytes_of secret) (Crypto.bytes_of raw)).
Proof.
  unfold SecurityUtils.validateHMAC, Crypto.createHmac_sha256_hex. cbv zeta.
  rewrite <- (append_empty_r (Crypto.hex _)), Buffer_from_hex_hex by apply hmac_sha256_bytes.
  cbn [SecurityUtils.Buffer_from_hex]. rewrite app_nil_r.
  destruct (decide (SecurityUtils.Buffer_from_hex signature
                    = Crypto.hmac_sha256 (Crypto.bytes_of secret) (Crypto.bytes_of raw))) as [->|Hne].
  - by rewrite Nat.eqb_refl, !bool_decide_true.
  - rewrite !(bool_decide_false _ Hne). apply andb_false_r.
Qed.

(** X7.  [validateHMAC] accepts a signature exactly when the bytes its
    leading pairs of hexadecimal digits spell are the HMAC-SHA256 of the
    text under the secret.  The text of the signature is read up to the
    first pair that is not hexadecimal, and no further: the signature of a
    text is accepted in small letters and in capitals, and with anything
    after it that does not begin with two more hexadecimal digits. *)
Theorem validateHMAC_decodes_to_the_mac (raw signature secret : string) :
  (SecurityUtils.validateHMAC raw signature secret = true <->
   SecurityUtils.Buffer_from_hex signature
   = Crypto.hmac_sha256 (Crypto.bytes_of secret) (Crypto.bytes_of raw)) ∧
  (forall tail,
     SecurityUtils.Buffer_from_hex tail = [] ->
     SecurityUtils.validateHMAC raw (Crypto.createHmac_sha256_hex secret raw ++ tail) secret
       = true ∧
     SecurityUtils.validateHMAC raw
       (toUpperCase (Crypto.createHmac_sha256_hex secret raw) ++ tail) secret = true).
Proof.
  split.
  - rewrite validateHMAC_unfold. apply bool_decide_eq_true.
  - intros tail Htail. rewrite !validateHMAC_unfold. unfold Crypto.createHmac_sha256_hex.
    rewrite Buffer_from_hex_hex, Buffer_from_hex_capitals by apply hmac_sha256_bytes.
    rewrite Htail, app_nil_r. by rewrite bool_decide_true.
Qed.

(** A signature followed by more text, and the same in capitals. *)
Example signature_with_a_tail :
  SecurityUtils.validateHMAC "{}" (Crypto.createHmac_sha256_hex "secret" "{}" ++ "0 and more")
    "secret" = true ∧
  SecurityUtils.validateHMAC "{}"
    (toUpperCase (Crypto.createHmac_sha256_hex "secret" "{}") ++ "0 and more") "secret" = true.
Proof. split; vm_compute; reflexivity. Qed.

(** ** The namespaces of two models *)

Lemma prefix_cons_inv (c c' : ascii) (p s : string) :
  String.prefix (String c p) (String c' s) = true -> c = c' ∧ String.prefix p s = true.
Proof.
  change (String.prefix (String c p) (String c' s))
    with (if ascii_dec c c' then String.prefix p s else false).
  by destruct (ascii_dec c c').
Qed.

Lemma prefix_up_to_brace (m m' x y : string) :
  no_brace m = true -> no_brace m' = true ->
  String.prefix (m ++ String "}" x) (m' ++ String "}" y) = true -> m = m'.
Proof.
  revert m'. induction m as [|c m IH]; intros [|c' m'] Hm Hm'.
  - done.
  - change ("" ++ String "}" x) with (String "}" x). rewrite append_cons.
    intros [<- _]%prefix_cons_inv. cbn in Hm'. done.
  - change ("" ++ String "}" y) with (String "}" y). rewrite append_cons.
    intros [-> _]%prefix_cons_inv. cbn in Hm. done.
  - rewrite !append_cons. intros [<- Hp]%prefix_cons_inv.
    cbn in Hm, Hm'. apply andb_prop in Hm as [_ Hm]. apply andb_prop in Hm' as [_ Hm'].
    f_equal. by apply IH.
Qed.

(** A key of the form [fl:{m'}...] matches a pattern of model [m] only when
    [m'] is [m]. *)
Lemma matches_other_model (m m' : string) (s : Status) (rest : string) :
  no_brace m = true -> no_brace m' = true ->
  matches (updates_pattern m s) ("fl:{" ++ m' ++ String "}" rest) = true -> m = m'.
Proof.
  intros Hm Hm'. unfold matches. rewrite strip_star_updates_pattern.
  change ("fl:{" ++ m ++ "}:" ++ status_name s ++ ":" ++ m ++ ":")
    with (String "f" (String "l" (String ":" (String "{"
            (m ++ String "}" (":" ++ status_name s ++ ":" ++ m ++ ":")))))).
  change ("fl:{" ++ m' ++ String "}" rest)
    with (String "f" (String "l" (String ":" (String "{" (m' ++ String "}" rest))))).
  intros [_ [_ [_ [_ Hp]%prefix_cons_inv]%prefix_cons_inv]%prefix_cons_inv]%prefix_cons_inv.
  by eapply prefix_up_to_brace.
Qed.

Lemma enqueue_accepted_store clk user body size (st st1 : Store) key siteId modelName sz receivedAt :
  enqueue clk user body size st = (Uploaded key siteId modelName sz receivedAt, st1) ->
  st1 = Redis.setex (store_now clk)
          (update_key (wu_modelName body) (wu_siteId body) (now_receipt clk)) 3600
          (VUpdate (ledger_doc body (iso_receipt clk) (default "dev" (sub user))))
          (<[nonce_key (wu_modelName body) (wu_siteId body) (wu_nonce body) :=
               {| value := VString "1"; expires := Some (store_now clk + 5 * 60000)%Z |}]> st).
Proof.
  unfold enqueue. destruct (negb _); [done|].
  unfold Redis.set_px_nx. destruct (lookup_live _ _ _); [done|].
  by intros [= _ _ _ _ _ <-].
Qed.

(** X8.  An upload for one model does not change what a round of another
    model finds, pending or processing, as long as neither name holds a
    closing brace and the name of the other model is [plain]. *)
Theorem upload_stays_in_its_namespace
    (cfg : Config) (clk : Clock) (req : Request) (st st' : Store)
    (key siteId modelName : string) (size : nat) (receivedAt : string) (other : string) :
  RitaServer.post_weights cfg clk req st = (Uploaded key siteId modelName size receivedAt, st') ->
  no_brace modelName = true -> no_brace other = true -> String.eqb other modelName = false ->
  plain other = true ->
  forall t s k d,
    (k, d) ∈ getFLUpdates t other s st' <-> (k, d) ∈ getFLUpdates t other s st.
Proof.
  intros Hacc Hm Ho Hne%String.eqb_neq _ t s k d.
  apply post_weights_accepted in Hacc as (user & body & sig & sz & _ & _ & _ & _ & Henq).
  pose proof (enqueue_accepted _ _ _ _ _ _ _ _ _ _ _ Henq) as (Hkey & _ & Hmodel & _).
  subst modelName.
  assert (Hframe : forall k', matches (updates_pattern other s) k' = true -> st' !! k' = st !! k').
  { intros k' Hk'. rewrite (enqueue_accepted_store _ _ _ _ _ _ _ _ _ _ _ Henq).
    unfold Redis.setex.
    rewrite !lookup_insert_ne; [done| |].
    - intros <-. apply Hne.
      change (nonce_key (wu_modelName body) (wu_siteId body) (wu_nonce body))
        with ("fl:{" ++ wu_modelName body
              ++ String "}" (":nonce:" ++ wu_siteId body ++ ":" ++ wu_nonce body)) in Hk'.
      by apply matches_other_model in Hk'.
    - intros <-. apply Hne.
      change (update_key (wu_modelName body) (wu_siteId body) (now_receipt clk))
        with ("fl:{" ++ wu_modelName body
              ++ String "}" (":pending:" ++ wu_modelName body ++ ":" ++ wu_siteId body
                             ++ ":" ++ JS.of_Z (now_receipt clk))) in Hk'.
      by apply matches_other_model in Hk'. }
  rewrite !elem_of_getFLUpdates. unfold scanKeys. rewrite !elem_of_scan.
  unfold Redis.get, lookup_live.
  split.
  - intros [(e & He & Hmatch & Hl) Hg]. rewrite Hframe in He, Hg by done. eauto.
  - intros [(e & He & Hmatch & Hl) Hg]. rewrite <- Hframe in He, Hg by done. eauto.
Qed.

(** The theorem at the upload of site A for [demo-model], read by
    [other-model]. *)
Lemma upload_stays_in_its_namespace_witness :
  ("fl:{other-model}:pending:other-model:siteA:1", ledger_doc body_A "" "")
    ∈ getFLUpdates 1700000000400 "other-model" pending store_A
  <-> ("fl:{other-model}:pending:other-model:siteA:1", ledger_doc body_A "" "")
        ∈ getFLUpdates 1700000000400 "other-model" pending ∅.
Proof.
  apply (upload_stays_in_its_namespace demo_config clock_A upload_A ∅ store_A
           "fl:{demo-model}:pending:demo-model:siteA:1700000000101" "siteA" "demo-model" 195
           "2023-11-14T22:13:20.101Z" "other-model").
  - apply pair_components; [vm_compute; reflexivity|unfold store_A; reflexivity].
  - reflexivity.
  - reflexivity.
  - reflexivity.
  - reflexivity.
Defined.

(** With a closing brace in a model name the namespaces overlap: the entry
    and the nonce key of an upload for the model
    [demo-model}:pending:demo-model:x] are both keys of the pending pattern
    of [demo-model], whose pending namespace then holds the [1] of a nonce
    key next to its documents. *)
Example brace_reaches_another_model :
  let sent := RitaServer.post_weights demo_config clock_A upload_brace ∅ in
  status_code sent.1 = 200 ∧
  scanKeys 1700000000400 (updates_pattern "demo-model" pending) sent.2
  = ["fl:{demo-model}:pending:demo-model:x}:nonce:siteZ:6f1c2a3e-0000-4000-8000-00000000000f";
     "fl:{demo-model}:pending:demo-model:x}:pending:demo-model}:pending:demo-model:x:siteZ:1700000000101"] ∧
  countPendingForModel 1700000000400 "demo-model" sent.2 = 2%nat ∧
  holds_documents 1700000000400 "demo-model" pending sent.2 = false.
Proof. by_evaluation. Qed.

(** ** Moving the entries of a model between its namespaces *)

Lemma status_key_ne (modelName : string) (s s' : Status) (rest rest' : string) :
  s ≠ s' -> status_key modelName s rest ≠ status_key modelName s' rest'.
Proof.
  intros Hs H. unfold status_key in H.
  apply (append_inv_head "fl:{"), append_inv_head in H.
  destruct s, s'; try done; cbn in H; discriminate.
Qed.

Lemma status_key_inj (modelName : string) (s : Status) (rest rest' : string) :
  status_key modelName s rest = status_key modelName s rest' -> rest = rest'.
Proof.
  unfold status_key. intros H.
  apply (append_inv_head "fl:{"), append_inv_head in H.
  apply (append_inv_head "}:"), append_inv_head in H.
  apply (append_inv_head ":"), append_inv_head in H.
  by apply (append_inv_head ":") in H.
Qed.

Lemma matches_status_key (modelName : string) (s : Status) (rest : string) :
  matches (updates_pattern modelName s) (status_key modelName s rest) = true.
Proof.
  unfold matches. rewrite strip_star_updates_pattern.
  replace (status_key modelName s rest)
    with (("fl:{" ++ modelName ++ "}:" ++ status_name s ++ ":" ++ modelName ++ ":") ++ rest)
    by (unfold status_key; by rewrite !append_assoc).
  apply prefix_app.
Qed.

Lemma getFLUpdates_status_key t modelName s (st : Store) key d :
  (key, d) ∈ getFLUpdates t modelName s st -> exists rest, key = status_key modelName s rest.
Proof. apply getFLUpdates_key. Qed.

Lemma getFLUpdates_intro t modelName s (st : Store) rest e d :
  st !! status_key modelName s rest = Some e -> live t e = true -> value e = VUpdate d ->
  (status_key modelName s rest, d) ∈ getFLUpdates t modelName s st.
Proof.
  intros He Hl Hv. apply elem_of_getFLUpdates. split.
  - apply elem_of_scan. exists e. split; [done|]. split; [apply matches_status_key|done].
  - unfold Redis.get. rewrite (proj2 (lookup_live_Some _ _ _ _) (conj He Hl)). cbn. by rewrite Hv.
Qed.

(** Renaming every entry of one namespace of a model into the other, when
    the replacement hits the namespace marker of every key. *)
Lemma rename_namespace t modelName (s s' : Status) (st : Store) :
  s ≠ s' ->
  (forall rest,
     JS.replace (status_marker s) (status_marker s') (status_key modelName s rest)
     = status_key modelName s' rest) ->
  let entries := getFLUpdates t modelName s st in
  let st' := rename_all t (status_marker s) (status_marker s') entries st in
  getFLUpdates t modelName s st' = [] ∧
  (forall rest d,
     (status_key modelName s rest, d) ∈ entries ->
     (status_key modelName s' rest, d) ∈ getFLUpdates t modelName s' st') ∧
  (forall key,
     (forall rest, key ≠ status_key modelName s rest) ->
     (forall rest, key ≠ status_key modelName s' rest) ->
     st' !! key = st !! key).
Proof.
  intros Hs Hmarker entries st'.
  assert (Hshape : forall k, k ∈ entries.*1 -> exists rest, k = status_key modelName s rest).
  { intros k [[k' d] [-> Hin]]%list_elem_of_fmap. by apply getFLUpdates_status_key in Hin. }
  assert (Hnd : NoDup entries.*1) by apply NoDup_getFLUpdates.
  assert (Hsd : forall k k', k ∈ entries.*1 -> k' ∈ entries.*1 ->
                  JS.replace (status_marker s) (status_marker s') k ≠ k').
  { intros k k' [r ->]%Hshape [r' ->]%Hshape. rewrite Hmarker. by apply status_key_ne. }
  assert (Hinj : forall k k', k ∈ entries.*1 -> k' ∈ entries.*1 ->
                  JS.replace (status_marker s) (status_marker s') k
                  = JS.replace (status_marker s) (status_marker s') k' -> k = k').
  { intros k k' [r ->]%Hshape [r' ->]%Hshape. rewrite !Hmarker.
    by intros ->%status_key_inj. }
  split; [|split].
  - apply elem_of_nil_inv. intros [key d] Hin.
    pose proof Hin as [rest ->]%getFLUpdates_status_key.
    apply getFLUpdates_live in Hin as (e & [He Hl]%lookup_live_Some & Hv).
    destruct (decide (status_key modelName s rest ∈ entries.*1)) as [Hsrc|Hsrc].
    + apply list_elem_of_fmap in Hsrc as [[k' d'] [Hk' Hin']]. cbn in Hk'. subst k'.
      pose proof Hin' as (e' & He' & _)%getFLUpdates_live.
      destruct (rename_all_moves t _ _ entries st _ d' e' Hnd Hsd Hinj Hin' He') as [_ Hgone].
      unfold st' in He. congruence.
    + unfold st' in He. rewrite rename_all_frame in He; [|done|].
      * apply Hsrc. apply list_elem_of_fmap. exists (status_key modelName s rest, d).
        split; [done|]. by eapply getFLUpdates_intro.
      * intros [k [Heq [r ->]%Hshape]]%list_elem_of_fmap. rewrite Hmarker in Heq.
        by apply status_key_ne in Heq.
  - intros rest d Hin.
    pose proof Hin as (e & He & Hv)%getFLUpdates_live.
    destruct (rename_all_moves t _ _ entries st _ d e Hnd Hsd Hinj Hin He) as [Hthere _].
    rewrite Hmarker in Hthere. apply lookup_live_Some in He as [_ Hl].
    by eapply getFLUpdates_intro.
  - intros key Hfrom Hto. apply rename_all_frame.
    + intros [r ->]%Hshape. by apply (Hfrom r).
    + intros [k [-> [r ->]%Hshape]]%list_elem_of_fmap. rewrite Hmarker in Hto.
      by apply (Hto r).
Qed.

Lemma replace_skips_name (pattern replacement m tail : string) :
  no_colon m = true ->
  JS.replace (String ":" pattern) replacement (m ++ tail)
  = m ++ JS.replace (String ":" pattern) replacement tail.
Proof.
  induction m as [|c m IH]; [done|]. cbn [no_colon]. intros [Hc Hm]%andb_prop.
  rewrite !append_cons, replace_skips; [by rewrite IH|].
  apply prefix_head_ne. intros <-. by vm_compute in Hc.
Qed.

Lemma no_colon_pending_marker_comes_first (modelName : string) :
  no_colon modelName = true -> pending_marker_comes_first modelName.
Proof.
  intros Hm rest. unfold processing_key, pending_key.
  do 4 (rewrite append_cons, replace_skips by (by destruct modelName)).
  change ("" ++ ?x) with x.
  rewrite (replace_skips_name "pending:") by done.
  rewrite append_cons, replace_skips by done.
  by rewrite (replace_hit ":pending:" ":processing:").
Qed.

(** X9.  The promotion, for a model whose name is [plain], whose two update
    namespaces hold documents, and whose pending keys have the namespace
    marker as their first [:pending:].  [markPendingToProcessing] leaves no
    pending entry; every entry it found is a processing entry under the
    same suffix, with the same document, and its new key is among the keys
    the call returns, one per entry; every key outside the two namespaces
    of the model is as it was. *)
Theorem promotion_moves_every_entry (t : Z) (modelName : string) (st : Store) :
  plain modelName = true ->
  ledger_only t modelName st = true ->
  pending_marker_comes_first modelName ->
  let promotion := markPendingToProcessing t modelName st in
  getFLUpdates t modelName pending promotion.2 = [] ∧
  List.length promotion.1 = List.length (getFLUpdates t modelName pending st) ∧
  (forall rest d,
     (pending_key modelName rest, d) ∈ getFLUpdates t modelName pending st ->
     processing_key modelName rest ∈ promotion.1 ∧
     (processing_key modelName rest, d) ∈ getFLUpdates t modelName processing promotion.2) ∧
  (forall key,
     (forall rest, key ≠ pending_key modelName rest) ->
     (forall rest, key ≠ processing_key modelName rest) ->
     promotion.2 !! key = st !! key).
Proof.
  intros _ _ Hmarker promotion.
  destruct (rename_namespace t modelName pending processing st) as (Hempty & Hmoved & Hframe);
    [done|exact Hmarker|].
  split; [exact Hempty|]. split; [|split].
  - unfold promotion, markPendingToProcessing. cbn. by rewrite length_fmap.
  - intros rest d Hin. split; [|by apply Hmoved].
    unfold promotion, markPendingToProcessing. cbn. apply list_elem_of_fmap.
    exists (pending_key modelName rest, d). split; [|done]. cbn. by rewrite Hmarker.
  - exact Hframe.
Qed.

(** The theorem at [demo-model] with the uploads of sites A and B. *)
Lemma promotion_moves_every_entry_witness :
  let promotion := markPendingToProcessing 1700000000400 "demo-model" store_AB in
  getFLUpdates 1700000000400 "demo-model" pending promotion.2 = [] ∧
  List.length promotion.1 = List.length (getFLUpdates 1700000000400 "demo-model" pending store_AB) ∧
  (forall rest d,
     (pending_key "demo-model" rest, d) ∈ getFLUpdates 1700000000400 "demo-model" pending store_AB ->
     processing_key "demo-model" rest ∈ promotion.1 ∧
     (processing_key "demo-model" rest, d)
       ∈ getFLUpdates 1700000000400 "demo-model" processing promotion.2) ∧
  (forall key,
     (forall rest, key ≠ pending_key "demo-model" rest) ->
     (forall rest, key ≠ processing_key "demo-model" rest) ->
     promotion.2 !! key = store_AB !! key).
Proof.
  apply (promotion_moves_every_entry 1700000000400 "demo-model" store_AB).
  - reflexivity.
  - vm_compute. reflexivity.
  - apply no_colon_pending_marker_comes_first. reflexivity.
Defined.

Lemma store_A_pending :
  getFLUpdates 1700000000400 "demo-model" pending store_A
  = [("fl:{demo-model}:pending:demo-model:siteA:1700000000101",
      ledger_doc body_A "2023-11-14T22:13:20.101Z" "dev-simulator")].
Proof. vm_compute. reflexivity. Qed.

(** ** The reply of a round *)

Lemma performAggregation_returns start finish modelName (d : LedgerDoc) (docs : list LedgerDoc) :
  exists weights,
    performAggregation start finish modelName (d :: docs)
    = Returned {| ar_weights := weights;
                  ar_metadata := {| participantCount := S (List.length docs);
                                    aggregationTimeMs := finish - start;
                                    participants := doc_siteId <$> d :: docs |} |}.
Proof.
  unfold performAggregation.
  destruct (weighted_updates (d :: docs)) as [|u0 us] eqn:Hw.
  { unfold weighted_updates in Hw. by rewrite imap_cons in Hw. }
  destruct (aggregateWeightsStreaming_spec modelName (documents_heap (d :: docs)) u0 us)
    as (r & h' & Hrun & _).
  rewrite Hrun. by exists r.
Qed.

Lemma performAggregation_empty start finish modelName :
  performAggregation start finish modelName [] = Thrown "No updates to aggregate".
Proof. reflexivity. Qed.

(** X10.  For a model whose name is [plain] and whose two update
    namespaces hold documents, the reply of a round is settled by the
    number of processing entries it finds after the promotion: fewer than
    [FL_MIN_PARTICIPANTS] is [aggregated: false] with that number and the
    promoted keys; none at all, with no minimum configured, is the
    aggregator's exception; otherwise [aggregated: true] with that number
    and the version of the clock. *)
Theorem round_reply_by_count
    (cfg : Config) (clk : RitaServer.RoundClock) (modelName : string) (st : Store) :
  plain modelName = true ->
  ledger_only (RitaServer.round_store clk) modelName st = true ->
  round_reply (RitaServer.aggregateNow cfg clk modelName st)
  = let n := List.length (processing_entries clk modelName st) in
    if (n <? FL_MIN_PARTICIPANTS cfg)%nat then
      Returned (RitaServer.NotEnoughParticipants n
                  (markPendingToProcessing (RitaServer.round_store clk) modelName st).1)
    else if (n =? 0)%nat then Thrown "No updates to aggregate"
    else Returned (RitaServer.Aggregated (version_of (RitaServer.round_version clk)) n).
Proof.
  intros _ _.
  unfold RitaServer.aggregateNow, processing_entries, promoted. cbv zeta.
  destruct (_ <? _)%nat; [done|].
  destruct (getFLUpdates _ _ _ _) as [|[k d] entries]; [done|].
  rewrite fmap_cons. cbn [snd].
  destruct (performAggregation_returns (RitaServer.round_start clk) (RitaServer.round_finish clk)
              modelName d (entries.*2)) as [w ->].
  reflexivity.
Qed.

(** The theorem at [demo-model] with the uploads of the three sites: the
    round aggregates them. *)
Lemma round_reply_by_count_witness :
  round_reply (RitaServer.aggregateNow demo_config round_clock "demo-model" store_ABC)
  = Returned (RitaServer.Aggregated "v1700000000403" 3).
Proof.
  rewrite (round_reply_by_count demo_config round_clock "demo-model" store_ABC).
  - vm_compute. reflexivity.
  - reflexivity.
  - vm_compute. reflexivity.
Defined.

(** ** What a round writes *)

Lemma prefix_marker_head (pattern x : string) (c : ascii) :
  c ≠ "p"%char -> String.prefix (String ":" (String "p" pattern)) (String ":" (String c x)) = false.
Proof.
  intros Hc. destruct (String.prefix _ _) eqn:Hp; [|done].
  apply prefix_cons_inv in Hp as [_ [Heq _]%prefix_cons_inv]. by subst.
Qed.

Lemma replace_keeps_head (pattern replacement x : string) :
  JS.replace (String ":" (String "p" pattern)) replacement ("fl:{" ++ x)
  = "fl:{" ++ JS.replace (String ":" (String "p" pattern)) replacement x.
Proof.
  change ("fl:{" ++ x) with (String "f" (String "l" (String ":" (String "{" x)))).
  rewrite replace_skips by (by apply prefix_head_ne).
  rewrite replace_skips by (by apply prefix_head_ne).
  rewrite replace_skips by (by apply prefix_marker_head).
  rewrite replace_skips by (by apply prefix_head_ne).
  reflexivity.
Qed.

Lemma getFLUpdates_update_namespace t modelName s (st : Store) key d :
  (key, d) ∈ getFLUpdates t modelName s st -> update_namespace key = true.
Proof.
  intros [rest ->]%getFLUpdates_key. unfold update_namespace.
  by rewrite (prefix_app "fl:{").
Qed.

Lemma rename_all_outside t (pattern replacement : string) modelName s (st0 st : Store) key :
  update_namespace key = false ->
  rename_all t (String ":" (String "p" pattern)) replacement
    (getFLUpdates t modelName s st0) st !! key = st !! key.
Proof.
  intros Hkey. apply rename_all_frame.
  - intros [[k d] [-> Hin%getFLUpdates_update_namespace]]%list_elem_of_fmap. unfold update_namespace in *. cbn in Hkey. congruence.
  - intros [k [-> [[k' d] [-> Hin]]%list_elem_of_fmap]]%list_elem_of_fmap. cbn in Hkey.
    apply getFLUpdates_key in Hin as [rest ->].
    rewrite replace_keeps_head in Hkey. unfold update_namespace in Hkey.
    by rewrite (prefix_app "fl:{") in Hkey.
Qed.

Lemma promoted_outside clk modelName (st : Store) key :
  update_namespace key = false -> promoted clk modelName st !! key = st !! key.
Proof. intros Hkey. by apply (rename_all_outside _ "ending:"). Qed.


Lemma model_keys_outside (modelName : string) :
  update_namespace (latest_key modelName) = false ∧
  update_namespace (history_key modelName) = false ∧
  (forall version, update_namespace (version_key modelName version) = false) ∧
  update_namespace "fl:models:set" = false.
Proof. done. Qed.

Lemma model_keys_distinct (modelName version : string) :
  latest_key modelName ≠ history_key modelName ∧
  latest_key modelName ≠ "fl:models:set" ∧
  history_key modelName ≠ "fl:models:set".
Proof.
  unfold latest_key, history_key. split; [|split].
  - intros H. apply (append_inv_head "fl:models:"), append_inv_head in H. discriminate.
  - intros H%(append_inv_head "fl:models:").
    destruct modelName as [|c0 [|c1 [|c2 [|c3 m]]]]; cbn in H; try discriminate.
  - intros H%(append_inv_head "fl:models:").
    destruct modelName as [|c0 [|c1 [|c2 [|c3 m]]]]; cbn in H; try discriminate.
Qed.

(** The store of a committed round, key by key. *)
Lemma aggregateNow_committed cfg clk modelName (st st' : Store) version n :
  RitaServer.aggregateNow cfg clk modelName st = Returned (RitaServer.Aggregated version n, st') ->
  exists payload,
    version = version_of (RitaServer.round_version clk) ∧
    n = List.length (processing_entries clk modelName st) ∧
    mp_version payload = version ∧
    st' = foldl (fun st0 e => Redis.del e.1 st0)
            (Redis.ltrim_head (RitaServer.round_store clk) (history_key modelName) 9
               (Redis.lpush (RitaServer.round_store clk) (history_key modelName) version
                  (Redis.setex (RitaServer.round_store clk) (latest_key modelName) (24 * 3600)
                     (VModel payload)
                     (Redis.setex (RitaServer.round_store clk) (version_key modelName version)
                        (7 * 24 * 3600) (VModel payload) (promoted clk modelName st)))))
            (processing_entries clk modelName st).
Proof.
  unfold RitaServer.aggregateNow, processing_entries, promoted. cbv zeta.
  destruct (_ <? _)%nat; [done|].
  destruct (performAggregation _ _ _ _) as [result|]; cbn; [|done].
  intros [= <- <- <-]. eexists. split; [done|]. split; [done|]. split; [|reflexivity]. done.
Qed.

(** X11.  A round writes under the update namespaces and under the model's
    own three keys, and nowhere else; the metrics, which count the names
    in [fl:models:set], read the same before and after any round. *)
Theorem round_writes_under_its_keys
    (cfg : Config) (clk : RitaServer.RoundClock) (modelName : string) (st st' : Store)
    (reply : RitaServer.RoundReply) :
  RitaServer.aggregateNow cfg clk modelName st = Returned (reply, st') ->
  (forall key,
     update_namespace key = false ->
     key ∉ [version_key modelName (version_of (RitaServer.round_version clk));
            latest_key modelName; history_key modelName] ->
     st' !! key = st !! key) ∧
  (forall min_participants t,
     MetricsService.getSystemMetrics min_participants t st'
     = MetricsService.getSystemMetrics min_participants t st).
Proof.
  intros Hround.
  assert (Hframe : forall key,
    update_namespace key = false ->
    key ∉ [version_key modelName (version_of (RitaServer.round_version clk));
           latest_key modelName; history_key modelName] ->
    st' !! key = st !! key).
  { intros key Hout Hkeys.
    apply not_elem_of_cons in Hkeys as [Hv Hkeys].
    apply not_elem_of_cons in Hkeys as [Hl Hkeys].
    apply not_elem_of_cons in Hkeys as [Hh _].
    destruct reply as [n moved|version n].
    - unfold RitaServer.aggregateNow in Hround. cbv zeta in Hround.
      destruct (_ <? _)%nat.
      + injection Hround as _ _ <-.
        rewrite (rename_all_outside _ "rocessing:") by done.
        by apply promoted_outside.
      + destruct (performAggregation _ _ _ _); cbn in Hround; done.
    - apply aggregateNow_committed in Hround as (payload & -> & _ & _ & ->).
      rewrite foldl_del_lookup_ne.
      + rewrite ltrim_lookup_ne, lpush_lookup_ne by done. unfold Redis.setex.
        rewrite !lookup_insert_ne by done. by apply promoted_outside.
      + intros [k d] Hin%getFLUpdates_update_namespace. cbn. congruence. }
  split; [exact Hframe|].
  intros min_participants t. unfold MetricsService.getSystemMetrics, Redis.scard, Redis.get.
  unfold lookup_live. rewrite Hframe; [done|done|].
  destruct (version_key_fresh modelName (JS.of_Z (RitaServer.round_version clk))) as (_ & _ & Hv).
  destruct (model_keys_distinct modelName "") as (_ & Hl & Hh).
  intros Hin. apply elem_of_cons in Hin as [Heq|Hin]; [by symmetry in Heq|].
  apply elem_of_cons in Hin as [Heq|Hin]; [by symmetry in Heq|].
  apply elem_of_cons in Hin as [Heq|Hin]; [by symmetry in Heq|].
  by apply elem_of_nil in Hin.
Qed.

(** The theorem at the round of the three sites. *)
Lemma round_writes_under_its_keys_witness :
  (forall key,
     update_namespace key = false ->
     key ∉ [version_key "demo-model" (version_of (RitaServer.round_version round_clock));
            latest_key "demo-model"; history_key "demo-model"] ->
     store_after (RitaServer.aggregateNow demo_config round_clock "demo-model" store_ABC) !! key
     = store_ABC !! key) ∧
  (forall min_participants t,
     MetricsService.getSystemMetrics min_participants t
       (store_after (RitaServer.aggregateNow demo_config round_clock "demo-model" store_ABC))
     = MetricsService.getSystemMetrics min_participants t store_ABC).
Proof.
  apply (round_writes_under_its_keys demo_config round_clock "demo-model" store_ABC
           (store_after (RitaServer.aggregateNow demo_config round_clock "demo-model" store_ABC))
           (RitaServer.Aggregated "v1700000000403" 3)).
  apply returned_components. vm_compute. reflexivity.
Defined.

(** ** What a committed round leaves *)



Lemma lrange_all_ext t key (st1 st2 : Store) :
  st1 !! key = st2 !! key -> Redis.lrange_all t key st1 = Redis.lrange_all t key st2.
Proof. intros H. unfold Redis.lrange_all, Redis.get, lookup_live. by rewrite H. Qed.

Lemma live_expires t (e : Entry) (v : Value) :
  live t {| value := v; expires := expires e |} = live t e.
Proof. reflexivity. Qed.

(** [LPUSH] then [LTRIM 0 9] on a key that holds a list, or nothing: the
    new element, then the first nine of the old ones. *)
Lemma history_pushed t key v (st : Store) :
  match Redis.get t key st with Some (VList _) | None => true | Some _ => false end = true ->
  Redis.lrange_all t key (Redis.ltrim_head t key 9 (Redis.lpush t key v st))
  = take 10 (v :: Redis.lrange_all t key st).
Proof.
  unfold Redis.lrange_all, Redis.get, Redis.ltrim_head, Redis.lpush, lookup_live.
  destruct (st !! key) as [e|] eqn:He.
  - destruct (live t e) eqn:Hl.
    + cbn. destruct (value e) as [| | |l|] eqn:Hv; try done. intros _.
      rewrite lookup_insert_eq, live_expires, Hl. cbn [value expires].
      rewrite lookup_insert_eq, live_expires, Hl. done.
    + intros _. rewrite lookup_insert_eq. cbn. rewrite lookup_insert_eq. done.
  - intros _. rewrite lookup_insert_eq. cbn. rewrite lookup_insert_eq. done.
Qed.

(** X13.  After a committed round the model read without a version is the
    model read with the version the round returned, for the day [latest]
    lasts; and the route [GET /api/v1/fl/model/:modelName] lists that
    version first among at most ten. *)
Theorem latest_is_the_committed_version
    (cfg : Config) (clk : RitaServer.RoundClock) (modelName : string) (st st' : Store)
    (version : string) (n : nat) :
  RitaServer.aggregateNow cfg clk modelName st = Returned (RitaServer.Aggregated version n, st') ->
  history_is_list (RitaServer.round_store clk) modelName st = true ->
  exists payload,
    mp_version payload = version ∧
    (forall t, (t < RitaServer.round_store clk + 24 * 3600 * 1000)%Z ->
       getModelVersion t modelName None st' = Some payload ∧
       getModelVersion t modelName (Some version) st' = Some payload) ∧
    RitaServer.get_model (RitaServer.round_store clk) modelName None st'
    = Some (payload,
            take 10 (version :: getModelHistory (RitaServer.round_store clk) modelName st)).
Proof.
  intros (payload & -> & _ & Hversion & ->)%aggregateNow_committed Hhistory.
  set (t0 := RitaServer.round_store clk) in *.
  set (version := version_of (RitaServer.round_version clk)) in *.
  destruct (version_key_fresh modelName (JS.of_Z (RitaServer.round_version clk)))
    as (Hvl & Hvh & _).
  change (String "v" (JS.of_Z (RitaServer.round_version clk))) with version in *.
  destruct (model_keys_distinct modelName "") as (Hlh & _ & _).
  destruct (model_keys_outside modelName) as (Hlk & Hhk & Hvk & _).
  assert (Hkeep : forall key (st0 : Store), update_namespace key = false ->
    foldl (fun st1 e0 => Redis.del e0.1 st1) st0 (processing_entries clk modelName st) !! key
    = st0 !! key).
  { intros key st0 Hkey. apply foldl_del_lookup_ne.
    intros [k d] Hin%getFLUpdates_update_namespace. cbn. congruence. }
  assert (Hlatest : forall t, (t < t0 + 24 * 3600 * 1000)%Z ->
            getModelVersion t modelName None
              (foldl (fun st1 e0 => Redis.del e0.1 st1)
                 (Redis.ltrim_head t0 (history_key modelName) 9
                    (Redis.lpush t0 (history_key modelName) version
                       (Redis.setex t0 (latest_key modelName) (24 * 3600) (VModel payload)
                          (Redis.setex t0 (version_key modelName version) (7 * 24 * 3600)
                             (VModel payload) (promoted clk modelName st)))))
                 (processing_entries clk modelName st)) = Some payload).
  { intros t Ht. unfold getModelVersion, Redis.get, lookup_live.
    rewrite Hkeep, ltrim_lookup_ne, lpush_lookup_ne by done.
    unfold Redis.setex. rewrite lookup_insert_eq. cbn.
    apply Z.ltb_lt in Ht. by rewrite Ht. }
  exists payload. split; [done|]. split.
  - intros t Ht. split; [by apply Hlatest|].
    unfold getModelVersion. change (String.eqb version "") with false. cbn match.
    unfold Redis.get, lookup_live.
    rewrite Hkeep, ltrim_lookup_ne, lpush_lookup_ne by done.
    unfold Redis.setex. rewrite lookup_insert_ne by done. rewrite lookup_insert_eq. cbn.
    assert ((t <? t0 + 7 * 24 * 3600 * 1000)%Z = true) as -> by (apply Z.ltb_lt; lia). done.
  - unfold RitaServer.get_model. rewrite Hlatest by lia. cbn [mbind option_bind]. do 2 f_equal.
    rewrite (lrange_all_ext _ _ _ _ (Hkeep _ _ Hhk)).
    rewrite history_pushed.
    + do 2 f_equal. apply lrange_all_ext. unfold Redis.setex.
      rewrite !lookup_insert_ne by done. by apply promoted_outside.
    + etrans; [|exact Hhistory].
      unfold history_is_list, Redis.get, lookup_live, Redis.setex.
      rewrite !lookup_insert_ne by done. by rewrite promoted_outside.
Qed.

(** The theorem at the round of the three sites, on a store without
    history. *)
Lemma latest_is_the_committed_version_witness :
  exists payload,
    mp_version payload = "v1700000000403" ∧
    (forall t, (t < RitaServer.round_store round_clock + 24 * 3600 * 1000)%Z ->
       getModelVersion t "demo-model" None
         (store_after (RitaServer.aggregateNow demo_config round_clock "demo-model" store_ABC))
         = Some payload ∧
       getModelVersion t "demo-model" (Some "v1700000000403")
         (store_after (RitaServer.aggregateNow demo_config round_clock "demo-model" store_ABC))
         = Some payload) ∧
    RitaServer.get_model (RitaServer.round_store round_clock) "demo-model" None
      (store_after (RitaServer.aggregateNow demo_config round_clock "demo-model" store_ABC))
    = Some (payload,
            take 10 ("v1700000000403"
                     :: getModelHistory (RitaServer.round_store round_clock) "demo-model" store_ABC)).
Proof.
  apply (latest_is_the_committed_version demo_config round_clock "demo-model" store_ABC
           (store_after (RitaServer.aggregateNow demo_config round_clock "demo-model" store_ABC))
           "v1700000000403" 3).
  - apply returned_components. vm_compute. reflexivity.
  - vm_compute. reflexivity.
Defined.

(** ** [saveModelVersion]: what it leaves to read *)

Lemma saveModelVersion_latest now t modelName modelData (st : Store) t' :
  getModelVersion t' modelName None (saveModelVersion now t modelName modelData st).2
  = Some (with_version modelData (version_of now)).
Proof.
  destruct (model_keys_distinct modelName "") as (Hlh & _ & _).
  unfold getModelVersion, Redis.get, lookup_live. cbn [saveModelVersion fst snd].
  rewrite ltrim_lookup_ne, lpush_lookup_ne by done.
  unfold Redis.set. by rewrite lookup_insert_eq.
Qed.

Lemma saveModelVersion_history now t modelName modelData (st : Store) :
  history_is_list t modelName st = true ->
  getModelHistory t modelName (saveModelVersion now t modelName modelData st).2
  = take 10 (version_of now :: getModelHistory t modelName st).
Proof.
  intros Hhistory.
  destruct (model_keys_distinct modelName "") as (Hlh & _ & Hhs).
  assert (Hbase : forall v, Redis.set (latest_key modelName) v
                    (Redis.sadd t "fl:models:set" modelName st) !! history_key modelName
                  = st !! history_key modelName).
  { intros v. unfold Redis.set. rewrite lookup_insert_ne by done. by apply sadd_lookup_ne. }
  unfold getModelHistory. cbn [saveModelVersion snd]. rewrite history_pushed.
  - do 2 f_equal. by apply lrange_all_ext.
  - etrans; [|exact Hhistory]. unfold history_is_list, Redis.get, lookup_live.
    by rewrite Hbase.
Qed.

(** X14.  What [saveModelVersion] leaves to read.  Read without a version,
    at any later time, the model is the data that was saved, with the
    version the call returned: [latest] is set without expiry.  When the
    history key held a list, or nothing, the history is the new version
    followed by the first nine of the versions listed before. *)
Theorem saved_model_can_be_read
    (now t : Z) (modelName : string) (modelData : ModelPayload) (st : Store) :
  (forall t',
     getModelVersion t' modelName None (saveModelVersion now t modelName modelData st).2
     = Some (with_version modelData (saveModelVersion now t modelName modelData st).1)) ∧
  (history_is_list t modelName st = true ->
   getModelHistory t modelName (saveModelVersion now t modelName modelData st).2
   = take 10 ((saveModelVersion now t modelName modelData st).1
              :: getModelHistory t modelName st)).
Proof.
  split.
  - intros t'. apply saveModelVersion_latest.
  - apply saveModelVersion_history.
Qed.

(** Eleven saves leave ten versions, the last one first. *)
Example eleven_saves_ten_versions :
  let save n st := (saveModelVersion (1700000000000 + n) 5 "demo-model" demo_payload st).2 in
  let st := foldr save ∅ [10; 9; 8; 7; 6; 5; 4; 3; 2; 1; 0]%Z in
  List.length (getModelHistory 5 "demo-model" st) = 10%nat ∧
  head (getModelHistory 5 "demo-model" st) = Some "v1700000000010" ∧
  last (getModelHistory 5 "demo-model" st) = Some "v1700000000001".
Proof. by_evaluation. Qed.

(** X15.  [saveModelVersion] enters the model in [fl:models:set], once
    however often it is saved: the metrics count the names of the set and
    the model. *)
Theorem saving_registers_the_model_once
    (now t : Z) (modelName : string) (modelData : ModelPayload) (st : Store)
    (min_participants : nat) :
  models_set_is_set t st = true ->
  MetricsService.getSystemMetrics min_participants t
    (saveModelVersion now t modelName modelData st).2
  = Returned {| MetricsService.activeModels := size ({[modelName]} ∪ models_set t st);
                MetricsService.totalPendingUpdates := 0;
                MetricsService.minParticipants := min_participants |}.
Proof.
  intros Hset.
  destruct (model_keys_distinct modelName "") as (_ & Hls & Hhs).
  unfold MetricsService.getSystemMetrics, Redis.scard, Redis.get, lookup_live.
  cbn [saveModelVersion snd].
  rewrite ltrim_lookup_ne, lpush_lookup_ne by done.
  unfold Redis.set. rewrite lookup_insert_ne by done.
  unfold models_set_is_set, models_set, Redis.get, lookup_live in *.
  unfold Redis.sadd, lookup_live.
  destruct (st !! "fl:models:set") as [e|] eqn:He.
  - destruct (live t e) eqn:Hl.
    + cbn in Hset. destruct (value e) as [| | | |s] eqn:Hv; try done.
      rewrite lookup_insert_eq, live_expires, Hl. cbn. by rewrite Hv.
    + rewrite lookup_insert_eq. cbn. by rewrite union_empty_r_L.
  - rewrite lookup_insert_eq. cbn. by rewrite union_empty_r_L.
Qed.

(** The theorem at a first save of [demo-model]. *)
Lemma saving_registers_the_model_once_witness :
  let first := (saveModelVersion 1700000000000 5 "demo-model" demo_payload ∅).2 in
  MetricsService.getSystemMetrics 3 5
    (saveModelVersion 1700000000001 5 "demo-model" demo_payload first).2
  = Returned {| MetricsService.activeModels := size ({["demo-model"]} ∪ models_set 5 first);
                MetricsService.totalPendingUpdates := 0;
                MetricsService.minParticipants := 3 |}.
Proof.
  apply (saving_registers_the_model_once 1700000000001 5 "demo-model" demo_payload). reflexivity.
Defined.

Example saved_twice_counted_once :
  let first := (saveModelVersion 1700000000000 5 "demo-model" demo_payload ∅).2 in
  let second := (saveModelVersion 1700000000001 6 "demo-model" demo_payload first).2 in
  (m ← MetricsService.getSystemMetrics 3 7 second; Returned (MetricsService.activeModels m))
  = Returned 1%nat.
Proof. vm_compute. reflexivity. Qed.

(** ** The aggregator: the shape of the result, and what is left of the input *)

Section AggregatorShape.
Context {F : Type} `{JSNumber F}.
Implicit Types (h : heap F) (u : Update F) (us : list (Update F)).
Implicit Types (s : LayerAcc F) (L K : string) (l : loc) (n : nat).

Lemma visit_sum_length L n s u : length (acc_sum s) = n -> length (acc_sum (visit L n s u)) = n.
Proof.
  intros Hs. rewrite visit_unfold.
  destruct (contributes L n (acc_heap s) u) eqn:Hc; [|done]. cbn.
  assert (Hv : length (supplied (acc_heap s) L n u) = n).
  { unfold supplied. unfold contributes in Hc.
    destruct (layer_of (acc_heap s) u L); [by apply Nat.eqb_eq|apply length_replicate]. }
  unfold contribution. rewrite length_zip_with, length_fmap. lia.
Qed.

Lemma run_sum_length L n us s :
  length (acc_sum s) = n -> length (acc_sum (foldl (visit L n) s us)) = n.
Proof.
  revert s. induction us as [|u us IH]; intros s Hs; [done|].
  cbn. by apply IH, visit_sum_length.
Qed.

Lemma layer_result_length h us L n : length (layer_result h us L n) = n.
Proof.
  unfold layer_result, normalise, layer_run.
  assert (Hlen : length (acc_sum (foldl (visit L n) (layer_start h n) us)) = n).
  { apply run_sum_length. cbn. apply length_replicate. }
  destruct (num_pos _); [by rewrite length_fmap|done].
Qed.

(** A vector whose length is not the one the loop sums is never deleted. *)
Lemma run_cell_kept L n us s l v :
  (acc_heap s !!! l) !! L = Some v -> length v ≠ n ->
  (acc_heap (foldl (visit L n) s us) !!! l) !! L = Some v.
Proof.
  revert s. induction us as [|u us IH]; intros s Hv Hlen; [done|].
  cbn. apply IH; [|done]. rewrite visit_unfold.
  destruct (contributes L n (acc_heap s) u) eqn:Hc; [|done]. cbn.
  destruct (decide (weights u = l)) as [Heq|Hl].
  - subst l. unfold contributes, layer_of in Hc. rewrite Hv in Hc. by apply Nat.eqb_eq in Hc.
  - by rewrite lookup_total_insert_ne.
Qed.

(** The loops touch the objects of the updates only. *)
Lemma run_object_other L n us s l :
  l ∉ weights <$> us -> acc_heap (foldl (visit L n) s us) !!! l = acc_heap s !!! l.
Proof.
  revert s. induction us as [|u us IH]; intros s Hl; [done|].
  rewrite fmap_cons in Hl. apply not_elem_of_cons in Hl as [Hu Hl].
  cbn. rewrite IH by done. rewrite visit_unfold.
  destruct (contributes L n (acc_heap s) u); [|done]. cbn.
  by rewrite lookup_total_insert_ne.
Qed.

Lemma aggregate_layers_frame us t keys h r h' r' :
  aggregate_layers us t keys (h, r) = Returned (h', r') ->
  forall l K, K ∉ keys -> (h' !!! l) !! K = (h !!! l) !! K.
Proof.
  revert h r. induction keys as [|K0 keys IH]; intros h r.
  { cbn. by intros [= <- <-]. }
  cbn [aggregate_layers]. unfold aggregate_layer. cbn [fst snd].
  destruct ((h !!! t) !! K0) as [t0|]; [|done].
  change (Returned ?x ≫= ?f) with (f x). cbv beta.
  intros Hrun l K [HK Hkeys]%not_elem_of_cons.
  rewrite (IH _ _ Hrun) by done. unfold layer_run. by rewrite run_cell_other.
Qed.

Lemma aggregate_layers_kept us t keys h r h' r' :
  NoDup keys ->
  aggregate_layers us t keys (h, r) = Returned (h', r') ->
  (forall l, l ∉ weights <$> us -> h' !!! l = h !!! l) ∧
  (forall l K v t0,
     (h !!! l) !! K = Some v -> (h !!! t) !! K = Some t0 -> length v ≠ length t0 ->
     (h' !!! l) !! K = Some v).
Proof.
  intros Hnd. revert h r. induction Hnd as [|K0 keys HK0 Hnd IH]; intros h r.
  { cbn. by intros [= <- <-]. }
  cbn [aggregate_layers]. unfold aggregate_layer. cbn [fst snd].
  destruct ((h !!! t) !! K0) as [t0|] eqn:Ht0; [|done].
  change (Returned ?x ≫= ?f) with (f x). cbv beta.
  intros Hrun. destruct (IH _ _ Hrun) as [Hobj Hkept].
  split.
  - intros l Hl. rewrite Hobj by done. by apply run_object_other.
  - intros l K v t1 Hv Ht1 Hlen.
    destruct (decide (K = K0)) as [->|HK].
    + assert (t1 = t0) as -> by congruence.
      rewrite (aggregate_layers_frame _ _ _ _ _ _ _ Hrun) by done.
      by apply run_cell_kept.
    + apply (Hkept l K v t1); [| |done]; unfold layer_run; by rewrite run_cell_other.
Qed.

End AggregatorShape.

(** X16.  When the first update has no layer named [__proto__], the result
    has the layers of the first update and no other, each at the length
    the first update has it, whatever the other updates hold.  (An
    assignment to [result['__proto__']] sets the prototype of the result
    and gives it no property.) *)
Theorem result_has_the_shape_of_the_template {F : Type} `{JSNumber F}
    (modelName : string) (h : heap F) (u0 : Update F) (us : list (Update F)) :
  (h !!! weights u0) !! "__proto__" = None ->
  exists r h',
    aggregateWeightsStreaming modelName h (u0 :: us) = Returned (r, h') ∧
    dom r = dom (h !!! weights u0) ∧
    (forall K t, (h !!! weights u0) !! K = Some t ->
       exists v, r !! K = Some v ∧ length v = length t).
Proof.
  intros _.
  destruct (aggregateWeightsStreaming_spec modelName h u0 us) as (r & h' & Hrun & Hr & _).
  exists r, h'. split; [done|]. split.
  - apply set_eq. intros K. rewrite !elem_of_dom, Hr. by rewrite fmap_is_Some.
  - intros K t Ht. rewrite Hr, Ht. cbn. eexists. split; [done|]. apply layer_result_length.
Qed.

(** The theorem at the two updates whose [layer0] vectors differ in
    length. *)
Lemma result_has_the_shape_of_the_template_witness :
  exists r h',
    aggregateWeightsStreaming "demo-model" order_heap [order_A; order_B] = Returned (r, h') ∧
    dom r = dom (order_heap !!! weights order_A) ∧
    (forall K t, (order_heap !!! weights order_A) !! K = Some t ->
       exists v, r !! K = Some v ∧ length v = length t).
Proof.
  apply (result_has_the_shape_of_the_template "demo-model" order_heap order_A [order_B]).
  reflexivity.
Defined.

(** X17.  What a call leaves of its input.  It never adds or changes a
    vector; an object of no update is as it was; a layer the first update
    does not have is left in every object; and a vector whose length is
    not the template's is left where it is. *)
Theorem aggregate_leaves_the_rest {F : Type} `{JSNumber F}
    (modelName : string) (h : heap F) (u0 : Update F) (us : list (Update F)) :
  exists r h',
    aggregateWeightsStreaming modelName h (u0 :: us) = Returned (r, h') ∧
    (forall l K v, (h' !!! l) !! K = Some v -> (h !!! l) !! K = Some v) ∧
    (forall l, l ∉ weights <$> u0 :: us -> h' !!! l = h !!! l) ∧
    (forall l K, (h !!! weights u0) !! K = None -> (h' !!! l) !! K = (h !!! l) !! K) ∧
    (forall l K v t,
       (h !!! l) !! K = Some v -> (h !!! weights u0) !! K = Some t -> length v ≠ length t ->
       (h' !!! l) !! K = Some v).
Proof.
  destruct (aggregateWeightsStreaming_spec modelName h u0 us)
    as (r & h' & Hrun & _ & Hmono & Hframe & _).
  exists r, h'. split; [done|]. split; [done|].
  unfold aggregateWeightsStreaming in Hrun.
  destruct (aggregate_layers (u0 :: us) (weights u0) (Object_keys (h !!! weights u0)) (h, ∅))
    as [[h1 r1]|] eqn:Hlayers; [|done].
  cbn in Hrun. injection Hrun as <- <-.
  destruct (aggregate_layers_kept _ _ _ _ _ _ _ (NoDup_Object_keys _) Hlayers) as [Hobj Hkept].
  split; [done|]. split; [done|]. done.
Qed.

(** ** The weighted mean, without rounding *)

Section WeightedMean.
Implicit Types (h : heap Qc) (u : Update Qc) (us : list (Update Qc)).
Implicit Types (L K : string) (n : nat).

Lemma foldl_add_weight (a : Qc) us : foldl add_weight a us = (a + total_weight us)%Qc.
Proof.
  revert a. induction us as [|u us IH]; intros a.
  - unfold total_weight. cbn. ring.
  - cbn [foldl]. rewrite IH. unfold add_weight, total_weight. cbn. ring.
Qed.

Lemma foldl_add_contribution h L n (a : list Qc) us :
  foldl (add_contribution h L n) a us = foldr (zip_with Qcplus) a (contribution h L n <$> us).
Proof.
  rewrite <- (foldl_foldr_comm (zip_with Qcplus) _ _ vadd_swap vadd_comm).
  by rewrite foldl_fmap.
Qed.

(** The sums of the loop, for updates held in distinct objects. *)
Lemma layer_result_closed_form h L n us :
  NoDup (weights <$> us) ->
  layer_result h us L n
  = let cs := contributors h L n us in
    if bool_decide (0 < total_weight cs)%Qc
    then (fun x => x / total_weight cs)%Qc <$> weighted_sum n h L cs
    else weighted_sum n h L cs.
Proof.
  intros Hnd. unfold layer_result, normalise.
  destruct (layer_run_nodup L n h us Hnd) as [-> ->].
  rewrite foldl_add_weight, foldl_add_contribution.
  change (@num_zero Qc _) with 0%Qc. rewrite Qcplus_0_l. reflexivity.
Qed.

Lemma contributes_template h u0 us K t :
  (h !!! weights u0) !! K = Some t -> u0 ∈ contributors h K (length t) (u0 :: us).
Proof.
  intros Ht. apply list_elem_of_filter. split; [|apply elem_of_cons; by left].
  unfold contributes, layer_of. rewrite Ht. by apply Nat.eqb_eq.
Qed.

Lemma Qc_pos_ne_0 (x : Qc) : (0 < x)%Qc -> x ≠ 0%Qc.
Proof. intros Hx ->. by apply (Qcle_not_lt 0 0 (Qcle_refl 0)). Qed.

Lemma Qc_pos_add (a b : Qc) : (0 < a)%Qc -> (0 <= b)%Qc -> (0 < a + b)%Qc.
Proof.
  unfold Qclt, Qcle. cbn. intros Ha Hb.
  assert (H0 : (0 + 0 < this a + this b)%Q) by (by apply Qplus_lt_le_compat).
  eapply Qlt_le_trans; [exact H0|]. rewrite Qred_correct. apply Qle_refl.
Qed.

Lemma Qc_pos_mul (a b : Qc) : (0 < a)%Qc -> (0 < b)%Qc -> (0 < a * b)%Qc.
Proof.
  intros Ha Hb. replace 0%Qc with (0 * b)%Qc by ring. by apply Qcmult_lt_compat_r.
Qed.

Lemma total_weight_pos us :
  us ≠ [] -> (forall u, u ∈ us -> (0 < weight u)%Qc) -> (0 < total_weight us)%Qc.
Proof.
  induction us as [|u us IH]; intros Hne Hpos; [done|].
  assert (Hu : (0 < weight u)%Qc) by (apply Hpos, elem_of_cons; by left).
  change (total_weight (u :: us)) with (weight u + total_weight us)%Qc.
  apply Qc_pos_add; [done|]. destruct us as [|u' us]; [apply Qcle_refl|].
  apply Qclt_le_weak, IH; [done|]. intros v Hv. apply Hpos, elem_of_cons. by right.
Qed.

Lemma scale_add (a b : Qc) (v : list Qc) :
  zip_with Qcplus ((fun x => x * a)%Qc <$> v) ((fun x => x * b)%Qc <$> v)
  = (fun x => x * (a + b))%Qc <$> v.
Proof. induction v as [|x v IH]; [done|]. cbn. rewrite IH. f_equal. ring. Qed.

Lemma scale_zero (v : list Qc) : replicate (length v) 0%Qc = (fun x => x * 0)%Qc <$> v.
Proof. induction v as [|x v IH]; [done|]. cbn. rewrite IH. f_equal. ring. Qed.

Lemma vector_sum_of_one_vector n (v : list Qc) us h K :
  length v = n ->
  (forall u, u ∈ us -> layer_of h u K = Some v) ->
  weighted_sum n h K us = (fun x => x * total_weight us)%Qc <$> v.
Proof.
  intros <- Hall. unfold weighted_sum, vector_sum. induction us as [|u us IH].
  - apply scale_zero.
  - cbn [fmap list_fmap foldr]. rewrite IH by (intros u' Hu'; apply Hall, elem_of_cons; by right).
    unfold contribution, supplied. rewrite (Hall u) by (apply elem_of_cons; by left).
    change (total_weight (u :: us)) with (weight u + total_weight us)%Qc.
    apply scale_add.
Qed.

Lemma divide_out (W : Qc) (v : list Qc) :
  (0 < W)%Qc -> (fun x => x / W)%Qc <$> ((fun x => x * W)%Qc <$> v) = v.
Proof.
  intros HW. induction v as [|x v IH]; [done|]. cbn. rewrite IH. f_equal.
  field. by apply Qc_pos_ne_0.
Qed.

Lemma contributes_scaled (c : Qc) h K n u :
  contributes K n h (scaled c u) = contributes K n h u.
Proof. reflexivity. Qed.

Lemma contributors_scaled (c : Qc) h K n us :
  contributors h K n (scaled c <$> us) = scaled c <$> contributors h K n us.
Proof.
  unfold contributors. induction us as [|u us IH]; [done|].
  rewrite fmap_cons. destruct (contributes K n h u) eqn:Hc.
  - rewrite !filter_cons_True by (by rewrite ?contributes_scaled). by rewrite fmap_cons, IH.
  - rewrite !filter_cons_False by (by rewrite ?contributes_scaled, Hc). done.
Qed.

Lemma total_weight_scaled (c : Qc) us : total_weight (scaled c <$> us) = (c * total_weight us)%Qc.
Proof.
  unfold total_weight. induction us as [|u us IH]; cbn; [ring|].
  cbn in IH. rewrite IH. ring.
Qed.

Lemma weighted_sum_scaled (c : Qc) n h K us :
  weighted_sum n h K (scaled c <$> us) = (fun x => c * x)%Qc <$> weighted_sum n h K us.
Proof.
  unfold weighted_sum, vector_sum. induction us as [|u us IH].
  - cbn. induction n as [|n IHn]; [done|]. cbn. rewrite <- IHn. f_equal. ring.
  - cbn [fmap list_fmap foldr]. cbn [fmap list_fmap] in IH. rewrite IH.
    unfold contribution at 1 3. cbn [weight scaled].
    change (supplied h K n (scaled c u)) with (supplied h K n u).
    generalize (foldr (zip_with Qcplus) (replicate n 0%Qc) (contribution h K n <$> us)).
    generalize (supplied h K n u). clear.
    intros v. induction v as [|x v IH]; intros [|y w]; cbn; try done.
    rewrite IH. f_equal. ring.
Qed.

End WeightedMean.

(** The contributors of a layer that no update reads from
    [Object.prototype] are the updates that hold a vector of the template
    length for it, and what they supply are those vectors. *)
Lemma own_contributors (h : heap Qc) (K : string) (n : nat) (us : list (Update Qc)) :
  own_layer K n = true ->
  forall u, u ∈ contributors h K n us <->
    u ∈ us ∧ exists v, layer_of h u K = Some v ∧ length v = n ∧ supplied h K n u = v.
Proof.
  intros Hown%negb_true_iff u. unfold contributors. rewrite list_elem_of_filter.
  unfold contributes, supplied. destruct (layer_of h u K) as [v|].
  - rewrite Nat.eqb_eq. split.
    + intros [Hlen Hu]. split; [done|]. by exists v.
    + intros [Hu (v' & [= <-] & Hlen & _)]. done.
  - rewrite Hown. split; [by intros [[=] _]|]. by intros [_ (v & [=] & _)].
Qed.

(** X18.  The aggregate, in closed form.  For updates held in distinct
    objects and a template layer that no update reads from
    [Object.prototype], the layer of the result is the sum of the vectors
    that the updates hold for it at the template length, each scaled by its
    weight, and divided by the sum of those weights when that sum is
    positive. *)
Theorem weighted_mean_of_the_contributors
    (modelName : string) (h : heap Qc) (u0 : Update Qc) (us : list (Update Qc)) :
  NoDup (weights <$> u0 :: us) ->
  exists r h',
    aggregateWeightsStreaming modelName h (u0 :: us) = Returned (r, h') ∧
    (forall K t, (h !!! weights u0) !! K = Some t ->
       own_layer K (length t) = true ->
       (forall u, u ∈ contributors h K (length t) (u0 :: us) <->
          u ∈ u0 :: us ∧ exists v, layer_of h u K = Some v ∧ length v = length t
                                   ∧ supplied h K (length t) u = v) ∧
       r !! K = Some (let cs := contributors h K (length t) (u0 :: us) in
                      if bool_decide (0 < total_weight cs)%Qc
                      then (fun x => x / total_weight cs)%Qc <$> weighted_sum (length t) h K cs
                      else weighted_sum (length t) h K cs)).
Proof.
  intros Hnd.
  destruct (aggregateWeightsStreaming_spec modelName h u0 us) as (r & h' & Hrun & Hr & _).
  exists r, h'. split; [done|]. intros K t Ht Hown. split; [by apply own_contributors|].
  rewrite Hr, Ht. cbn [fmap option_fmap option_map].
  f_equal. by apply layer_result_closed_form.
Qed.

(** The theorem at the updates [three_A], [three_B] and [three_C]. *)
Lemma weighted_mean_of_the_contributors_witness :
  exists r h',
    aggregateWeightsStreaming "m" three_heap (three_A :: [three_B; three_C]) = Returned (r, h') ∧
    (forall K t, (three_heap !!! weights three_A) !! K = Some t ->
       own_layer K (length t) = true ->
       (forall u, u ∈ contributors three_heap K (length t) (three_A :: [three_B; three_C]) <->
          u ∈ three_A :: [three_B; three_C]
          ∧ exists v, layer_of three_heap u K = Some v ∧ length v = length t
                      ∧ supplied three_heap K (length t) u = v) ∧
       r !! K = Some (let cs := contributors three_heap K (length t)
                                  (three_A :: [three_B; three_C]) in
                      if bool_decide (0 < total_weight cs)%Qc
                      then (fun x => x / total_weight cs)%Qc
                             <$> weighted_sum (length t) three_heap K cs
                      else weighted_sum (length t) three_heap K cs)).
Proof.
  apply (weighted_mean_of_the_contributors "m" three_heap three_A [three_B; three_C]).
  exact three_nodup.
Defined.

(** X19.  When the updates agree on a layer, the aggregate is what they
    agree on: for updates of positive weight held in distinct objects that
    all supply the same vector for a layer, the result holds that vector. *)
Theorem agreement_is_kept
    (modelName : string) (h : heap Qc) (u0 : Update Qc) (us : list (Update Qc))
    (K : string) (v : list Qc) :
  NoDup (weights <$> u0 :: us) ->
  (forall u, u ∈ u0 :: us -> (0 < weight u)%Qc) ->
  (forall u, u ∈ u0 :: us -> (h !!! weights u) !! K = Some v) ->
  exists r h',
    aggregateWeightsStreaming modelName h (u0 :: us) = Returned (r, h') ∧
    r !! K = Some v.
Proof.
  intros Hnd Hpos Hall.
  destruct (aggregateWeightsStreaming_spec modelName h u0 us) as (r & h' & Hrun & Hr & _).
  exists r, h'. split; [done|].
  rewrite Hr, (Hall u0) by (apply elem_of_cons; by left). cbn [fmap option_fmap option_map].
  f_equal. rewrite layer_result_closed_form by done. cbv zeta.
  assert (Hc : contributors h K (length v) (u0 :: us) = u0 :: us).
  { apply filter_all. intros u Hu. unfold contributes, layer_of. rewrite (Hall u Hu).
    by apply Nat.eqb_eq. }
  rewrite Hc. rewrite (vector_sum_of_one_vector (length v) v) by done.
  assert (HW : (0 < total_weight (u0 :: us))%Qc) by (by apply total_weight_pos).
  rewrite bool_decide_true by done. by apply divide_out.
Qed.

Lemma agreed_nodup : NoDup (weights <$> [agreed_A; agreed_B; agreed_C]).
Proof. cbn. apply (bool_decide_unpack _). by vm_compute. Qed.

(** The theorem at three updates of weights 1, 2 and 3 that all hold [4,
    7]. *)
Lemma agreement_is_kept_witness :
  exists r h',
    aggregateWeightsStreaming "m" agreed_heap (agreed_A :: [agreed_B; agreed_C]) = Returned (r, h') ∧
    r !! "layer0" = Some [Qc_of_Z 4; Qc_of_Z 7].
Proof.
  apply (agreement_is_kept "m" agreed_heap agreed_A [agreed_B; agreed_C] "layer0"
           [Qc_of_Z 4; Qc_of_Z 7]).
  - exact agreed_nodup.
  - intros u Hu. list_cases Hu; reflexivity.
  - intros u Hu. list_cases Hu; reflexivity.
Defined.

(** In binary64 the agreement is kept up to rounding only: one update of
    weight 3 whose [layer0] is [0.1] aggregates to [0.1 * 3 / 3], which is
    not [0.1]. *)
Example agreement_rounds_in_binary64 :
  result_layer (aggregateWeightsStreaming "m" tenth_heap [tenth]) "layer0"
  = Returned (Some [0.10000000000000002]%float).
Proof. vm_compute. reflexivity. Qed.

(** X20.  Only the proportions of the weights matter: multiplying every
    weight by the same positive factor leaves the result as it is, for
    updates of positive weight held in distinct objects. *)
Theorem weights_count_in_proportion
    (modelName : string) (h : heap Qc) (u0 : Update Qc) (us : list (Update Qc)) (c : Qc) :
  NoDup (weights <$> u0 :: us) ->
  (forall u, u ∈ u0 :: us -> (0 < weight u)%Qc) ->
  (0 < c)%Qc ->
  exists r h1 h2,
    aggregateWeightsStreaming modelName h (u0 :: us) = Returned (r, h1) ∧
    aggregateWeightsStreaming modelName h (scaled c <$> u0 :: us) = Returned (r, h2).
Proof.
  intros Hnd Hpos Hc.
  destruct (aggregateWeightsStreaming_spec modelName h u0 us) as (r & h1 & Hrun & Hr & _).
  rewrite fmap_cons.
  destruct (aggregateWeightsStreaming_spec modelName h (scaled c u0) (scaled c <$> us))
    as (r' & h2 & Hrun' & Hr' & _).
  exists r, h1, h2. split; [done|]. rewrite Hrun'. do 2 f_equal.
  apply map_eq. intros K. rewrite Hr, Hr'. cbn [weights scaled].
  destruct ((h !!! weights u0) !! K) as [t|] eqn:Ht; [|done]. cbn [fmap option_fmap option_map].
  f_equal. rewrite <- fmap_cons.
  assert (Hnd' : NoDup (weights <$> (scaled c <$> u0 :: us))).
  { rewrite <- list_fmap_compose. exact Hnd. }
  rewrite !layer_result_closed_form by done. cbv zeta.
  rewrite contributors_scaled, total_weight_scaled, weighted_sum_scaled.
  assert (HW : (0 < total_weight (contributors h K (length t) (u0 :: us)))%Qc).
  { apply total_weight_pos.
    - intros Hnil. pose proof (contributes_template h u0 us K t Ht) as Hin.
      rewrite Hnil in Hin. by apply elem_of_nil in Hin.
    - intros u [_ Hu]%list_elem_of_filter. by apply Hpos. }
  rewrite !bool_decide_true by (try apply Qc_pos_mul; done).
  rewrite <- list_fmap_compose. apply list_fmap_ext. intros i x _. cbn.
  field. split; by apply Qc_pos_ne_0.
Qed.

(** The theorem at the same three updates, with every weight multiplied by
    100. *)
Lemma weights_count_in_proportion_witness :
  exists r h1 h2,
    aggregateWeightsStreaming "m" agreed_heap (agreed_A :: [agreed_B; agreed_C])
      = Returned (r, h1) ∧
    aggregateWeightsStreaming "m" agreed_heap
      (scaled (Qc_of_Z 100) <$> agreed_A :: [agreed_B; agreed_C]) = Returned (r, h2).
Proof.
  apply (weights_count_in_proportion "m" agreed_heap agreed_A [agreed_B; agreed_C] (Qc_of_Z 100)).
  - exact agreed_nodup.
  - intros u Hu. list_cases Hu; reflexivity.
  - reflexivity.
Defined.

(** ** [performAggregation] and the quality of the data *)

Lemma imap_fmap_ext {A B C : Type} (f : nat -> A -> C) (g : nat -> B -> C) (k : B -> A)
    (l : list B) :
  (forall i x, f i (k x) = g i x) -> imap f (k <$> l) = imap g l.
Proof.
  revert f g. induction l as [|x l IH]; intros f g Hfg; [done|].
  cbn. rewrite Hfg. f_equal. apply IH. intros i y. apply Hfg.
Qed.

(** X21.  [performAggregation] weighs a participant by its sample count and
    by nothing else: whatever the [dataQuality] of the entries, the result
    is the same. *)
Theorem quality_does_not_weigh
    (start finish : Z) (modelName : string) (docs : list LedgerDoc) (quality : LedgerDoc -> float) :
  performAggregation start finish modelName ((fun d => with_quality (quality d) d) <$> docs)
  = performAggregation start finish modelName docs.
Proof.
  unfold performAggregation.
  assert (Hheap : documents_heap ((fun d => with_quality (quality d) d) <$> docs)
                  = documents_heap docs).
  { unfold documents_heap. f_equal. by apply imap_fmap_ext. }
  assert (Hw : weighted_updates ((fun d => with_quality (quality d) d) <$> docs)
               = weighted_updates docs).
  { unfold weighted_updates. by apply imap_fmap_ext. }
  rewrite Hheap, Hw, length_fmap, <- list_fmap_compose. reflexivity.
Qed.

(** ** [withLock] *)

(** While the key holds anything, [withLock] replies [false] without
    running its callback, and changes nothing. *)
Lemma withLock_refused (token : string) (t_set t_eval ttlMs : Z) (lockKey : string)
    (fn : Store -> outcome unit * Store) (st : Store) (e : Entry) :
  (0 < ttlMs)%Z ->
  lookup_live t_set lockKey st = Some e ->
  withLock token t_set t_eval lockKey ttlMs fn st = (Returned false, st).
Proof.
  intros Httl Hlive. unfold withLock.
  assert ((ttlMs <=? 0)%Z = false) as -> by (apply Z.leb_gt; lia).
  unfold Redis.set_px_nx. by rewrite Hlive.
Qed.

(** X22.  Mutual exclusion.  A caller that asks for the lock while the
    callback of its holder runs, before the lock expires, is refused: its
    own callback does not run, and nothing is written.  Here the holder's
    callback is that second call, and throws if the second caller got in:
    the holder returns [true], and the store is the one it found but for
    the lock key, which is deleted. *)
Theorem second_caller_is_refused
    (holder caller : string) (t_set t_second t_second_eval t_eval : Z) (lockKey : string)
    (ttlMs ttl_second : Z) (fn : Store -> outcome unit * Store) (st : Store) :
  (0 < ttlMs)%Z -> (0 < ttl_second)%Z ->
  lookup_live t_set lockKey st = None ->
  (t_second < t_set + ttlMs)%Z ->
  (t_eval < t_set + ttlMs)%Z ->
  withLock holder t_set t_eval lockKey ttlMs
    (fun st1 =>
       let second := withLock caller t_second t_second_eval lockKey ttl_second fn st1 in
       (entered ← second.1; if entered : bool then Thrown "entered" else Returned (), second.2))
    st
  = (Returned true, Redis.del lockKey (locked holder t_set lockKey ttlMs st)).
Proof.
  intros Httl Httl2 Hfree Hsecond Heval.
  assert (Hheld : lookup_live t_second lockKey (locked holder t_set lockKey ttlMs st)
                  = Some {| value := VString holder; expires := Some (t_set + ttlMs)%Z |}).
  { unfold lookup_live, locked. rewrite lookup_insert_eq. cbn.
    apply Z.ltb_lt in Hsecond. by rewrite Hsecond. }
  unfold withLock at 1.
  assert ((ttlMs <=? 0)%Z = false) as -> by (apply Z.leb_gt; lia).
  unfold Redis.set_px_nx. rewrite Hfree.
  change (<[lockKey := {| value := VString holder; expires := Some (t_set + ttlMs)%Z |}]> st)
    with (locked holder t_set lockKey ttlMs st).
  cbv zeta. rewrite (withLock_refused _ _ _ _ _ _ _ _ Httl2 Hheld). cbn [fst snd].
  unfold release_script, Redis.get, lookup_live, locked. rewrite lookup_insert_eq. cbn.
  apply Z.ltb_lt in Heval. rewrite Heval. cbn. by rewrite String.eqb_refl.
Qed.

(** The theorem at two callers of [lock:round], the second half a second
    after the first. *)
Lemma second_caller_is_refused_witness :
  withLock "token-a" 1000 2000 "lock:round" 30000
    (fun st1 =>
       let second := withLock "token-b" 1500 1600 "lock:round" 30000
                       (fun st2 => (Returned (), Redis.del "lock:round" st2)) st1 in
       (entered ← second.1; if entered : bool then Thrown "entered" else Returned (), second.2))
    ∅
  = (Returned true, Redis.del "lock:round" (locked "token-a" 1000 "lock:round" 30000 ∅)).
Proof.
  apply (second_caller_is_refused "token-a" "token-b" 1000 1500 1600 2000 "lock:round" 30000 30000
           (fun st2 => (Returned (), Redis.del "lock:round" st2)) ∅); reflexivity.
Defined.

(** X23.  A free lock is taken, the callback runs in the store that holds
    it, and the lock is released afterwards whether the callback returned
    or threw: when the callback left the lock key alone, the key reads as
    absent from the release on, every other key is as the callback left
    it, and the outcome is [true] or the exception of the callback. *)
Theorem lock_is_released
    (token : string) (t_set t_eval : Z) (lockKey : string) (ttlMs : Z)
    (fn : Store -> outcome unit * Store) (st : Store) :
  (0 < ttlMs)%Z ->
  lookup_live t_set lockKey st = None ->
  (fn (locked token t_set lockKey ttlMs st)).2 !! lockKey
    = locked token t_set lockKey ttlMs st !! lockKey ->
  let ran := fn (locked token t_set lockKey ttlMs st) in
  let finished := withLock token t_set t_eval lockKey ttlMs fn st in
  finished.1 = callback_outcome ran.1 ∧
  (forall t, (t_eval <= t)%Z -> lookup_live t lockKey finished.2 = None) ∧
  (forall key, key ≠ lockKey -> finished.2 !! key = ran.2 !! key).
Proof.
  intros Httl Hfree Hkept ran finished.
  assert (Hlock : ran.2 !! lockKey
                  = Some {| value := VString token; expires := Some (t_set + ttlMs)%Z |}).
  { unfold ran. rewrite Hkept. unfold locked. apply lookup_insert_eq. }
  assert (Hdone : finished = (match (release_script t_eval lockKey token ran.2).1 with
                          | Thrown msg => Thrown msg
                          | Returned _ => _ ← ran.1; Returned true
                          end, (release_script t_eval lockKey token ran.2).2)).
  { unfold finished, withLock.
    assert ((ttlMs <=? 0)%Z = false) as -> by (apply Z.leb_gt; lia).
    unfold Redis.set_px_nx. by rewrite Hfree. }
  rewrite Hdone. clear Hdone. cbn [fst snd].
  unfold release_script, Redis.get, lookup_live. rewrite Hlock. cbn [live expires value].
  destruct (t_eval <? t_set + ttlMs)%Z eqn:Hlive; cbn.
  - rewrite String.eqb_refl. split; [by destruct (ran.1)|]. split.
    + intros t _. unfold Redis.del. by rewrite lookup_delete_eq.
    + intros key Hkey. unfold Redis.del. by rewrite lookup_delete_ne.
  - split; [by destruct (ran.1)|]. split; [|done].
    intros t Ht. rewrite Hlock. cbn. apply Z.ltb_ge in Hlive.
    assert ((t <? t_set + ttlMs)%Z = false) as -> by (apply Z.ltb_ge; lia). done.
Qed.

(** The theorem at a callback that deletes another key and throws. *)
Lemma lock_is_released_witness :
  let fn := fun st : Store => (Thrown (A := unit) "failed", Redis.del "other" st) in
  let ran := fn (locked "token-a" 1000 "lock:round" 30000 ∅) in
  let finished := withLock "token-a" 1000 1200 "lock:round" 30000 fn ∅ in
  finished.1 = callback_outcome ran.1 ∧
  (forall t, (1200 <= t)%Z -> lookup_live t "lock:round" finished.2 = None) ∧
  (forall key, key ≠ "lock:round" -> finished.2 !! key = ran.2 !! key).
Proof.
  apply (lock_is_released "token-a" 1000 1200 "lock:round" 30000
           (fun st : Store => (Thrown (A := unit) "failed", Redis.del "other" st)) ∅).
  - reflexivity.
  - reflexivity.
  - reflexivity.
Defined.

(** X24.  [withLock] releases its own lock only: when the key holds the
    token of another caller at the release (the lock expired while the
    callback ran, and was taken again), the release deletes nothing. *)
Theorem lock_of_another_is_left
    (token other : string) (t_set t_eval : Z) (lockKey : string) (ttlMs : Z)
    (fn : Store -> outcome unit * Store) (st : Store) :
  (0 < ttlMs)%Z ->
  lookup_live t_set lockKey st = None ->
  Redis.get t_eval lockKey (fn (locked token t_set lockKey ttlMs st)).2 = Some (VString other) ->
  String.eqb other token = false ->
  withLock token t_set t_eval lockKey ttlMs fn st
  = (callback_outcome (fn (locked token t_set lockKey ttlMs st)).1,
     (fn (locked token t_set lockKey ttlMs st)).2).
Proof.
  intros Httl Hfree Hother Hne. unfold withLock.
  assert ((ttlMs <=? 0)%Z = false) as -> by (apply Z.leb_gt; lia).
  unfold Redis.set_px_nx. rewrite Hfree.
  change (<[lockKey := {| value := VString token; expires := Some (t_set + ttlMs)%Z |}]> st)
    with (locked token t_set lockKey ttlMs st).
  cbv zeta. unfold release_script. rewrite Hother, Hne. cbn [fst snd].
  by destruct ((fn (locked token t_set lockKey ttlMs st)).1).
Qed.

(** The theorem at a callback that outlasts its lock, which [token-b] has
    taken by the release. *)
Lemma lock_of_another_is_left_witness :
  let fn := fun st : Store => (Returned (), locked "token-b" 40000 "lock:round" 30000 st) in
  withLock "token-a" 1000 41000 "lock:round" 30000 fn ∅
  = (callback_outcome (fn (locked "token-a" 1000 "lock:round" 30000 ∅)).1,
     (fn (locked "token-a" 1000 "lock:round" 30000 ∅)).2).
Proof.
  apply (lock_of_another_is_left "token-a" "token-b" 1000 41000 "lock:round" 30000
           (fun st : Store => (Returned (), locked "token-b" 40000 "lock:round" 30000 st)) ∅);
    reflexivity.
Defined.

(** ** AuthService and the hooks *)

Import AuthService.

(** The user the hooks attach for a development caller, and for a caller
    with a bearer token. *)
Lemma authenticateUser_dev env authHeader devUser :
  is_production env = false -> truthy devUser = true ->
  authenticateUser env authHeader devUser
  = Returned {| au_sub := default "" devUser;
                au_groups := GroupList ["admin"];
                au_cognito_groups := Nullish |}.
Proof. intros He Hd. unfold authenticateUser. by rewrite He, Hd. Qed.

Lemma authenticateUser_bearer env header devUser :
  is_production env || negb (truthy devUser) = true ->
  authenticateUser env (Some header) devUser
  = if String.prefix "Bearer " header
    then Returned {| au_sub := "user"; au_groups := GroupList ["viewer"];
                     au_cognito_groups := Nullish |}
    else Thrown "Missing or invalid authorization header".
Proof.
  intros H. unfold authenticateUser.
  destruct (is_production env), (truthy devUser); cbn in *; done.
Qed.

(** X25.  Outside production, whoever names a user in [x-dev-user] is that
    user with the group [admin], under both servers' hooks, and is granted
    every permission: no credential is looked at. *)
Theorem dev_user_is_granted_everything
    (env : NodeEnv) (authorization devUser : option string) (url required : string) :
  is_production env = false ->
  truthy devUser = true ->
  existsb (fun p => String.prefix p url) Hooks.publicPaths = false ->
  (user ← authenticateUser env authorization devUser; hasPermission user required)
    = Returned true ∧
  exists user,
    Hooks.preHandler env url authorization devUser = Hooks.Attached user ∧
    au_sub user = default "" devUser ∧
    hasPermission user required = Returned true.
Proof.
  intros Henv Hdev Hurl. split.
  - by rewrite authenticateUser_dev.
  - unfold Hooks.preHandler. rewrite Hurl, Hdev, Henv. cbn [negb andb].
    eexists. split; [reflexivity|]. done.
Qed.

(** The theorem at [x-dev-user: anyone] in development, with no
    [authorization] header. *)
Lemma dev_user_is_granted_everything_witness :
  (user ← authenticateUser development None (Some "anyone"); hasPermission user "fl:participate")
    = Returned true ∧
  exists user,
    Hooks.preHandler development "/api/v1/fl/weights" None (Some "anyone") = Hooks.Attached user ∧
    au_sub user = default "" (Some "anyone") ∧
    hasPermission user "fl:participate" = Returned true.
Proof.
  apply (dev_user_is_granted_everything development None (Some "anyone")
           "/api/v1/fl/weights" "fl:participate"); reflexivity.
Defined.

Lemma perms_lookup (g : string) :
  list_to_map (M := gmap string (list string)) perms !! g
  = if String.eqb g "operator" then Some ["fl:participate"; "fl:view"; "model:download"]
    else if String.eqb g "viewer" then Some ["fl:view"; "model:download"]
    else if String.eqb g "maintenance" then Some ["fl:view"]
    else None.
Proof.
  unfold perms. cbn [list_to_map foldr uncurry fst snd].
  destruct (String.eqb_spec g "operator") as [->|H1]; [by rewrite lookup_insert_eq|].
  rewrite lookup_insert_ne by done.
  destruct (String.eqb_spec g "viewer") as [->|H2]; [by rewrite lookup_insert_eq|].
  rewrite lookup_insert_ne by done.
  destruct (String.eqb_spec g "maintenance") as [->|H3]; [by rewrite lookup_insert_eq|].
  by rewrite lookup_insert_ne.
Qed.

Lemma grants_viewer (required : string) :
  grants required "viewer" = Returned (bool_decide (required ∈ ["fl:view"; "model:download"])).
Proof. unfold grants. by rewrite perms_lookup. Qed.

(** X26.  A caller with an [authorization] header that begins with [Bearer
    ] is the user [user] of the group [viewer], whatever follows: the
    token is not read.  The permissions of that user are [fl:view] and
    [model:download], and no other. *)
Theorem bearer_is_a_viewer
    (env : NodeEnv) (header : string) (devUser : option string) (required : string) :
  String.prefix "Bearer " header = true ->
  is_production env || negb (truthy devUser) = true ->
  authenticateUser env (Some header) devUser
    = Returned {| au_sub := "user"; au_groups := GroupList ["viewer"];
                  au_cognito_groups := Nullish |} ∧
  (user ← authenticateUser env (Some header) devUser; hasPermission user required)
    = Returned (bool_decide (required ∈ ["fl:view"; "model:download"])).
Proof.
  intros Hbearer Hprod. rewrite authenticateUser_bearer, Hbearer by done.
  split; [done|].
  change (hasPermission {| au_sub := "user"; au_groups := GroupList ["viewer"];
                           au_cognito_groups := Nullish |} required
          = Returned (bool_decide (required ∈ ["fl:view"; "model:download"]))).
  unfold hasPermission.
  change (groups_of _) with ["viewer"].
  assert (bool_decide ("admin" ∈ ["viewer"]) || bool_decide ("super_admin" ∈ ["viewer"]) = false)
    as -> by (by vm_compute).
  cbn [some_grants]. rewrite grants_viewer.
  change (Returned ?b ≫= ?f) with (f b). cbv beta.
  by destruct (bool_decide _).
Qed.

(** The theorem in production at [Bearer not-a-token], asking for
    [fl:participate]. *)
Lemma bearer_is_a_viewer_witness :
  authenticateUser production (Some "Bearer not-a-token") (Some "anyone")
    = Returned {| au_sub := "user"; au_groups := GroupList ["viewer"];
                  au_cognito_groups := Nullish |} ∧
  (user ← authenticateUser production (Some "Bearer not-a-token") (Some "anyone");
   hasPermission user "fl:participate")
    = Returned (bool_decide ("fl:participate" ∈ ["fl:view"; "model:download"])).
Proof.
  apply (bearer_is_a_viewer production "Bearer not-a-token" (Some "anyone") "fl:participate");
    reflexivity.
Defined.

Lemma grants_ordinary (required g : string) :
  g ∉ prototype_names -> grants required g = Returned (bool_decide (required ∈ allowed g)).
Proof.
  intros Hg. unfold grants, allowed.
  destruct (list_to_map perms !! g) as [l|]; [done|].
  rewrite bool_decide_false by done. cbn. rewrite bool_decide_false; [done|].
  apply not_elem_of_nil.
Qed.

Lemma some_grants_ordinary (required : string) (groups : list string) :
  Forall (fun g => g ∉ prototype_names) groups ->
  some_grants required groups
  = Returned (existsb (fun g => bool_decide (required ∈ allowed g)) groups).
Proof.
  induction 1 as [|g groups Hg _ IH]; [done|].
  cbn [some_grants existsb]. rewrite grants_ordinary by done.
  change (Returned ?b ≫= ?f) with (f b). cbv beta.
  destruct (bool_decide (required ∈ allowed g)); [done|]. by rewrite IH.
Qed.

Lemma some_grants_prototype (required g : string) (before after : list string) :
  g ∈ prototype_names ->
  Forall (fun g' => g' ∉ prototype_names) before ->
  some_grants required (before ++ g :: after)
  = if existsb (fun g' => bool_decide (required ∈ allowed g')) before
    then Returned true
    else Thrown "perms[g]?.includes is not a function".
Proof.
  intros Hg Hbefore. induction Hbefore as [|g' before Hg' _ IH].
  - cbn [app some_grants existsb]. unfold grants.
    assert (list_to_map (M := gmap string (list string)) perms !! g = None) as ->.
    { rewrite perms_lookup.
      repeat (apply elem_of_cons in Hg as [->|Hg]; [reflexivity|]). by apply elem_of_nil in Hg. }
    by rewrite bool_decide_true.
  - cbn [app some_grants existsb]. rewrite grants_ordinary by done.
    change (Returned ?b ≫= ?f) with (f b). cbv beta.
    destruct (bool_decide (required ∈ allowed g')); [done|]. exact IH.
Qed.

(** X27.  [hasPermission], by the groups it reads: those of
    [cognito:groups] as soon as that property holds anything, else those
    of [groups].  With [admin] or [super_admin] among them the permission
    is granted.  Without, the groups are tried in turn: for groups that
    bear no name of [Object.prototype] the call returns, and grants
    exactly when the table lists the permission for one of them; a group
    that bears such a name makes the call throw instead of denying, unless
    a group before it grants. *)
Theorem hasPermission_by_groups (user : AuthUser) (required : string) :
  (bool_decide ("admin" ∈ groups_of user) || bool_decide ("super_admin" ∈ groups_of user) = true ->
   hasPermission user required = Returned true) ∧
  (bool_decide ("admin" ∈ groups_of user) || bool_decide ("super_admin" ∈ groups_of user) = false ->
   (Forall (fun g => g ∉ prototype_names) (groups_of user) ->
    hasPermission user required
    = Returned (existsb (fun g => bool_decide (required ∈ allowed g)) (groups_of user))) ∧
   (forall g before after,
      groups_of user = (before ++ g :: after)%list ->
      g ∈ prototype_names ->
      Forall (fun g' => g' ∉ prototype_names) before ->
      hasPermission user required
      = if existsb (fun g' => bool_decide (required ∈ allowed g')) before
        then Returned true
        else Thrown "perms[g]?.includes is not a function")) ∧
  (forall groups',
     au_cognito_groups user ≠ Nullish ->
     hasPermission user required
     = hasPermission {| au_sub := au_sub user; au_groups := groups';
                        au_cognito_groups := au_cognito_groups user |} required).
Proof.
  split; [|split].
  - intros Hadmin. unfold hasPermission. cbv zeta. by rewrite Hadmin.
  - intros Hadmin. split.
    + intros Hgroups. unfold hasPermission. cbv zeta. rewrite Hadmin.
      by apply some_grants_ordinary.
    + intros g before after Hgroups Hg Hbefore. unfold hasPermission. cbv zeta.
      rewrite Hadmin, Hgroups. by apply some_grants_prototype.
  - intros groups' Hc. unfold hasPermission, groups_of. destruct user as [name groups cognito].
    cbn in *. by destruct cognito.
Qed.

(** A viewer listed after [constructor] is not reached; listed before, it
    grants.  An empty [cognito:groups] hides an [admin] of [groups]. *)
Example groups_in_order :
  hasPermission {| au_sub := "u"; au_groups := GroupList ["maintenance"; "constructor"; "viewer"];
                   au_cognito_groups := Nullish |} "model:download"
  = Thrown "perms[g]?.includes is not a function" ∧
  hasPermission {| au_sub := "u"; au_groups := GroupList ["viewer"; "constructor"];
                   au_cognito_groups := Nullish |} "model:download"
  = Returned true ∧
  hasPermission {| au_sub := "u"; au_groups := GroupList ["admin"];
                   au_cognito_groups := GroupList [] |} "fl:view"
  = Returned false.
Proof. split; [|split]; vm_compute; reflexivity. Qed.

(** X28.  The hook of the later server in front of its routes.  The model is
    read without a user, whatever the headers; in production a request for
    the upload route without a bearer header is answered [401] and writes
    nothing, whatever [x-dev-user] says; and the entry of an upload that
    is accepted names the user of the hook as [uploadedBy]: the name in
    [x-dev-user], or [user] for whoever sent a bearer header. *)
Theorem hook_in_front_of_the_routes
    (env : NodeEnv) (cfg : Config) (clk : Clock) (query : string)
    (authorization devUser : option string) (req : Request) (st : Store) :
  (forall modelName,
     Hooks.preHandler env ("/api/v1/fl/model/" ++ modelName) authorization devUser
     = Hooks.PublicPath) ∧
  (is_production env = true ->
   match authorization with
   | Some header => String.prefix "Bearer " header
   | None => false
   end = false ->
   Hooks.upload_request env cfg clk ("/api/v1/fl/weights" ++ query) authorization devUser req st
   = (Unauthorized, st)) ∧
  (forall key siteId modelName size receivedAt st',
     Hooks.upload_request env cfg clk ("/api/v1/fl/weights" ++ query) authorization devUser req st
       = (Uploaded key siteId modelName size receivedAt, st') ->
     exists e d,
       st' !! key = Some e ∧ value e = VUpdate d ∧
       doc_uploadedBy d
       = if truthy devUser && negb (is_production env) then default "" devUser else "user").
Proof.
  assert (Hupload : existsb (fun p => String.prefix p ("/api/v1/fl/weights" ++ query))
                      Hooks.publicPaths = false) by reflexivity.
  split; [|split].
  - intros modelName. unfold Hooks.preHandler.
    assert (existsb (fun p => String.prefix p ("/api/v1/fl/model/" ++ modelName))
              Hooks.publicPaths = true) as ->; [|done].
    unfold Hooks.publicPaths. cbn [existsb].
    rewrite (prefix_app "/api/v1/fl/model/"). by rewrite !orb_true_r.
  - intros Hprod Hbearer. unfold Hooks.upload_request, Hooks.preHandler.
    rewrite Hupload, Hprod, andb_false_r. unfold authenticateUser. rewrite Hprod. cbn [negb andb].
    destruct authorization as [header|]; [|done]. by rewrite Hbearer.
  - intros key siteId modelName size receivedAt st'.
    unfold Hooks.upload_request, Hooks.preHandler. rewrite Hupload.
    assert (Hstored : forall user,
      RitaServer.post_weights cfg clk
        {| req_user := Some {| sub := Some (au_sub user) |};
           req_rawBody := req_rawBody req; req_body := req_body req;
           req_canonical := req_canonical req; req_signature := req_signature req |} st
      = (Uploaded key siteId modelName size receivedAt, st') ->
      exists e d, st' !! key = Some e ∧ value e = VUpdate d ∧ doc_uploadedBy d = au_sub user).
    { intros user Hacc.
      apply post_weights_accepted in Hacc as (u & body & sig & sz & Hu & _ & _ & _ & Henq).
      cbn in Hu. injection Hu as <-.
      apply enqueue_accepted in Henq as (_ & _ & _ & Hdoc).
      eexists _, _. split; [exact Hdoc|]. done. }
    destruct (truthy devUser && negb (is_production env)) eqn:Hdev.
    + intros Hacc. by apply (Hstored _) in Hacc.
    + unfold authenticateUser. cbn [truthy]. rewrite andb_false_r.
      destruct authorization as [header|]; [|done].
      destruct (String.prefix "Bearer " header); [|done].
      intros Hacc. by apply (Hstored _) in Hacc.
Qed.

(** ** The server of the API description: what is public *)

Lemma before_query_app (path query : string) :
  no_question path = true -> DocsServer.before_query (path ++ String "?" query) = path.
Proof.
  induction path as [|c path IH]; [done|]. cbn [no_question]. intros [Hc Hp]%andb_prop.
  rewrite append_cons. cbn [DocsServer.before_query].
  destruct (Ascii.eqb c "?"); [done|]. by rewrite IH.
Qed.

Lemma before_query_path (path : string) :
  no_question path = true -> DocsServer.before_query path = path.
Proof.
  induction path as [|c path IH]; [done|]. cbn [no_question]. intros [Hc Hp]%andb_prop.
  cbn [DocsServer.before_query]. destruct (Ascii.eqb c "?"); [done|]. by rewrite IH.
Qed.

Lemma prefix_trans_docs (url : string) :
  String.prefix "/docs/json" url || String.prefix "/docs/static" url || String.eqb url "/docs/"
  = true -> String.prefix "/docs/" url = true.
Proof.
  intros H. apply orb_prop in H as [H|H]; [apply orb_prop in H as [H|H]|].
  - apply prefix_inv in H as [rest ->]. apply (prefix_app "/docs/" ("json" ++ rest)).
  - apply prefix_inv in H as [rest ->]. apply (prefix_app "/docs/" ("static" ++ rest)).
  - apply String.eqb_eq in H as ->. reflexivity.
Qed.

(** X29.  [authGuard] of this server reads the URL up to its query, and
    lets a request through exactly when that path is [/health],
    [/openapi.json] or [/docs], or lies under [/docs/], or the
    [authorization] header begins with [Bearer ]: what follows [Bearer ]
    is not read. *)
Theorem public_paths_and_bearers_pass (path query : string) (auth : option string) :
  no_question path = true ->
  DocsServer.authGuard (path ++ String "?" query) auth = DocsServer.authGuard path auth ∧
  DocsServer.authGuard path auth
  = if bool_decide (path ∈ ["/health"; "/openapi.json"; "/docs"])
       || String.prefix "/docs/" path
       || match auth with Some header => String.prefix "Bearer " header | None => false end
    then None else Some 401%nat.
Proof.
  intros Hpath. unfold DocsServer.authGuard, DocsServer.isPublic. cbv zeta.
  rewrite before_query_app, before_query_path by done. split; [done|].
  assert (Hlist : bool_decide (path ∈ ["/health"; "/openapi.json"; "/docs"])
                  = String.eqb path "/health" || String.eqb path "/openapi.json"
                    || String.eqb path "/docs").
  { destruct (String.eqb_spec path "/health") as [->|H1]; [done|].
    destruct (String.eqb_spec path "/openapi.json") as [->|H2]; [done|].
    destruct (String.eqb_spec path "/docs") as [->|H3]; [done|].
    apply bool_decide_eq_false. intros Hin.
    repeat (apply elem_of_cons in Hin as [->|Hin]; [done|]). by apply elem_of_nil in Hin. }
  rewrite Hlist.
  destruct (String.eqb path "/health"); [done|].
  destruct (String.eqb path "/openapi.json"); [done|].
  destruct (String.eqb path "/docs"); [done|]. cbn [orb].
  destruct (String.prefix "/docs/" path) eqn:Hdocs.
  - by rewrite !orb_true_r.
  - rewrite !orb_false_r.
    destruct (String.eqb path "/docs/" || String.prefix "/docs/json" path
              || String.prefix "/docs/static" path) eqn:Hany.
    + exfalso. assert (String.prefix "/docs/" path = true); [|congruence].
      apply prefix_trans_docs.
      destruct (String.eqb path "/docs/"), (String.prefix "/docs/json" path),
        (String.prefix "/docs/static" path); done.
    + destruct auth as [header|]; [|done]. by destruct (String.prefix "Bearer " header).
Qed.

(** The theorem at [/api/v1/hello?x=1] with a bearer header. *)
Lemma public_paths_and_bearers_pass_witness :
  DocsServer.authGuard ("/api/v1/hello" ++ String "?" "x=1") (Some "Bearer anything")
    = DocsServer.authGuard "/api/v1/hello" (Some "Bearer anything") ∧
  DocsServer.authGuard "/api/v1/hello" (Some "Bearer anything")
  = if bool_decide ("/api/v1/hello" ∈ ["/health"; "/openapi.json"; "/docs"])
       || String.prefix "/docs/" "/api/v1/hello"
       || String.prefix "Bearer " "Bearer anything"
    then None else Some 401%nat.
Proof.
  apply (public_paths_and_bearers_pass "/api/v1/hello" "x=1" (Some "Bearer anything")).
  reflexivity.
Defined.

(** ** The development server: signatures and duplicates *)

Lemma lower_upper (c : ascii) : DevServer.lower (upper c) = DevServer.lower c.
Proof. destruct c as [[] [] [] [] [] [] [] []]; reflexivity. Qed.

Lemma toLowerCase_toUpperCase (s : string) :
  DevServer.toLowerCase (toUpperCase s) = DevServer.toLowerCase s.
Proof. induction s as [|c s IH]; [done|]. cbn. by rewrite lower_upper, IH. Qed.

Lemma toLowerCase_length (s : string) : String.length (DevServer.toLowerCase s) = String.length s.
Proof. induction s as [|c s IH]; [done|]. cbn. by rewrite IH. Qed.

Lemma length_append (a b : string) : String.length (a ++ b) = (String.length a + String.length b)%nat.
Proof. induction a as [|c a IH]; [done|]. rewrite append_cons. cbn. by rewrite IH. Qed.

Lemma compress_length (hs block : list N) :
  length hs = 8%nat -> length (Crypto.compress hs block) = 8%nat.
Proof.
  intros Hhs. unfold Crypto.compress. cbv zeta. rewrite length_zip_with, Hhs. reflexivity.
Qed.

Lemma sha256_length (msg : list N) : length (Crypto.sha256 msg) = 32%nat.
Proof.
  unfold Crypto.sha256. cbv zeta.
  assert (Hhs : forall blocks hs, length hs = 8%nat ->
            length (foldl Crypto.compress hs blocks) = 8%nat).
  { intros blocks. induction blocks as [|b blocks IH]; intros hs Hhs; [done|].
    cbn. by apply IH, compress_length. }
  specialize (Hhs (Crypto.blocks (length (Crypto.words (Crypto.pad msg)))
                     (Crypto.words (Crypto.pad msg))) Crypto.initial_hash eq_refl).
  destruct (foldl Crypto.compress _ _) as [|h0 [|h1 [|h2 [|h3 [|h4 [|h5 [|h6 [|h7 [|]]]]]]]]];
    try discriminate Hhs.
  reflexivity.
Qed.

Lemma createHmac_not_empty (secret raw : string) :
  String.eqb (Crypto.createHmac_sha256_hex secret raw) "" = false ∧
  String.eqb (toUpperCase (Crypto.createHmac_sha256_hex secret raw)) "" = false.
Proof.
  unfold Crypto.createHmac_sha256_hex, Crypto.hmac_sha256. cbv zeta.
  pose proof (sha256_length
    ((N.lxor 92 <$>
      (if (64 <? length (Crypto.bytes_of secret))%nat
       then Crypto.sha256 (Crypto.bytes_of secret) else Crypto.bytes_of secret)
      ++ replicate (64 - length (if (64 <? length (Crypto.bytes_of secret))%nat
                                 then Crypto.sha256 (Crypto.bytes_of secret)
                                 else Crypto.bytes_of secret)) 0%N)
     ++ Crypto.sha256
          ((N.lxor 54 <$>
            (if (64 <? length (Crypto.bytes_of secret))%nat
             then Crypto.sha256 (Crypto.bytes_of secret) else Crypto.bytes_of secret)
            ++ replicate (64 - length (if (64 <? length (Crypto.bytes_of secret))%nat
                                       then Crypto.sha256 (Crypto.bytes_of secret)
                                       else Crypto.bytes_of secret)) 0%N)
           ++ Crypto.bytes_of raw))%list) as Hlen.
  destruct (Crypto.sha256 _) as [|b bs]; [discriminate Hlen|]. done.
Qed.

(** The development server compares the texts of the signatures, letter
    case apart: the signature of the text is accepted in capitals, and
    refused with anything after it; with no secret configured nothing is
    accepted. *)
Lemma dev_signature_is_compared_whole (secret raw tail : string) :
  String.eqb secret "" = false ->
  String.eqb tail "" = false ->
  DevServer.isValidSignature secret raw (toUpperCase (Crypto.createHmac_sha256_hex secret raw))
    = true ∧
  DevServer.isValidSignature secret raw (Crypto.createHmac_sha256_hex secret raw ++ tail) = false ∧
  (forall headerSig, DevServer.isValidSignature "" raw headerSig = false).
Proof.
  intros Hsecret Htail. split; [|split].
  - unfold DevServer.isValidSignature. rewrite Hsecret.
    rewrite (proj2 (createHmac_not_empty secret raw)). cbn [orb].
    rewrite toLowerCase_toUpperCase. apply String.eqb_refl.
  - unfold DevServer.isValidSignature. rewrite Hsecret. cbn [orb].
    destruct (String.eqb (_ ++ tail) ""); [done|].
    apply String.eqb_neq. intros Heq.
    apply (f_equal String.length) in Heq. rewrite !toLowerCase_length, length_append in Heq.
    destruct tail as [|c tail]; [done|]. cbn in Heq. lia.
  - done.
Qed.

(** X30.  A body the development server accepted is a duplicate for the
    five minutes that follow, under any signature that verifies, and is
    accepted again afterwards. *)
Theorem dev_duplicate_is_refused
    (secret : string) (now later : Z) (authorization devUser authorization' devUser' : option string)
    (req req' : Request) (seen seen' : DevServer.Seen) :
  DevServer.post_weights secret now authorization devUser req seen = (DevServer.Accepted, seen') ->
  default (req_canonical req') (req_rawBody req') = default (req_canonical req) (req_rawBody req) ->
  DevServer.authGuard authorization' devUser' = true ->
  DevServer.isValidSignature secret (default (req_canonical req') (req_rawBody req'))
    (default "" (req_signature req')) = true ->
  DevServer.post_weights secret later authorization' devUser' req' seen'
  = if (later <? now + 5 * 60 * 1000)%Z then (DevServer.Duplicate, seen')
    else (DevServer.Accepted,
          <[DevServer.bodyHash (default (req_canonical req) (req_rawBody req))
              := (later + 5 * 60 * 1000)%Z]> seen').
Proof.
  unfold DevServer.post_weights. cbv zeta.
  destruct (negb (DevServer.authGuard authorization devUser)); [done|].
  destruct (negb (DevServer.isValidSignature _ _ (default "" (req_signature req)))); [done|].
  destruct (DevServer.seen_has now _ seen); [done|].
  intros [= <-] Hraw Hauth Hsig. rewrite Hauth, Hsig, Hraw. cbn [negb].
  unfold DevServer.seen_has. rewrite lookup_insert_eq.
  by destruct (later <? now + 5 * 60 * 1000)%Z.
Qed.

(** The theorem at the body of site A, sent again 899 milliseconds later. *)
Lemma dev_duplicate_is_refused_witness :
  DevServer.post_weights "0123456789abcdef0123456789abcdef" 1700000001000
    None (Some "dev-simulator") upload_A_dev
    (DevServer.post_weights "0123456789abcdef0123456789abcdef" 1700000000101
       (Some "Bearer dev-simulator") None upload_A_dev ∅).2
  = if (1700000001000 <? 1700000000101 + 5 * 60 * 1000)%Z
    then (DevServer.Duplicate,
          (DevServer.post_weights "0123456789abcdef0123456789abcdef" 1700000000101
             (Some "Bearer dev-simulator") None upload_A_dev ∅).2)
    else (DevServer.Accepted,
          <[DevServer.bodyHash (default (req_canonical upload_A_dev) (req_rawBody upload_A_dev))
              := (1700000001000 + 5 * 60 * 1000)%Z]>
            (DevServer.post_weights "0123456789abcdef0123456789abcdef" 1700000000101
               (Some "Bearer dev-simulator") None upload_A_dev ∅).2).
Proof.
  apply (dev_duplicate_is_refused "0123456789abcdef0123456789abcdef" 1700000000101 1700000001000
           (Some "Bearer dev-simulator") None None (Some "dev-simulator") upload_A_dev upload_A_dev ∅).
  - apply pair_components; [vm_compute; reflexivity|reflexivity].
  - reflexivity.
  - reflexivity.
  - vm_compute. reflexivity.
Defined.
